(** * Latency percentile checker (t/latency_percentiles.py)

    A shallow embedding of the checking functions of fio's
    [t/latency_percentiles.py] and the properties its specification
    states about them.

    Python values are modelled as follows.
    - [int] is [Z] (unbounded).
    - [float] is IEEE-754 binary64: a finite value is the rational it
      denotes, and every arithmetic operation rounds its exact result to
      the nearest binary64 value, ties to even (module [Binary64]).
    - [str] is [string], its characters read as code points below 256.
    - a [dict] decoded from JSON is an association list in document order;
      an optional member is an [option] field of a record.
    - [print] appends a diagnostic to the output of the call; an exception
      ends the call and keeps what was printed before it (monad [M]).  *)

From Stdlib Require Import ZArith QArith Qround Qabs Qpower Lia Lqa List String Ascii Bool.
From Stdlib Require Import Permutation Sorted.
Import ListNotations.
Open Scope Z_scope.

(** ** Exceptions and results *)

(** The built-in exceptions the checking functions can raise. *)
Inductive exn : Type :=
  | ZeroDivisionError
  | OverflowError
  | ValueError
  | KeyError
  | IndexError.

Inductive result (A : Type) : Type :=
  | Ok (a : A)
  | Raise (e : exn).
Arguments Ok {A} a.
Arguments Raise {A} e.

(** ** Binary64 arithmetic *)

Module Binary64.

Definition prec : Z := 53.
Definition emin : Z := -1074.
Definition emax : Z := 1024.

(** A float is a finite value (the rational it denotes), an infinity or
    a NaN. The sign of a zero is not kept: none of the operations used
    by the checker (comparison, ceil, floor) can tell the two zeros
    apart. *)
Inductive float : Type :=
  | Fin (q : Q)
  | Inf (negative : bool)
  | NaN.

(** [rne n d] is the integer nearest to [n / d] ([0 < d]), ties to even. *)
Definition rne (n d : Z) : Z :=
  let q := n / d in
  let r := n mod d in
  match 2 * r ?= d with
  | Lt => q
  | Gt => q + 1
  | Eq => if Z.even q then q else q + 1
  end.

(** [ilog2 a b] is [floor (log2 (a / b))] for positive [a] and [b]. *)
Definition ilog2 (a b : Z) : Z :=
  let k := Z.log2 a - Z.log2 b in
  if (if 0 <=? k then b * 2 ^ k <=? a else b <=? a * 2 ^ (- k))
  then k else k - 1.

(** The exponent of the unit in the last place that [x] is rounded to:
    53 significant bits, and never below the subnormal spacing. *)
Definition ulp_exp (x : Q) : Z :=
  if Qnum x =? 0 then emin
  else Z.max (ilog2 (Z.abs (Qnum x)) (Zpos (Qden x)) - (prec - 1)) emin.

(** [scaled x e] is [x / 2^e] rounded to an integer. *)
Definition scaled (x : Q) (e : Z) : Z :=
  if 0 <=? e then rne (Qnum x) (Zpos (Qden x) * 2 ^ e)
  else rne (Qnum x * 2 ^ (- e)) (Zpos (Qden x)).

(** [of_scaled m e] is [m * 2^e]. *)
Definition of_scaled (m e : Z) : Q :=
  if 0 <=? e then inject_Z (m * 2 ^ e) else Qmake m (Z.to_pos (2 ^ (- e))).

(** The value on the binary64 grid nearest to [x]. *)
Definition rounded (x : Q) : Q :=
  of_scaled (scaled x (ulp_exp x)) (ulp_exp x).

(** Rounding of an exact result to binary64: the nearest grid value, or
    an infinity when that value is out of range. *)
Definition round (x : Q) : float :=
  let e := ulp_exp x in
  let m := scaled x e in
  if (0 <=? e) && (2 ^ emax <=? Z.abs m * 2 ^ e) then Inf (m <? 0)
  else Fin (of_scaled m e).

(** [2^k] as a rational, for the statements about rounding. *)
Definition pow2 (k : Z) : Q := Qpower 2 k.

Definition is_zero (x : Q) : bool := Qnum x =? 0.
Definition is_neg (x : Q) : bool := Qnum x <? 0.

(** [x / y] on floats; Python raises on a zero divisor. *)
Definition fdiv (x y : float) : result float :=
  match x, y with
  | _, Fin b =>
      if is_zero b then Raise ZeroDivisionError
      else match x with
           | Fin a => Ok (round (a / b))
           | Inf s => Ok (Inf (xorb s (is_neg b)))
           | NaN => Ok NaN
           end
  | NaN, _ | _, NaN => Ok NaN
  | Inf _, Inf _ => Ok NaN
  | Fin _, Inf _ => Ok (Fin 0)
  end.

(** [x * y] on floats; an overflow gives an infinity, silently. *)
Definition fmul (x y : float) : float :=
  match x, y with
  | Fin a, Fin b => round (a * b)
  | NaN, _ | _, NaN => NaN
  | Inf s, Fin b | Fin b, Inf s =>
      if is_zero b then NaN else Inf (xorb s (is_neg b))
  | Inf s, Inf t => Inf (xorb s t)
  end.

(** Conversion of an [int] operand to [float]. *)
Definition of_int (n : Z) : result float :=
  match round (inject_Z n) with
  | Fin q => Ok (Fin q)
  | _ => Raise OverflowError
  end.

(** [x / n] and [x * n] with an [int] right operand, which Python
    converts to [float] first. *)
Definition fdiv_int (x : float) (n : Z) : result float :=
  match of_int n with
  | Ok y => fdiv x y
  | Raise e => Raise e
  end.

Definition fmul_int (x : float) (n : Z) : result float :=
  match of_int n with
  | Ok y => Ok (fmul x y)
  | Raise e => Raise e
  end.

(** [a / b] on two [int]s: the correctly rounded quotient. *)
Definition int_truediv (a b : Z) : result float :=
  if b =? 0 then Raise ZeroDivisionError
  else match round (inject_Z a / inject_Z b) with
       | Fin q => Ok (Fin q)
       | _ => Raise OverflowError
       end.

(** [math.ceil] and [math.floor]. *)
Definition ceil (x : float) : result Z :=
  match x with
  | Fin q => Ok (Qceiling q)
  | Inf _ => Raise OverflowError
  | NaN => Raise ValueError
  end.

Definition floor (x : float) : result Z :=
  match x with
  | Fin q => Ok (Qfloor q)
  | Inf _ => Raise OverflowError
  | NaN => Raise ValueError
  end.

(** [x <= y]. *)
Definition fle (x y : float) : bool :=
  match x, y with
  | Fin a, Fin b => Qle_bool a b
  | NaN, _ | _, NaN => false
  | Inf true, _ => true
  | _, Inf false => true
  | _, _ => false
  end.

End Binary64.

Import Binary64.

(** ** Strings, lists and dictionaries *)

Definition code (c : ascii) : Z := Z.of_N (N_of_ascii c).

(** The line boundaries of [str.splitlines] among code points below 256. *)
Definition is_linebreak (c : ascii) : bool :=
  let n := code c in
  ((10 <=? n) && (n <=? 13)) || ((28 <=? n) && (n <=? 30)) || (n =? 133).

(** [s.splitlines()]: a carriage return followed by a line feed is one
    boundary, and a boundary at the very end opens no further line. *)
Fixpoint splitlines (s : string) : list string :=
  match s with
  | EmptyString => []
  | String c rest =>
      if is_linebreak c then
        EmptyString ::
          match rest with
          | String c2 rest2 =>
              if (code c =? 13) && (code c2 =? 10) then splitlines rest2
              else splitlines rest
          | EmptyString => []
          end
      else
        match splitlines rest with
        | [] => [String c EmptyString]
        | l :: ls => String c l :: ls
        end
  end.

(** [sep.join(parts)]. *)
Fixpoint join (sep : string) (parts : list string) : string :=
  match parts with
  | [] => EmptyString
  | [p] => p
  | p :: ps => p ++ sep ++ join sep ps
  end.

(** [s.split(sep)] for a one-character separator. *)
Fixpoint split (sep : ascii) (s : string) : list string :=
  match s with
  | EmptyString => [EmptyString]
  | String c rest =>
      if Ascii.eqb c sep then EmptyString :: split sep rest
      else match split sep rest with
           | [] => [String c EmptyString]
           | l :: ls => String c l :: ls
           end
  end.

(** [s[1:]]. *)
Definition drop_first (s : string) : string :=
  match s with
  | EmptyString => EmptyString
  | String _ rest => rest
  end.

Definition digit_of (c : ascii) : option Z :=
  let n := code c in
  if (48 <=? n) && (n <=? 57) then Some (n - 48) else None.

Fixpoint digits_value (acc : Z) (s : string) : option Z :=
  match s with
  | EmptyString => Some acc
  | String c rest =>
      match digit_of c with
      | Some d => digits_value (10 * acc + d) rest
      | None => None
      end
  end.

(** An optional sign in front of the rest of a number. *)
Definition strip_sign (s : string) : bool * string :=
  match s with
  | String "-"%char rest => (true, rest)
  | String "+"%char rest => (false, rest)
  | _ => (false, s)
  end.

(** [int(s)] for an optionally signed run of decimal digits. Python
    accepts more spellings (surrounding blanks, underscores between
    digits); they are not produced by fio and are rejected here, so a
    successful parse below is a successful parse in Python with the same
    value. *)
Definition int_of_string (s : string) : result Z :=
  let (neg, body) := strip_sign s in
  match body with
  | EmptyString => Raise ValueError
  | _ =>
      match digits_value 0 body with
      | Some v => Ok (if neg then - v else v)
      | None => Raise ValueError
      end
  end.

(** The exact value of a decimal numeral: an optional sign, digits, and
    optionally a point and more digits, with a digit on at least one side
    of the point. *)
Definition decimal_of_string (s : string) : option Q :=
  let (neg, body) := strip_sign s in
  match split "."%char body with
  | [ip] =>
      match ip with
      | EmptyString => None
      | _ =>
          match digits_value 0 ip with
          | Some v => Some (inject_Z (if neg then - v else v))
          | None => None
          end
      end
  | [ip; fp] =>
      match ip, fp with
      | EmptyString, EmptyString => None
      | _, _ =>
          match digits_value 0 (ip ++ fp) with
          | Some v =>
              Some (Qmake (if neg then - v else v)
                          (Z.to_pos (10 ^ Z.of_nat (String.length fp))))
          | None => None
          end
      end
  | _ => None
  end.

(** [float(s)] for such a numeral: the binary64 value nearest to it.
    As for [int_of_string], the other spellings Python accepts (an
    exponent, [inf], [nan]) are rejected. *)
Definition float_of_string (s : string) : result float :=
  match decimal_of_string s with
  | Some q => Ok (round q)
  | None => Raise ValueError
  end.

(** A JSON object whose values are integers, in document order. *)
Definition dict : Type := list (string * Z).

Definition keys (d : dict) : list string := map fst d.

(** [d[k]]. *)
Fixpoint dict_get (d : dict) (k : string) : result Z :=
  match d with
  | [] => Raise KeyError
  | (k', v) :: rest => if String.eqb k' k then Ok v else dict_get rest k
  end.

(** [l[i]] with Python's negative indices. *)
Definition list_index (l : list Z) (i : Z) : result Z :=
  let n := Z.of_nat (List.length l) in
  if (0 <=? i) && (i <? n) then Ok (nth (Z.to_nat i) l 0)
  else if (- n <=? i) && (i <? 0) then Ok (nth (Z.to_nat (n + i)) l 0)
  else Raise IndexError.

(** [min(l)] and [max(l)]; an empty argument is a [ValueError]. *)
Definition py_min (l : list Z) : result Z :=
  match l with
  | [] => Raise ValueError
  | x :: xs => Ok (fold_left Z.min xs x)
  end.

Definition py_max (l : list Z) : result Z :=
  match l with
  | [] => Raise ValueError
  | x :: xs => Ok (fold_left Z.max xs x)
  end.

(** [sum(l)]. *)
Definition sum (l : list Z) : Z := fold_left Z.add l 0.

(** [l.sort()] on integers: the ascending arrangement of [l]. *)
Fixpoint insert (x : Z) (l : list Z) : list Z :=
  match l with
  | [] => [x]
  | y :: ys => if x <=? y then x :: l else y :: insert x ys
  end.

Fixpoint sort (l : list Z) : list Z :=
  match l with
  | [] => []
  | x :: xs => insert x (sort xs)
  end.

(** [[f(x) for x in l]] where [f] may raise: the first exception ends
    the comprehension. *)
Fixpoint map_result {A B : Type} (f : A -> result B) (l : list A)
  : result (list B) :=
  match l with
  | [] => Ok []
  | x :: xs =>
      match f x with
      | Raise e => Raise e
      | Ok y =>
          match map_result f xs with
          | Raise e => Raise e
          | Ok ys => Ok (y :: ys)
          end
      end
  end.

(** Sequencing of computations that may raise. *)
Definition rbind {A B : Type} (r : result A) (f : A -> result B) : result B :=
  match r with
  | Ok a => f a
  | Raise e => Raise e
  end.

Notation "'let*' x ':=' r 'in' k" := (rbind r (fun x => k))
  (at level 10, x name, r at level 200, k at level 200).

(** ** Diagnostics and the checker monad *)

(** The three latency types of a report: the keys ['slat'], ['clat'] and
    ['lat'] of the source. *)
Inductive lat_type : Type := Slat | Clat | Lat.

(** One constructor per [print] of the checking functions, carrying the
    values the message is formatted from. *)
Inductive diag : Type :=
  | UnexpectedPercentiles (lat : lat_type)
  | PercentilesSkipped (lat : lat_type)
  | PercentilesNotFound (lat : lat_type)
  | BinsNotFound
  | BinsFound
  | TotalIosMismatch (lat : lat_type) (total_ios logged : Z)
  | PercentileError (lat : lat_type) (percentile : string)
                    (fio_val value : Z) (delta : float)
  | RankIndex (rank index : Z)
  | PercentilesMatch (lat : lat_type)
  | MinMismatch (reported smallest : Z)
  | MaxMismatch (reported biggest : Z)
  | SizeMismatch (reported sampsize : Z)
  | SyncNotFound
  | SyncSizeMismatch
  | SyncUnexpectedBins
  | TerseMismatch (pct : string) (json_ns json_val terse_val : Z).

(** A call prints diagnostics and then returns or raises. *)
Definition M (A : Type) : Type := (list diag * result A)%type.

Definition ret {A : Type} (a : A) : M A := ([], Ok a).

Definition bind {A B : Type} (m : M A) (f : A -> M B) : M B :=
  match m with
  | (out, Ok a) => let (out', r) := f a in (out ++ out', r)
  | (out, Raise e) => (out, Raise e)
  end.

Definition print (d : diag) : M unit := ([d], Ok tt).

Definition lift {A : Type} (r : result A) : M A := ([], r).

Notation "x <- m ;; k" := (bind m (fun x => k))
  (at level 61, m at next level, right associativity).
Notation "m ;; k" := (bind m (fun _ => k))
  (at level 61, right associativity).

(** A [for] loop that threads one variable through its iterations. *)
Fixpoint foldM {A S : Type} (f : S -> A -> M S) (s : S) (l : list A) : M S :=
  match l with
  | [] => ret s
  | x :: xs => s' <- f s x ;; foldM f s' xs
  end.

(** ** The report and the sample log *)

(** A per-latency-type object of the report ([jsondata['clat_ns']] and
    the like): [N], [min], [max], and the optional members ['percentile']
    and ['bins']. *)
Record lat_stats : Type := {
  js_N : Z;
  js_min : Z;
  js_max : Z;
  js_percentile : option dict;
  js_bins : option dict
}.

(** A per-direction section of the report. *)
Record ddir_stats : Type := {
  total_ios : Z;
  slat_ns : lat_stats;
  clat_ns : lat_stats;
  lat_ns : lat_stats
}.

(** [jsondata[lat+'_ns']]. *)
Definition stats_of (jsondata : ddir_stats) (lat : lat_type) : lat_stats :=
  match lat with
  | Slat => slat_ns jsondata
  | Clat => clat_ns jsondata
  | Lat => lat_ns jsondata
  end.

(** The ['sync'] section of the report. *)
Record sync_stats : Type := {
  sync_total_ios : Z;
  sync_lat_ns : lat_stats
}.

(** A record of a latency log, as [csv.reader] and [int] decode it:
    time, latency in nanoseconds, direction. The log is taken as already
    read: a missing file or a malformed record is outside the model. *)
Record log_line : Type := {
  log_time : Z;
  log_value : Z;
  log_ddir : Z
}.

(** ** The checking functions *)

(** [get_json], on the text read from the file. [json.loads] is a
    parameter: [Ok (Some document)] when the text decodes, [Ok None] for
    [json.JSONDecodeError], which the loop catches, and [Raise e] for any
    other exception of the decoder (a [ValueError] for an integer literal
    past the digit limit, a [RecursionError] for nesting too deep), which
    the [try] does not catch. The result is the pair the source returns,
    the document or the empty string. *)
Section GetJson.

Variable json : Type.
Variable json_loads : string -> result (option json).

Fixpoint get_json_loop (lines : list string) (offsets : list nat)
  : result (bool * (json + string)) :=
  match offsets with
  | [] => Ok (false, inr EmptyString)
  | i :: rest =>
      let file_data := join (String "010"%char EmptyString) (skipn i lines) in
      match json_loads file_data with
      | Raise e => Raise e
      | Ok None => get_json_loop lines rest
      | Ok (Some json_data) => Ok (true, inl json_data)
      end
  end.

Definition get_json (file_data : string) : result (bool * (json + string)) :=
  let lines := splitlines file_data in
  get_json_loop lines (seq 0 5).

End GetJson.

(** [similar]. *)
Definition similar (estimate actual : Z) : result bool :=
  let* delta := int_truediv (Z.abs (estimate - actual)) actual in
  let* bound := int_truediv 1 128 in
  Ok (fle delta bound).

(** [check_jsonplus]. *)
Definition check_jsonplus (jsondata : lat_stats) : M bool :=
  b <- lift (match js_bins jsondata with
             | Some b => Ok b
             | None => Raise KeyError
             end) ;;
  ks <- lift (map_result int_of_string (keys b)) ;;
  values <- lift (map_result (dict_get b) (keys b)) ;;
  smallest <- lift (py_min ks) ;;
  biggest <- lift (py_max ks) ;;
  let sampsize := sum values in
  ok_min <- lift (similar (js_min jsondata) smallest) ;;
  retval <- (if negb ok_min
             then print (MinMismatch (js_min jsondata) smallest) ;; ret false
             else ret true) ;;
  ok_max <- lift (similar (js_max jsondata) biggest) ;;
  retval <- (if negb ok_max
             then print (MaxMismatch (js_max jsondata) biggest) ;; ret false
             else ret retval) ;;
  retval <- (if negb (sampsize =? js_N jsondata)
             then print (SizeMismatch (js_N jsondata) sampsize) ;; ret false
             else ret retval) ;;
  ret retval.

(** [check_sync_lat]. *)
Definition check_sync_lat (jsondata : sync_stats) (plus : bool) : M bool :=
  match js_percentile (sync_lat_ns jsondata) with
  | None => print SyncNotFound ;; ret false
  | Some _ =>
      retval <- (if negb (sync_total_ios jsondata =? js_N (sync_lat_ns jsondata))
                 then print SyncSizeMismatch ;; ret false
                 else ret true) ;;
      match negb plus, js_bins (sync_lat_ns jsondata) with
      | true, Some _ => print SyncUnexpectedBins ;; ret false
      | _, _ =>
          ok <- check_jsonplus (sync_lat_ns jsondata) ;;
          ret (if ok then retval else false)
      end
  end.

(** [check_terse]: the body of the loop, then the loop. *)
Definition check_terse_field (jsondata : dict) (retval : bool) (lat : string)
  : M bool :=
  let parts := split "%"%char lat in
  let pct := hd EmptyString parts in
  field <- lift (match nth_error parts 1 with
                 | Some f => Ok f
                 | None => Raise IndexError
                 end) ;;
  terse_val <- lift (int_of_string (drop_first field)) ;;
  json_ns <- lift (dict_get jsondata pct) ;;
  json_val <- lift (let* us := int_truediv json_ns 1000 in floor us) ;;
  if negb (terse_val =? json_val)
  then print (TerseMismatch pct json_ns json_val terse_val) ;; ret false
  else ret retval.

Definition check_terse (terse : list string) (jsondata : dict) : M bool :=
  foldM (check_terse_field jsondata) true terse.

(** The reference percentile of [check_latencies] (lines 278 to 283):
    the rank, the index and the sample at that index. *)
Definition percentile_rank (percentile : string) (n : nat) : result Z :=
  let* p := float_of_string percentile in
  let* fraction := fdiv_int p 100 in
  let* scaled_rank := fmul_int fraction (Z.of_nat n) in
  ceil scaled_rank.

Definition percentile_index (rank : Z) : Z :=
  if rank >? 0 then rank - 1 else 0.

Definition reference (latencies : list Z) (percentile : string) : result Z :=
  let* rank := percentile_rank percentile (List.length latencies) in
  list_index latencies (percentile_index rank).

(** The body of the loop over the reported percentiles. *)
Definition check_percentile (lat : lat_type) (latencies : list Z)
  (ptiles : dict) (this_iter : bool) (percentile : string) : M bool :=
  rank <- lift (percentile_rank percentile (List.length latencies)) ;;
  let index := percentile_index rank in
  value <- lift (list_index latencies index) ;;
  fio_val <- lift (dict_get ptiles percentile) ;;
  delta <- lift (int_truediv (Z.abs (fio_val - value)) value) ;;
  ok <- lift (similar fio_val value) ;;
  if negb ok
  then print (PercentileError lat percentile fio_val value delta) ;;
       print (RankIndex rank index) ;;
       ret false
  else ret this_iter.

(** The samples of a log that belong to direction [ddir] (all of them
    under unified reporting). *)
Definition load_latencies (log : list log_line) (ddir : Z) (unified : bool)
  : list Z :=
  map log_value (filter (fun line => unified || (log_ddir line =? ddir)) log).

(** [types[lat]]. *)
Definition types (slat clat tlat : bool) (lat : lat_type) : bool :=
  match lat with
  | Slat => slat
  | Clat => clat
  | Lat => tlat
  end.

(** The stages of one iteration of [check_latencies] for an enabled
    latency type, each returning the new value of [this_iter]. *)

(** Lines 225 to 227: the percentiles must be present. *)
Definition presence_gate (lat : lat_type) (js : lat_stats) : M bool :=
  match js_percentile js with
  | None => print (PercentilesNotFound lat) ;; ret false
  | Some _ => ret true
  end.

(** Lines 240 to 250: the bins must be present with json+ and absent
    without. *)
Definition bins_gate (js : lat_stats) (plus : bool) (this_iter : bool)
  : M bool :=
  if plus then
    match js_bins js with
    | None => print BinsNotFound ;; ret false
    | Some _ =>
        ok <- check_jsonplus js ;;
        ret (if ok then this_iter else false)
    end
  else
    match js_bins js with
    | Some _ => print BinsFound ;; ret false
    | None => ret this_iter
    end.

(** Lines 260 to 263: the report and the log must count the same
    number of samples. *)
Definition count_check (lat : lat_type) (jsondata : ddir_stats)
  (latencies : list Z) (this_iter : bool) : M bool :=
  let logged := Z.of_nat (List.length latencies) in
  if negb (total_ios jsondata =? logged)
  then print (TotalIosMismatch lat (total_ios jsondata) logged) ;; ret false
  else ret this_iter.

(** Lines 265 to 293: every reported percentile against its reference. *)
Definition percentile_checks (lat : lat_type) (js : lat_stats)
  (latencies : list Z) (this_iter : bool) : M bool :=
  let latencies := sort latencies in
  ptiles <- lift (match js_percentile js with
                  | Some p => Ok p
                  | None => Raise KeyError
                  end) ;;
  foldM (check_percentile lat latencies ptiles) this_iter (keys ptiles).

(** [check_latencies]: one iteration of the loop over the latency types,
    then the loop. [logs lat] is the content of the latency log of type
    [lat]. For a disabled type the iteration ends in [continue], which
    leaves [retval] as it was. *)
Definition check_latency_type (logs : lat_type -> list log_line)
  (jsondata : ddir_stats) (ddir : Z) (slat clat tlat plus unified : bool)
  (retval : bool) (lat : lat_type) : M bool :=
  let js := stats_of jsondata lat in
  if negb (types slat clat tlat lat) then
    match js_percentile js with
    | Some _ => print (UnexpectedPercentiles lat) ;; ret retval
    | None => print (PercentilesSkipped lat) ;; ret retval
    end
  else
    this_iter <- presence_gate lat js ;;
    this_iter <- bins_gate js plus this_iter ;;
    let latencies := load_latencies (logs lat) ddir unified in
    this_iter <- count_check lat jsondata latencies this_iter ;;
    this_iter <- percentile_checks lat js latencies this_iter ;;
    if this_iter then print (PercentilesMatch lat) ;; ret retval
    else ret false.

Definition check_latencies (logs : lat_type -> list log_line)
  (jsondata : ddir_stats) (ddir : Z) (slat clat tlat plus unified : bool)
  : M bool :=
  foldM (check_latency_type logs jsondata ddir slat clat tlat plus unified)
        true [Slat; Clat; Lat].


(** ** The specification's formulas

    The definitions below follow the words of the specification, in
    exact arithmetic, to be compared with the functions above. *)

(** "rank = ceil(p/100 * n)". *)
Definition spec_rank (p : Q) (n : nat) : Z :=
  Qceiling (p / 100 * inject_Z (Z.of_nat n)).

(** "sort samples ascending; index = max(rank - 1, 0); return
    samples[index]". *)
Definition spec_estimate (samples : list Z) (p : Q) : Z :=
  nth (Z.to_nat (Z.max (spec_rank p (List.length samples) - 1) 0))
      (sort samples) 0.

(** "relative_error = |estimate - actual| / actual" is at most 1/128. *)
Definition within_tolerance (estimate actual : Z) : Prop :=
  (Qabs (inject_Z estimate - inject_Z actual) / inject_Z actual <= 1 # 128)%Q.

(** "floor(structured_value_ns / 1000)". *)
Definition spec_microseconds (structured_value_ns : Z) : Z :=
  structured_value_ns / 1000.

(** A condensed field "<percentile-label>%=<value>" whose label is a key
    of the structured report. *)
Definition terse_field (jsondata : dict) (field : string)
  (terse_val json_ns : Z) : Prop :=
  exists pct digits,
    field = (pct ++ "%=" ++ digits)%string /\
    split "%"%char pct = [pct] /\
    int_of_string digits = Ok terse_val /\
    dict_get jsondata pct = Ok json_ns.

(** "decoding starting at each successive line offset": the text that
    remains after [i] lines, a line ending at a line boundary. *)
Fixpoint remaining_text (s : string) (i : nat) {struct s} : string :=
  match i with
  | O => s
  | S i' =>
      match s with
      | EmptyString => EmptyString
      | String c rest =>
          if is_linebreak c then
            match rest with
            | String c2 rest2 =>
                if (code c =? 13) && (code c2 =? 10)
                then remaining_text rest2 i'
                else remaining_text rest i'
            | EmptyString => EmptyString
            end
          else remaining_text rest (S i')
      end
  end.

(** A text with every line boundary written as one line feed. *)
Fixpoint unix_text (s : string) : string :=
  match s with
  | EmptyString => EmptyString
  | String c rest =>
      if is_linebreak c then
        String "010"%char
          match rest with
          | String c2 rest2 =>
              if (code c =? 13) && (code c2 =? 10) then unix_text rest2
              else unix_text rest
          | EmptyString => EmptyString
          end
      else String c (unix_text rest)
  end.

(** A text without its final line feed, if it ends in one. *)
Fixpoint chomp (s : string) : string :=
  match s with
  | EmptyString => EmptyString
  | String c rest =>
      match rest with
      | EmptyString => if code c =? 10 then EmptyString else String c EmptyString
      | String _ _ => String c (chomp rest)
      end
  end.

(** The text that is handed to the decoder at line offset [i]: what
    remains of the file after [i] lines, each line boundary written as
    a line feed, without the final one. *)
Definition decoded_text (s : string) (i : nat) : string :=
  chomp (unix_text (remaining_text s i)).

(** A text whose only line boundaries are line feeds. *)
Fixpoint lf_only (s : string) : bool :=
  match s with
  | EmptyString => true
  | String c rest => (negb (is_linebreak c) || (code c =? 10)) && lf_only rest
  end.

(** ** Verdicts and well-formed inputs *)

(** A computation whose verdict, if any, is [False]. *)
Definition fails (m : M bool) : Prop :=
  snd m = Ok false \/ exists e, snd m = Raise e.

(** Samples the percentile checks can run on: at least one, fewer than
    [2^53], each a positive number of nanoseconds that a float can hold. *)
Definition samples_ok (latencies : list Z) : Prop :=
  latencies <> [] /\ Z.of_nat (List.length latencies) < 2 ^ 53 /\
  Forall (fun s => 0 < s <= 2 ^ 1022) latencies.

(** A percentile mapping whose labels are decimal numerals in [0, 100]
    and whose values a float can hold. *)
Definition ptiles_ok (ptiles : dict) : Prop :=
  Forall (fun kv =>
            (exists p, decimal_of_string (fst kv) = Some p /\
                       (0 <= p <= 100)%Q) /\
            Z.abs (snd kv) <= 2 ^ 1022) ptiles.

(** A histogram [check_jsonplus] can run on: present, not empty, with
    positive integer keys, next to a [min] and a [max] a float can hold. *)
Definition bins_ok (js : lat_stats) : Prop :=
  exists b ks,
    js_bins js = Some b /\ map_result int_of_string (keys b) = Ok ks /\
    ks <> [] /\ Forall (fun k => 0 < k <= 2 ^ 1022) ks /\
    Z.abs (js_min js) <= 2 ^ 1022 /\ Z.abs (js_max js) <= 2 ^ 1022.

(** An enabled latency type the whole iteration can run on. *)
Definition type_ok (logs : lat_type -> list log_line) (jsondata : ddir_stats)
  (ddir : Z) (plus unified : bool) (lat : lat_type) : Prop :=
  (exists ptiles, js_percentile (stats_of jsondata lat) = Some ptiles /\
                  ptiles_ok ptiles) /\
  samples_ok (load_latencies (logs lat) ddir unified) /\
  (plus = true -> js_bins (stats_of jsondata lat) <> None ->
   bins_ok (stats_of jsondata lat)).

(** ** Example inputs *)

(** A decoder for the examples below. It knows two documents, as
    [json.loads] reads them: the empty object, with JSON white space
    (space, tab, line feed, carriage return) inside and after it, and a
    string of characters from the space on, without quote or backslash. *)
Definition is_json_space (c : ascii) : bool :=
  let n := code c in (n =? 32) || (n =? 9) || (n =? 10) || (n =? 13).

Fixpoint all_space (s : string) : bool :=
  match s with
  | EmptyString => true
  | String c rest => is_json_space c && all_space rest
  end.

Fixpoint object_tail (s : string) : bool :=
  match s with
  | EmptyString => false
  | String c rest =>
      if code c =? 125 then all_space rest
      else is_json_space c && object_tail rest
  end.

Fixpoint string_tail (s : string) : bool :=
  match s with
  | EmptyString => false
  | String c rest =>
      if code c =? 34 then all_space rest
      else (32 <=? code c) && negb (code c =? 92) && string_tail rest
  end.

Definition toy_loads (s : string) : result (option unit) :=
  match s with
  | String c rest =>
      if code c =? 123 then Ok (if object_tail rest then Some tt else None)
      else if code c =? 34 then Ok (if string_tail rest then Some tt else None)
      else Ok None
  | EmptyString => Ok None
  end.

(** Scenario B of the specification: the histogram [{100:5, 200:3,
    300:2}] with [min = 100] and [max = 300]. *)
Definition scenario_B (n : Z) : lat_stats :=
  {| js_N := n; js_min := 100; js_max := 300; js_percentile := None;
     js_bins := Some [("100"%string, 5); ("200"%string, 3); ("300"%string, 2)] |}.

(** A latency log with three reads (30, 10 and 20 ns) and one write. *)
Definition example_log : list log_line :=
  [ {| log_time := 1; log_value := 30; log_ddir := 0 |};
    {| log_time := 2; log_value := 10; log_ddir := 0 |};
    {| log_time := 3; log_value := 20; log_ddir := 0 |};
    {| log_time := 4; log_value := 99; log_ddir := 1 |} ].

Definition example_logs (lat : lat_type) : list log_line := example_log.

(** Statistics that agree with the reads of [example_log]. *)
Definition stats_with (ptiles bins : option dict) : lat_stats :=
  {| js_N := 3; js_min := 10; js_max := 30;
     js_percentile := ptiles; js_bins := bins |}.

Definition example_ptiles : dict :=
  [("50.000000"%string, 20); ("100.000000"%string, 30)].

Definition example_bins : dict :=
  [("10"%string, 1); ("20"%string, 1); ("30"%string, 1)].

Definition good_stats : lat_stats := stats_with (Some example_ptiles) None.

Definition report (n : Z) (s c l : lat_stats) : ddir_stats :=
  {| total_ios := n; slat_ns := s; clat_ns := c; lat_ns := l |}.

(** ** The rest of the script: the terse parser, the tests and the tally *)

(** [get_terse], on the text read from the file: the first of the first
    eight lines that begins with ['3;fio-'], split at [';']. The loop
    indexes [lines[i]] without looking at the number of lines, so a text
    of fewer than eight lines without such a line raises [IndexError]. *)
Fixpoint get_terse_loop (lines : list string) (offsets : list nat)
  : result (bool * (list string + string)) :=
  match offsets with
  | [] => Ok (false, inr EmptyString)
  | i :: rest =>
      match nth_error lines i with
      | None => Raise IndexError
      | Some file_data =>
          if String.prefix "3;fio-" file_data
          then Ok (true, inl (split ";"%char file_data))
          else get_terse_loop lines rest
      end
  end.

Definition get_terse (file_data : string)
  : result (bool * (list string + string)) :=
  let lines := splitlines file_data in
  get_terse_loop lines (seq 0 8).

(** [check_empty]. *)
Definition check_empty (job : ddir_stats) : bool :=
  (total_ios job =? 0) && (js_N (slat_ns job) =? 0) &&
  (js_N (clat_ns job) =? 0) && (js_N (lat_ns job) =? 0).

(** The per-direction sections of a job, ['read'], ['write'] and
    ['trim']. *)
Inductive section_name : Type := DirRead | DirWrite | DirTrim.

(** A job of the report: each section may be missing. *)
Record job : Type := {
  job_read : option ddir_stats;
  job_write : option ddir_stats;
  job_trim : option ddir_stats;
  job_mixed : option ddir_stats;
  job_sync : option sync_stats
}.

(** The decoded report: an object whose ['jobs'] member is a list. *)
Record document : Type := {
  jobs : option (list job)
}.

(** What a test function returns: a [bool], or on a decoding failure
    the pair of [False] and a message. *)
Inductive pyvalue : Type :=
  | PyBool (b : bool)
  | PyTuple (status : bool) (message : string).

(** The truth value Python gives it in [if status]: a pair is not
    empty, hence true. *)
Definition truthy (v : pyvalue) : bool :=
  match v with
  | PyBool b => b
  | PyTuple _ _ => true
  end.

(** What the test functions and [main] print: the lines of the checking
    functions and their own. *)
Inductive line : Type :=
  | Diag (d : diag)
  | UnexpectedData (dir : section_name)
  | UnexpectedDirection
  | SyncError
  | TestOutcome (test_id : Z) (passed : bool)
  | Summary (passed failed : Z).

(** The same monad as [M], over these lines. *)
Definition T (A : Type) : Type := (list line * result A)%type.

Definition tret {A : Type} (a : A) : T A := ([], Ok a).

Definition tbind {A B : Type} (m : T A) (f : A -> T B) : T B :=
  match m with
  | (out, Ok a) => let (out', r) := f a in (out ++ out', r)
  | (out, Raise e) => (out, Raise e)
  end.

Definition tprint (l : line) : T unit := ([l], Ok tt).

Definition tlift {A : Type} (r : result A) : T A := ([], r).

(** A call of a checking function from a test function. *)
Definition call {A : Type} (m : M A) : T A := (map Diag (fst m), snd m).

Notation "x <~ m ;; k" := (tbind m (fun x => k))
  (at level 61, m at next level, right associativity).
Notation "m ~;; k" := (tbind m (fun _ => k))
  (at level 61, right associativity).

(** [job[dir]]. *)
Definition job_section (j : job) (dir : section_name) : result ddir_stats :=
  match match dir with
        | DirRead => job_read j
        | DirWrite => job_write j
        | DirTrim => job_trim j
        end with
  | Some s => Ok s
  | None => Raise KeyError
  end.

(** [json_data['jobs'][0]]. *)
Definition first_job (json_data : document) : result job :=
  match jobs json_data with
  | None => Raise KeyError
  | Some [] => Raise IndexError
  | Some (j :: _) => Ok j
  end.

(** The steps the test functions repeat. *)

(** [if not check_empty(job[dir]): print(...); retval = False]. *)
Definition expect_empty (j : job) (dir : section_name) (retval : bool)
  : T bool :=
  s <~ tlift (job_section j dir) ;;
  if negb (check_empty s) then tprint (UnexpectedData dir) ~;; tret false
  else tret retval.

(** [retval &= check_latencies(test_dir, filename, jsondata, ddir, ...)]. *)
Definition and_latencies (logs : lat_type -> list log_line)
  (jsondata : ddir_stats) (ddir : Z) (slat clat tlat plus unified : bool)
  (retval : bool) : T bool :=
  ok <~ call (check_latencies logs jsondata ddir slat clat tlat plus unified) ;;
  tret (retval && ok).

(** [terse[a:b]]. *)
Definition slice {A : Type} (a b : nat) (l : list A) : list A :=
  firstn (b - a) (skipn a l).

(** [retval &= check_terse(terse[a:b], job[dir][lat+'_ns']['percentile'])]. *)
Definition and_terse (terse : list string) (a b : nat) (j : job)
  (dir : section_name) (lat : lat_type) (retval : bool) : T bool :=
  s <~ tlift (job_section j dir) ;;
  ptiles <~ tlift (match js_percentile (stats_of s lat) with
                   | Some p => Ok p
                   | None => Raise KeyError
                   end) ;;
  ok <~ call (check_terse (slice a b terse) ptiles) ;;
  tret (retval && ok).

(** A [for] loop of [main], as [foldM]. *)
Fixpoint tfoldM {A S : Type} (f : S -> A -> T S) (s : S) (l : list A) : T S :=
  match l with
  | [] => tret s
  | x :: xs => s' <~ f s x ;; tfoldM f s' xs
  end.

(** The test functions. [json.loads] is a parameter, as for [get_json];
    a test function is given the text of the output file and the
    latency logs of its test directory. *)
Section Tests.

Variable json_loads : string -> result (option document).

(** The opening of every test function: decode the report, give up with
    a pair if that fails, take the first job. ([get_json] returns a
    document with [True] and only then; an exception it lets through
    leaves the test function as well.) *)
Definition with_job (output : string) (body : job -> T pyvalue) : T pyvalue :=
  decoded <~ tlift (get_json document json_loads output) ;;
  match decoded with
  | (true, inl json_data) =>
      j <~ tlift (first_job json_data) ;;
      body j
  | _ => tret (PyTuple false "could not decode JSON data")
  end.

(** [check_t001] to [check_t006]: two sections must be empty, the third
    is checked against its log. *)
Definition check_t001 (output : string) (logs : lat_type -> list log_line)
  : T pyvalue :=
  with_job output (fun j =>
    retval <~ expect_empty j DirWrite true ;;
    retval <~ expect_empty j DirTrim retval ;;
    s <~ tlift (job_section j DirRead) ;;
    retval <~ and_latencies logs s 0 false true true false false retval ;;
    tret (PyBool retval)).

Definition check_t002 (output : string) (logs : lat_type -> list log_line)
  : T pyvalue :=
  with_job output (fun j =>
    retval <~ expect_empty j DirRead true ;;
    retval <~ expect_empty j DirTrim retval ;;
    s <~ tlift (job_section j DirWrite) ;;
    retval <~ and_latencies logs s 1 false false true false false retval ;;
    tret (PyBool retval)).

Definition check_t003 (output : string) (logs : lat_type -> list log_line)
  : T pyvalue :=
  with_job output (fun j =>
    retval <~ expect_empty j DirRead true ;;
    retval <~ expect_empty j DirWrite retval ;;
    s <~ tlift (job_section j DirTrim) ;;
    retval <~ and_latencies logs s 2 false true false false false retval ;;
    tret (PyBool retval)).

Definition check_t004 (output : string) (logs : lat_type -> list log_line)
  : T pyvalue :=
  with_job output (fun j =>
    retval <~ expect_empty j DirWrite true ;;
    retval <~ expect_empty j DirTrim retval ;;
    s <~ tlift (job_section j DirRead) ;;
    retval <~ and_latencies logs s 0 true true true true false retval ;;
    tret (PyBool retval)).

Definition check_t005 (output : string) (logs : lat_type -> list log_line)
  : T pyvalue :=
  with_job output (fun j =>
    retval <~ expect_empty j DirRead true ;;
    retval <~ expect_empty j DirTrim retval ;;
    s <~ tlift (job_section j DirWrite) ;;
    retval <~ and_latencies logs s 1 false true true true false retval ;;
    tret (PyBool retval)).

Definition check_t006 (output : string) (logs : lat_type -> list log_line)
  : T pyvalue :=
  with_job output (fun j =>
    retval <~ expect_empty j DirWrite true ;;
    retval <~ expect_empty j DirTrim retval ;;
    s <~ tlift (job_section j DirRead) ;;
    retval <~ and_latencies logs s 0 false true false true false retval ;;
    tret (PyBool retval)).

(** [check_t007]: submission latency only, for reads and for writes. *)
Definition check_t007 (output : string) (logs : lat_type -> list log_line)
  : T pyvalue :=
  with_job output (fun j =>
    retval <~ expect_empty j DirTrim true ;;
    r <~ tlift (job_section j DirRead) ;;
    retval <~ and_latencies logs r 0 true false false true false retval ;;
    w <~ tlift (job_section j DirWrite) ;;
    retval <~ and_latencies logs w 1 true false false true false retval ;;
    tret (PyBool retval)).

(** [check_t008]: unified reporting, no per-direction section. *)
Definition check_t008 (output : string) (logs : lat_type -> list log_line)
  : T pyvalue :=
  with_job output (fun j =>
    retval <~ (match job_read j, job_write j, job_trim j with
               | None, None, None => tret true
               | _, _, _ => tprint UnexpectedDirection ~;; tret false
               end) ;;
    m <~ tlift (match job_mixed j with
                | Some s => Ok s
                | None => Raise KeyError
                end) ;;
    retval <~ and_latencies logs m 0 true true true true true retval ;;
    tret (PyBool retval)).

(** [check_t009]: writes with fsync. *)
Definition check_t009 (output : string) (logs : lat_type -> list log_line)
  : T pyvalue :=
  with_job output (fun j =>
    retval <~ expect_empty j DirRead true ;;
    retval <~ expect_empty j DirTrim retval ;;
    sync <~ tlift (match job_sync j with
                   | Some s => Ok s
                   | None => Raise KeyError
                   end) ;;
    ok <~ call (check_sync_lat sync true) ;;
    retval <~ (if negb ok then tprint SyncError ~;; tret false
               else tret retval) ;;
    w <~ tlift (job_section j DirWrite) ;;
    retval <~ and_latencies logs w 1 false true true true false retval ;;
    tret (PyBool retval)).

(** The second opening of [check_t010] and [check_t011]: find the terse
    line in the same output, or give up with a pair. *)
Definition with_terse (output : string) (body : list string -> T pyvalue)
  : T pyvalue :=
  found <~ tlift (get_terse output) ;;
  match found with
  | (true, inl terse) => body terse
  | _ => tret (PyTuple false "could not decode terse data")
  end.

(** [check_t010] and [check_t011]: the percentiles of the terse line
    against those of the json+ report. *)
Definition check_t010 (output : string) (logs : lat_type -> list log_line)
  : T pyvalue :=
  with_job output (fun j =>
    with_terse output (fun terse =>
      retval <~ expect_empty j DirTrim true ;;
      r <~ tlift (job_section j DirRead) ;;
      retval <~ and_latencies logs r 0 true true true true false retval ;;
      w <~ tlift (job_section j DirWrite) ;;
      retval <~ and_latencies logs w 1 true true true true false retval ;;
      retval <~ and_terse terse 17 34 j DirRead Clat retval ;;
      retval <~ and_terse terse 58 75 j DirWrite Clat retval ;;
      tret (PyBool retval))).

Definition check_t011 (output : string) (logs : lat_type -> list log_line)
  : T pyvalue :=
  with_job output (fun j =>
    with_terse output (fun terse =>
      retval <~ expect_empty j DirTrim true ;;
      r <~ tlift (job_section j DirRead) ;;
      retval <~ and_latencies logs r 0 false false true true false retval ;;
      w <~ tlift (job_section j DirWrite) ;;
      retval <~ and_latencies logs w 1 false false true true false retval ;;
      retval <~ and_terse terse 17 34 j DirRead Lat retval ;;
      retval <~ and_terse terse 58 75 j DirWrite Lat retval ;;
      tret (PyBool retval))).

(** An entry of the table of tests of [main]: its number and its test
    function (the other members only parametrise the run of fio). *)
Record test : Type := {
  test_id : Z;
  check : string -> (lat_type -> list log_line) -> T pyvalue
}.

Definition tests : list test :=
  [ {| test_id := 1; check := check_t001 |};
    {| test_id := 2; check := check_t002 |};
    {| test_id := 3; check := check_t003 |};
    {| test_id := 4; check := check_t004 |};
    {| test_id := 5; check := check_t005 |};
    {| test_id := 6; check := check_t006 |};
    {| test_id := 7; check := check_t007 |};
    {| test_id := 8; check := check_t008 |};
    {| test_id := 9; check := check_t009 |};
    {| test_id := 10; check := check_t010 |};
    {| test_id := 11; check := check_t011 |} ].

(** The loop of [main] over the tests and the tally. [run_fio] is a
    parameter: for a test it gives the status of the run, the text of
    the output file and the latency logs. The result is the argument
    of [sys.exit]. *)
Variable run_fio : Z -> bool * string * (lat_type -> list log_line).

(** The value of [status] after the test function, if it is called. *)
Definition test_status (t : test) : T pyvalue :=
  let '(status, output, logs) := run_fio (test_id t) in
  if status then check t output logs else tret (PyBool status).

Definition run_test (counts : Z * Z) (t : test) : T (Z * Z) :=
  status <~ test_status t ;;
  tprint (TestOutcome (test_id t) (truthy status)) ~;;
  tret (if truthy status then (fst counts + 1, snd counts)
        else (fst counts, snd counts + 1)).

Definition main_loop (l : list test) : T Z :=
  counts <~ tfoldM run_test (0, 0) l ;;
  tprint (Summary (fst counts) (snd counts)) ~;;
  tret (snd counts).

(** Lines 916 to 932 of [main]: the loop over the table and the exit
    status. What comes before (the arguments, the artifact directory,
    the path of fio) is not modelled. *)
Definition main_tally : T Z := main_loop tests.

End Tests.

(** ** What a pass means *)

(** An enabled latency type passes: its percentiles are present, the
    report counts as many samples as the log, the bins are there under
    json+ and consistent, or absent without json+, and every reported
    percentile is similar to its reference. *)
Definition type_passes (logs : lat_type -> list log_line)
  (jsondata : ddir_stats) (ddir : Z) (plus unified : bool) (lat : lat_type)
  : Prop :=
  let js := stats_of jsondata lat in
  let latencies := load_latencies (logs lat) ddir unified in
  exists ptiles,
    js_percentile js = Some ptiles /\
    total_ios jsondata = Z.of_nat (List.length latencies) /\
    (if plus then js_bins js <> None /\ snd (check_jsonplus js) = Ok true
     else js_bins js = None) /\
    Forall (fun pct =>
              exists value fio_val,
                reference (sort latencies) pct = Ok value /\
                dict_get ptiles pct = Ok fio_val /\
                similar fio_val value = Ok true) (keys ptiles).

(** ** What the tally counts *)

(** A test that [main] counts as failed: fio failed, or the test function
    returned a false value. *)
Definition counted_failed
  (run_fio : Z -> bool * string * (lat_type -> list log_line)) (t : test)
  : bool :=
  match snd (test_status run_fio t) with
  | Ok status => negb (truthy status)
  | Raise _ => false
  end.

(** A test function that does not return [True]: it returns [False] or
    a pair, or raises. *)
Definition never_true (m : T pyvalue) : Prop :=
  forall v, snd m = Ok v -> v <> PyBool true.

(** What [True] from one of the single-direction tests [check_t001] to
    [check_t006] takes: the sections [e1] and [e2] are empty and every
    enabled latency type of the section [dir] passes against the log. *)
Definition single_direction_pass (logs : lat_type -> list log_line) (j : job)
  (e1 e2 dir : section_name) (ddir : Z) (slat clat tlat plus : bool) : Prop :=
  exists s1 s2 s,
    job_section j e1 = Ok s1 /\ check_empty s1 = true /\
    job_section j e2 = Ok s2 /\ check_empty s2 = true /\
    job_section j dir = Ok s /\
    forall lat, types slat clat tlat lat = true ->
                type_passes logs s ddir plus false lat.

(** ** Example reports *)

(** A section without data, a job that only read (the three reads of
    [example_log], with completion and total latency percentiles), and
    the document and the decoder that hold such a job. *)
Definition no_stats : lat_stats :=
  {| js_N := 0; js_min := 0; js_max := 0;
     js_percentile := None; js_bins := None |}.

Definition empty_section : ddir_stats := report 0 no_stats no_stats no_stats.

Definition read_job : job :=
  {| job_read := Some (report 3 no_stats good_stats good_stats);
     job_write := Some empty_section;
     job_trim := Some empty_section;
     job_mixed := None;
     job_sync := None |}.

Definition loads_job (j : job) (s : string) : result (option document) :=
  Ok (Some {| jobs := Some [j] |}).

(** ** What the other tests ask of a job *)

(** The section [dir] is there and empty. *)
Definition section_empty (j : job) (dir : section_name) : Prop :=
  exists s, job_section j dir = Ok s /\ check_empty s = true.

(** The section [dir] is there and every enabled latency type of it
    passes against the samples of direction [ddir]. *)
Definition section_passes (logs : lat_type -> list log_line) (j : job)
  (dir : section_name) (ddir : Z) (slat clat tlat plus : bool) : Prop :=
  exists s,
    job_section j dir = Ok s /\
    forall lat, types slat clat tlat lat = true ->
                type_passes logs s ddir plus false lat.

(** The ['sync'] section is there with percentiles, counts as many
    operations as its samples, and its bins are consistent. *)
Definition sync_passes (j : job) : Prop :=
  exists sync ptiles,
    job_sync j = Some sync /\
    js_percentile (sync_lat_ns sync) = Some ptiles /\
    sync_total_ios sync = js_N (sync_lat_ns sync) /\
    snd (check_jsonplus (sync_lat_ns sync)) = Ok true.

(** The fields [a] to [b - 1] of the terse line agree with the
    percentiles of latency type [lat] in the section [dir]. *)
Definition terse_passes (terse : list string) (a b : nat) (j : job)
  (dir : section_name) (lat : lat_type) : Prop :=
  exists s ptiles,
    job_section j dir = Ok s /\
    js_percentile (stats_of s lat) = Some ptiles /\
    snd (check_terse (slice a b terse) ptiles) = Ok true.

(** ** Verdicts and what is printed *)

(** The lines that report a mismatch: all but the three that
    [check_latencies] prints for a latency type it found as expected,
    skipped, or unexpectedly present. *)
Definition is_mismatch (d : diag) : bool :=
  match d with
  | PercentilesMatch _ | PercentilesSkipped _ | UnexpectedPercentiles _ =>
      false
  | _ => true
  end.

(** A computation that starts from the flag [start], whose verdict is
    combined with [retval], and that, when it returns, returns [True]
    exactly when both were [True] and it printed no mismatch. *)
Definition explained (m : M bool) (start retval : bool) : Prop :=
  forall out b,
    m = (out, Ok b) ->
    b = retval && (start && negb (existsb is_mismatch out)).

(** ** What one percentile comparison reports *)


(** ** Facts about binary64 rounding *)

Lemma pow2_pos k : (0 < pow2 k)%Q.
Proof. apply Qpower_0_lt. reflexivity. Qed.

Lemma pow2_add a b : (pow2 (a + b) == pow2 a * pow2 b)%Q.
Proof. apply Qpower_plus. discriminate. Qed.

Lemma pow2_le a b : a <= b -> (pow2 a <= pow2 b)%Q.
Proof. intros H. apply Qpower_le_compat_l; [exact H | discriminate]. Qed.

Lemma pow2_lt a b : a < b -> (pow2 a < pow2 b)%Q.
Proof. intros H. apply Qpower_lt_compat_l; [exact H | reflexivity]. Qed.

Lemma pow2_lt_inv a b : (pow2 a < pow2 b)%Q -> a < b.
Proof. intros H. apply (Qpower_lt_compat_l_inv 2); [exact H | reflexivity]. Qed.

Lemma pow2_Z k : 0 <= k -> (pow2 k == inject_Z (2 ^ k))%Q.
Proof. intros H. unfold pow2. rewrite Zpower_Qpower by exact H. reflexivity. Qed.

Lemma pow2_opp k : (pow2 (- k) * pow2 k == 1)%Q.
Proof.
  rewrite <- pow2_add. replace (- k + k) with 0 by lia. reflexivity.
Qed.

(** *** Rounding to the nearest integer *)

Lemma rne_lower n d k : 0 < d -> k * d <= n -> k <= rne n d.
Proof.
  intros Hd Hk. unfold rne.
  pose proof (Z.div_mod n d ltac:(lia)) as E.
  pose proof (Z.mod_pos_bound n d Hd) as B.
  assert (k <= n / d) by nia.
  destruct (2 * (n mod d) ?= d); [destruct (Z.even (n / d)) | |]; lia.
Qed.

Lemma rne_upper n d k : 0 < d -> n <= k * d -> rne n d <= k.
Proof.
  intros Hd Hk. unfold rne.
  pose proof (Z.div_mod n d ltac:(lia)) as E.
  pose proof (Z.mod_pos_bound n d Hd) as B.
  assert (n / d <= k) by nia.
  destruct (Z.compare_spec (2 * (n mod d)) d) as [C | C | C].
  - assert (n / d < k) by nia. destruct (Z.even (n / d)); lia.
  - lia.
  - assert (n / d < k) by nia. lia.
Qed.

Lemma rne_error n d : 0 < d -> 2 * Z.abs (rne n d * d - n) <= d.
Proof.
  intros Hd. unfold rne.
  pose proof (Z.div_mod n d ltac:(lia)) as E.
  pose proof (Z.mod_pos_bound n d Hd) as B.
  destruct (Z.compare_spec (2 * (n mod d)) d) as [C | C | C];
    [destruct (Z.even (n / d)) | |]; nia.
Qed.

(** *** Scaling by a power of two, then rounding *)

Lemma pow2_neg_inv e : e < 0 -> (pow2 e * inject_Z (2 ^ (- e)) == 1)%Q.
Proof.
  intros H. rewrite <- pow2_Z by lia. rewrite Qmult_comm. apply pow2_opp.
Qed.

Lemma Z_pow2_pos k : 0 <= k -> 0 < 2 ^ k.
Proof. intros H. apply Z.pow_pos_nonneg; lia. Qed.

Lemma inject_Z_pos d : 0 < d -> (0 < inject_Z d)%Q.
Proof. intros H. unfold Qlt. simpl. lia. Qed.

(** [x / 2^e] with integer numerator and denominator. *)
Lemma scaled_frac x e :
  exists n d, 0 < d /\ scaled x e = rne n d /\
              (inject_Z n == x * pow2 (- e) * inject_Z d)%Q.
Proof.
  destruct x as [n d]. unfold scaled. cbn [Qnum Qden].
  destruct (Z.leb_spec 0 e) as [He | He].
  - exists n, (Zpos d * 2 ^ e). pose proof (Z_pow2_pos e He).
    split; [nia |]. split; [reflexivity |].
    rewrite inject_Z_mult, <- (pow2_Z e He).
    rewrite (Qmake_Qdiv n d).
    pose proof (pow2_opp e) as O. pose proof (pow2_pos e).
    field_simplify_eq; [| discriminate].
    rewrite <- (Qmult_1_r (inject_Z n)) at 1. rewrite <- O. ring.
  - exists (n * 2 ^ (- e)), (Zpos d).
    split; [lia |]. split; [reflexivity |].
    rewrite inject_Z_mult, <- (pow2_Z (- e)) by lia.
    rewrite (Qmake_Qdiv n d). field. discriminate.
Qed.

Lemma scaled_lower x e k : (inject_Z k * pow2 e <= x)%Q -> k <= scaled x e.
Proof.
  intros H. destruct (scaled_frac x e) as (n & d & Hd & -> & E).
  apply rne_lower; [exact Hd |].
  rewrite Zle_Qle, inject_Z_mult, E.
  assert (0 < inject_Z d)%Q by (apply inject_Z_pos; exact Hd).
  apply Qmult_le_compat_r; [| lra].
  pose proof (pow2_opp e) as O. pose proof (pow2_pos (- e)).
  setoid_replace (inject_Z k) with (inject_Z k * pow2 e * pow2 (- e))%Q
    by (rewrite <- Qmult_assoc, (Qmult_comm (pow2 e)), O; ring).
  apply Qmult_le_compat_r; [exact H | lra].
Qed.

Lemma scaled_upper x e k : (x <= inject_Z k * pow2 e)%Q -> scaled x e <= k.
Proof.
  intros H. destruct (scaled_frac x e) as (n & d & Hd & -> & E).
  apply rne_upper; [exact Hd |].
  rewrite Zle_Qle, inject_Z_mult, E.
  assert (0 < inject_Z d)%Q by (apply inject_Z_pos; exact Hd).
  apply Qmult_le_compat_r; [| lra].
  pose proof (pow2_opp e) as O. pose proof (pow2_pos (- e)).
  setoid_replace (inject_Z k) with (inject_Z k * pow2 e * pow2 (- e))%Q
    by (rewrite <- Qmult_assoc, (Qmult_comm (pow2 e)), O; ring).
  apply Qmult_le_compat_r; [exact H | lra].
Qed.

(** The rounded value is within half a unit in the last place. *)
Lemma scaled_error x e :
  (x - pow2 e * (1 # 2) <= inject_Z (scaled x e) * pow2 e
   <= x + pow2 e * (1 # 2))%Q.
Proof.
  destruct (scaled_frac x e) as (n & d & Hd & -> & E).
  pose proof (rne_error n d Hd) as R.
  assert (0 < inject_Z d)%Q as Hq by (apply inject_Z_pos; exact Hd).
  pose proof (pow2_opp e) as O. pose proof (pow2_pos (- e)) as P1.
  pose proof (pow2_pos e) as P2.
  set (m := rne n d) in *.
  assert (2 * (m * d - n) <= d /\ 2 * (n - m * d) <= d) as [R1 R2] by lia.
  rewrite Zle_Qle in R1, R2.
  repeat rewrite ?inject_Z_mult, ?inject_Z_plus, ?inject_Z_opp in R1, R2.
  unfold Z.sub in R1, R2.
  repeat rewrite ?inject_Z_mult, ?inject_Z_plus, ?inject_Z_opp in R1, R2.
  rewrite E in R1, R2.
  set (D := inject_Z d) in *. set (M := inject_Z m) in *.
  set (p := pow2 e) in *. set (q := pow2 (- e)) in *.
  assert (x == x * q * p)%Q as Ex by (rewrite <- Qmult_assoc, O; ring).
  assert (2 * (M - x * q) <= 1 /\ 2 * (x * q - M) <= 1)%Q as [S1 S2].
  { change (inject_Z 2) with 2%Q in R1, R2.
    split; apply (Qmult_le_r _ _ D Hq); nra. }
  clearbody D M p q. clear R R1 R2 E O.
  split.
  - apply (Qmult_le_compat_r _ _ p) in S2; [| lra].
    rewrite Ex at 1. lra.
  - apply (Qmult_le_compat_r _ _ p) in S1; [| lra].
    rewrite Ex at 1. lra.
Qed.

(** *** The exponent of a positive rational *)

Lemma log2_bounds a :
  0 < a -> (pow2 (Z.log2 a) <= inject_Z a < pow2 (Z.log2 a + 1))%Q.
Proof.
  intros Ha. pose proof (Z.log2_spec a Ha) as [L U].
  pose proof (Z.log2_nonneg a) as N.
  rewrite !pow2_Z by lia. rewrite <- Zle_Qle, <- Zlt_Qlt.
  replace (Z.log2 a + 1) with (Z.succ (Z.log2 a)) by lia. lia.
Qed.

Lemma scale_test k a b :
  (if 0 <=? k then b * 2 ^ k <=? a else b <=? a * 2 ^ (- k)) = true <->
  (pow2 k * inject_Z b <= inject_Z a)%Q.
Proof.
  destruct (Z.leb_spec 0 k) as [Hk | Hk].
  - rewrite Z.leb_le, pow2_Z by lia.
    rewrite <- inject_Z_mult, <- Zle_Qle. split; lia.
  - rewrite Z.leb_le, Zle_Qle, inject_Z_mult, <- pow2_Z by lia.
    pose proof (pow2_opp k) as O. pose proof (pow2_pos k).
    pose proof (pow2_pos (- k)).
    set (p := pow2 k) in *. set (q := pow2 (- k)) in *.
    set (A := inject_Z a). set (B := inject_Z b). clearbody p q A B.
    split; intros E.
    + apply (Qmult_le_compat_r _ _ p) in E; [| lra].
      setoid_replace (A * q * p)%Q with A in E
        by (rewrite <- Qmult_assoc, O; ring).
      lra.
    + apply (Qmult_le_compat_r _ _ q) in E; [| lra].
      setoid_replace (p * B * q)%Q with B in E
        by (rewrite (Qmult_comm p B), <- Qmult_assoc, (Qmult_comm p q), O; ring).
      exact E.
Qed.

Lemma ilog2_spec a b :
  0 < a -> 0 < b ->
  (pow2 (ilog2 a b) * inject_Z b <= inject_Z a
   < pow2 (ilog2 a b + 1) * inject_Z b)%Q.
Proof.
  intros Ha Hb. unfold ilog2.
  pose proof (log2_bounds a Ha) as [La Ua].
  pose proof (log2_bounds b Hb) as [Lb Ub].
  pose proof (inject_Z_pos b Hb) as Bp.
  set (la := Z.log2 a) in *. set (lb := Z.log2 b) in *.
  pose proof (scale_test (la - lb) a b) as T.
  destruct (if 0 <=? la - lb then b * 2 ^ (la - lb) <=? a
            else b <=? a * 2 ^ (- (la - lb))).
  - split; [apply T; reflexivity |].
    apply Qlt_le_trans with (1 := Ua).
    replace (la + 1) with ((la - lb + 1) + lb) by lia.
    rewrite pow2_add. apply Qmult_le_l; [apply pow2_pos | exact Lb].
  - split.
    + apply Qle_trans with (2 := La).
      replace la with ((la - lb - 1) + (lb + 1)) at 2 by lia.
      rewrite pow2_add. apply Qmult_le_l; [apply pow2_pos | lra].
    + replace (la - lb - 1 + 1) with (la - lb) by lia.
      apply Qnot_le_lt. intros C. apply T in C. discriminate.
Qed.

(** The unit in the last place of a non-negative [x]: [x] has at most 53
    significant bits above it, and exactly 53 unless [x] is subnormal. *)
Lemma ulp_exp_spec x :
  (0 <= x)%Q ->
  emin <= ulp_exp x /\ (x < pow2 (ulp_exp x + 53))%Q /\
  (ulp_exp x = emin \/ (pow2 (ulp_exp x + 52) <= x)%Q).
Proof.
  intros Hx. unfold ulp_exp. destruct x as [n d]. cbn [Qnum Qden].
  assert (0 <= n) as Hn by (unfold Qle in Hx; simpl in Hx; lia).
  destruct (Z.eqb_spec n 0) as [-> | Hn0].
  - split; [lia |]. split; [| left; reflexivity].
    apply Qle_lt_trans with 0%Q; [unfold Qle; simpl; lia | apply pow2_pos].
  - rewrite Z.abs_eq by lia.
    pose proof (ilog2_spec n (Zpos d) ltac:(lia) ltac:(lia)) as [L U].
    set (k := ilog2 n (Zpos d)) in *.
    assert (0 < inject_Z (Zpos d))%Q as Dp by (apply inject_Z_pos; lia).
    assert (pow2 k <= n # d < pow2 (k + 1))%Q as [L' U'].
    { rewrite (Qmake_Qdiv n d). split.
      - apply Qle_shift_div_l; assumption.
      - apply Qlt_shift_div_r; assumption. }
    unfold prec. split; [lia |]. split.
    + apply Qlt_le_trans with (1 := U'). apply pow2_le. lia.
    + destruct (Z.max_spec (k - (53 - 1)) emin) as [[_ ->] | [_ ->]].
      * left; reflexivity.
      * right. replace (k - (53 - 1) + 52) with k by lia. exact L'.
Qed.

Lemma ulp_exp_upper x E :
  (0 <= x)%Q -> (x < pow2 (E + 53))%Q -> emin <= E -> ulp_exp x <= E.
Proof.
  intros Hx Hlt HE. destruct (ulp_exp_spec x Hx) as (_ & _ & [-> | L]).
  - exact HE.
  - assert (pow2 (ulp_exp x + 52) < pow2 (E + 53))%Q as C
      by (apply Qle_lt_trans with (1 := L); exact Hlt).
    apply pow2_lt_inv in C. lia.
Qed.

Lemma ulp_exp_lower x E :
  (pow2 (E + 52) <= x)%Q -> E <= ulp_exp x.
Proof.
  intros L.
  assert (0 <= x)%Q as Hx
    by (apply Qle_trans with (2 := L), Qlt_le_weak, pow2_pos).
  destruct (ulp_exp_spec x Hx) as (_ & U & _).
  assert (pow2 (E + 52) < pow2 (ulp_exp x + 53))%Q as C
    by (apply Qle_lt_trans with (1 := L); exact U).
  apply pow2_lt_inv in C. lia.
Qed.

(** *** Rounding *)

Lemma of_scaled_eq m e : (of_scaled m e == inject_Z m * pow2 e)%Q.
Proof.
  unfold of_scaled. destruct (Z.leb_spec 0 e) as [He | He].
  - rewrite inject_Z_mult, pow2_Z by exact He. reflexivity.
  - pose proof (Z_pow2_pos (- e) ltac:(lia)) as P.
    rewrite Qmake_Qdiv, Z2Pos.id by exact P.
    pose proof (pow2_neg_inv e He) as O.
    assert (0 < inject_Z (2 ^ (- e)))%Q as Hp by (apply inject_Z_pos; exact P).
    assert (~ inject_Z (2 ^ (- e)) == 0)%Q as Hn
      by (intros C; rewrite C in Hp; exact (Qlt_irrefl _ Hp)).
    apply (Qmult_inj_r _ _ (inject_Z (2 ^ (- e)))); [exact Hn |].
    rewrite <- Qmult_assoc, O. field. exact Hn.
Qed.

(** A non-negative value of moderate size rounds to a finite float, and
    that float is the scaled and rounded significand. *)
Lemma round_finite x :
  (0 <= x <= pow2 1023)%Q ->
  round x = Fin (of_scaled (scaled x (ulp_exp x)) (ulp_exp x)) /\
  0 <= scaled x (ulp_exp x).
Proof.
  intros [Hx Hb].
  assert (0 <= scaled x (ulp_exp x)) as Hm.
  { apply scaled_lower. change (inject_Z 0) with 0%Q. lra. }
  split; [| exact Hm].
  unfold round. set (e := ulp_exp x) in *. set (m := scaled x e) in *.
  destruct (Z.leb_spec 0 e) as [He | He]; [| reflexivity].
  cbn [andb].
  destruct (Z.leb_spec (2 ^ emax) (Z.abs m * 2 ^ e)) as [C | C];
    [exfalso | reflexivity].
  assert (e <= 971) as Ee.
  { apply ulp_exp_upper; [exact Hx | | unfold emin; lia].
    apply Qle_lt_trans with (1 := Hb). apply pow2_lt. lia. }
  assert (m <= 2 ^ (1023 - e)) as Mb.
  { apply scaled_upper. rewrite <- pow2_Z by lia. rewrite <- pow2_add.
    replace (1023 - e + e) with 1023 by lia. exact Hb. }
  rewrite Z.abs_eq in C by exact Hm.
  assert (m * 2 ^ e <= 2 ^ (1023 - e) * 2 ^ e) as D.
  { apply Z.mul_le_mono_nonneg_r; [apply Z.pow_nonneg; lia | exact Mb]. }
  rewrite <- Z.pow_add_r in D by lia.
  replace (1023 - e + e) with 1023 in D by lia.
  assert (2 ^ 1023 < 2 ^ emax) by (apply Z.pow_lt_mono_r; unfold emax; lia).
  lia.
Qed.

Lemma round_rounded x : (0 <= x <= pow2 1023)%Q -> round x = Fin (rounded x).
Proof. intros H. apply round_finite. exact H. Qed.

Lemma rounded_nonneg x : (0 <= x)%Q -> (0 <= rounded x)%Q.
Proof.
  intros Hx. unfold rounded. rewrite of_scaled_eq.
  assert (0 <= scaled x (ulp_exp x)) as Hm
    by (apply scaled_lower; change (inject_Z 0) with 0%Q; lra).
  rewrite Zle_Qle in Hm. change (inject_Z 0) with 0%Q in Hm.
  pose proof (pow2_pos (ulp_exp x)). apply Qmult_le_0_compat; lra.
Qed.

Lemma grid_shift M E e :
  e <= E -> (inject_Z (M * 2 ^ (E - e)) * pow2 e == inject_Z M * pow2 E)%Q.
Proof.
  intros H. rewrite inject_Z_mult, <- pow2_Z by lia.
  rewrite <- Qmult_assoc, <- pow2_add.
  replace (E - e + e) with E by lia. reflexivity.
Qed.

(** Rounding never crosses a value of the grid it rounds to. *)
Lemma rounded_ge_grid x M E :
  (inject_Z M * pow2 E <= x)%Q -> ulp_exp x <= E ->
  (inject_Z M * pow2 E <= rounded x)%Q.
Proof.
  intros Hx He. unfold rounded. rewrite of_scaled_eq.
  rewrite <- (grid_shift M E (ulp_exp x) He) in *.
  apply Qmult_le_compat_r; [| apply Qlt_le_weak, pow2_pos].
  rewrite <- Zle_Qle. apply scaled_lower. exact Hx.
Qed.

Lemma rounded_le_grid x M E :
  (0 <= x <= inject_Z M * pow2 E)%Q -> M < 2 ^ 53 -> emin <= E ->
  (rounded x <= inject_Z M * pow2 E)%Q.
Proof.
  intros [Hx Hb] HM HE.
  assert (ulp_exp x <= E) as He.
  { apply ulp_exp_upper; [exact Hx | | exact HE].
    apply Qle_lt_trans with (1 := Hb). rewrite (Z.add_comm E 53), pow2_add.
    apply Qmult_lt_compat_r; [apply pow2_pos |].
    rewrite pow2_Z by lia. rewrite <- Zlt_Qlt. exact HM. }
  unfold rounded. rewrite of_scaled_eq.
  rewrite <- (grid_shift M E (ulp_exp x) He) in *.
  apply Qmult_le_compat_r; [| apply Qlt_le_weak, pow2_pos].
  rewrite <- Zle_Qle. apply scaled_upper. exact Hb.
Qed.

Lemma rounded_le_int x M :
  (0 <= x <= inject_Z M)%Q -> M < 2 ^ 53 -> (rounded x <= inject_Z M)%Q.
Proof.
  intros [Hx Hb] HM.
  assert (inject_Z M == inject_Z M * pow2 0)%Q as E
    by (change (pow2 0) with 1%Q; ring).
  rewrite E. apply rounded_le_grid; [| exact HM | unfold emin; lia].
  rewrite <- E. split; assumption.
Qed.

Lemma rounded_error x :
  (x - pow2 (ulp_exp x) * (1 # 2) <= rounded x
   <= x + pow2 (ulp_exp x) * (1 # 2))%Q.
Proof. unfold rounded. rewrite of_scaled_eq. apply scaled_error. Qed.

Lemma pow2_0 : (pow2 0 == 1)%Q.
Proof. reflexivity. Qed.

(** Integers below [2^53] are binary64 values. *)
Lemma rounded_int n :
  0 <= n < 2 ^ 53 -> (rounded (inject_Z n) == inject_Z n)%Q.
Proof.
  intros [Hn Hb].
  assert (0 <= inject_Z n)%Q as Hq
    by (change 0%Q with (inject_Z 0); rewrite <- Zle_Qle; exact Hn).
  assert (inject_Z n == inject_Z n * pow2 0)%Q as E by (rewrite pow2_0; ring).
  apply Qle_antisym.
  - rewrite E at 2. apply rounded_le_grid; [| exact Hb | unfold emin; lia].
    split; [exact Hq | rewrite <- E; apply Qle_refl].
  - rewrite E at 1. apply rounded_ge_grid; [rewrite <- E; apply Qle_refl |].
    apply ulp_exp_upper; [exact Hq | | unfold emin; lia].
    rewrite pow2_Z by lia. rewrite <- Zlt_Qlt. exact Hb.
Qed.

Lemma inject_Z_le_pow2 n k : 0 <= k -> n <= 2 ^ k -> (inject_Z n <= pow2 k)%Q.
Proof. intros Hk H. rewrite pow2_Z by exact Hk. rewrite <- Zle_Qle. exact H. Qed.

Lemma of_int_exact n :
  0 <= n < 2 ^ 53 ->
  exists y, of_int n = Ok (Fin y) /\ (y == inject_Z n)%Q.
Proof.
  intros Hn. exists (rounded (inject_Z n)). split; [| apply rounded_int, Hn].
  unfold of_int. rewrite round_rounded; [reflexivity |].
  split.
  - change 0%Q with (inject_Z 0). rewrite <- Zle_Qle. lia.
  - apply inject_Z_le_pow2; [lia |].
    assert (2 ^ 53 < 2 ^ 1023) by (apply Z.pow_lt_mono_r; lia). lia.
Qed.

Lemma is_zero_false y : ~ (y == 0)%Q -> is_zero y = false.
Proof.
  intros H. unfold is_zero. destruct (Z.eqb_spec (Qnum y) 0) as [E | E];
    [| reflexivity].
  exfalso. apply H. unfold Qeq. simpl. lia.
Qed.

Lemma pow2_1023_large : (9007199254740992 <= pow2 1023)%Q.
Proof.
  change 9007199254740992%Q with (inject_Z (2 ^ 53)).
  apply inject_Z_le_pow2; [lia |]. apply Z.pow_le_mono_r; lia.
Qed.

(** Values up to [2^53] round to a finite float. *)
Lemma round_small x :
  (0 <= x <= 9007199254740992)%Q -> round x = Fin (rounded x).
Proof.
  intros [H0 H1]. apply round_rounded. split; [exact H0 |].
  apply Qle_trans with (1 := H1). apply pow2_1023_large.
Qed.

(** *** The rank of a percentile *)

Lemma rounded_abs_error x E :
  (0 <= x)%Q -> (x < pow2 (E + 53))%Q -> emin <= E ->
  (x - pow2 E * (1 # 2) <= rounded x <= x + pow2 E * (1 # 2))%Q.
Proof.
  intros Hx Hb HE. pose proof (rounded_error x) as [L U].
  pose proof (pow2_le _ _ (ulp_exp_upper x E Hx Hb HE)) as P.
  set (u := pow2 (ulp_exp x)) in *. set (v := pow2 E) in *.
  clearbody u v. split; lra.
Qed.

Lemma Qceiling_near x y :
  (x - 1 <= y <= x + 1)%Q -> Z.abs (Qceiling y - Qceiling x) <= 1.
Proof.
  intros [L U].
  assert (Qceiling y <= Qceiling x + 1).
  { rewrite <- (Qceiling_Z (Qceiling x + 1)). apply Qceiling_resp_le.
    rewrite inject_Z_plus. change (inject_Z 1) with 1%Q.
    pose proof (Qle_ceiling x). lra. }
  assert (Qceiling x <= Qceiling y + 1).
  { rewrite <- (Qceiling_Z (Qceiling y + 1)). apply Qceiling_resp_le.
    rewrite inject_Z_plus. change (inject_Z 1) with 1%Q.
    pose proof (Qle_ceiling y). lra. }
  lia.
Qed.

(** The value whose ceiling is the rank: for a percentile in [[0, 100]]
    it lies in [[0, n]], so that no rounding step can push the rank past
    the number of samples, and for fewer than [2^50] samples it is within
    5/16 of the exact [p/100 * n]. *)
Lemma percentile_rank_value percentile p n :
  decimal_of_string percentile = Some p ->
  (0 <= p <= 100)%Q -> Z.of_nat n < 2 ^ 53 ->
  exists r,
    percentile_rank percentile n = Ok (Qceiling r) /\
    (0 <= r <= inject_Z (Z.of_nat n))%Q /\
    (Z.of_nat n < 2 ^ 50 ->
     (p * (1 # 100) * inject_Z (Z.of_nat n) - (5 # 16) <= r
      <= p * (1 # 100) * inject_Z (Z.of_nat n) + (5 # 16))%Q).
Proof.
  intros Hdec [Hp0 Hp100] Hn.
  unfold percentile_rank, float_of_string. rewrite Hdec. cbn [rbind].
  (* float(percentile) *)
  rewrite round_small by (split; lra).
  set (f := rounded p).
  assert (0 <= f <= 100)%Q as [Hf0 Hf100].
  { split; [apply rounded_nonneg; exact Hp0 |].
    change 100%Q with (inject_Z 100).
    apply rounded_le_int; [split; assumption | lia]. }
  assert (p - (1 # 140737488355328) <= f <= p + (1 # 140737488355328))%Q
    as [Ef0 Ef1].
  { pose proof (rounded_abs_error p (- 46) Hp0) as E.
    change (pow2 (-46 + 53)) with 128%Q in E.
    change (pow2 (-46)) with (1 # 70368744177664)%Q in E.
    fold f in E. destruct E; [lra | unfold emin; lia |]. split; lra. }
  (* ... / 100 *)
  unfold fdiv_int.
  destruct (of_int_exact 100 ltac:(lia)) as (c & -> & Hc). cbn [rbind fdiv].
  change (inject_Z 100) with 100%Q in Hc.
  rewrite is_zero_false by (rewrite Hc; discriminate).
  assert (f / c == f * (1 # 100))%Q as Eq by (rewrite Hc; field).
  set (q := (f / c)%Q) in *.
  assert (0 <= q <= 1)%Q as [Hq0 Hq1] by (split; lra).
  rewrite round_small by (split; lra).
  set (g := rounded q).
  assert (0 <= g <= 1)%Q as [Hg0 Hg1].
  { split; [apply rounded_nonneg; exact Hq0 |].
    change 1%Q with (inject_Z 1).
    apply rounded_le_int; [split; assumption | lia]. }
  assert (q - (1 # 9007199254740992) <= g <= q + (1 # 9007199254740992))%Q
    as [Eg0 Eg1].
  { pose proof (rounded_abs_error q (- 52) Hq0) as E.
    change (pow2 (-52 + 53)) with 2%Q in E.
    change (pow2 (-52)) with (1 # 4503599627370496)%Q in E.
    fold g in E. destruct E; [lra | unfold emin; lia |]. split; lra. }
  (* ... * len(latencies) *)
  unfold fmul_int.
  destruct (of_int_exact (Z.of_nat n) ltac:(lia)) as (m & -> & Hm).
  cbn [rbind fmul].
  set (N := inject_Z (Z.of_nat n)) in *.
  assert (0 <= N)%Q as HN0
    by (unfold N; change 0%Q with (inject_Z 0); rewrite <- Zle_Qle; lia).
  assert (N <= 9007199254740992)%Q as HNb
    by (unfold N; change 9007199254740992%Q with (inject_Z (2 ^ 53));
        rewrite <- Zle_Qle; lia).
  assert (g * m == g * N)%Q as Em by (rewrite Hm; reflexivity).
  set (t := (g * m)%Q) in *.
  assert (0 <= t <= N)%Q as [Hr0 Hr1].
  { rewrite Em. split; [apply Qmult_le_0_compat; assumption |].
    rewrite <- (Qmult_1_l N) at 2. apply Qmult_le_compat_r; assumption. }
  rewrite round_small by (split; lra).
  set (r := rounded t).
  assert (0 <= r <= N)%Q as [Hs0 Hs1].
  { split; [apply rounded_nonneg; exact Hr0 |].
    apply rounded_le_int; [split; assumption | lia]. }
  (* math.ceil *)
  exists r. split; [reflexivity |]. split; [split; assumption |].
  intros Hn50.
  assert (N <= 1125899906842623)%Q as HN50
    by (unfold N; change 1125899906842623%Q with (inject_Z (2 ^ 50 - 1));
        rewrite <- Zle_Qle; lia).
  assert (t - (1 # 16) <= r <= t + (1 # 16))%Q as [Er0 Er1].
  { pose proof (rounded_abs_error t (- 3) Hr0) as E.
    change (pow2 (-3 + 53)) with 1125899906842624%Q in E.
    change (pow2 (-3)) with (1 # 8)%Q in E.
    fold r in E. destruct E; [lra | unfold emin; lia |]. split; lra. }
  assert ((p * (1 # 100) - (1 # 4503599627370496)) * N <= g * N
          <= (p * (1 # 100) + (1 # 4503599627370496)) * N)%Q as [Et0 Et1].
  { split; apply Qmult_le_compat_r; try exact HN0; lra. }
  split; lra.
Qed.

(** For a percentile in [[0, 100]] the rank computed in binary64 lies in
    [[0, n]]. *)
Lemma percentile_rank_range percentile p n :
  decimal_of_string percentile = Some p ->
  (0 <= p <= 100)%Q -> Z.of_nat n < 2 ^ 53 ->
  exists rank, percentile_rank percentile n = Ok rank /\
               0 <= rank <= Z.of_nat n.
Proof.
  intros Hdec Hp Hn.
  destruct (percentile_rank_value percentile p n Hdec Hp Hn)
    as (r & Hr & [H0 H1] & _).
  exists (Qceiling r). split; [exact Hr |]. split.
  - change 0 with (Qceiling (inject_Z 0)). apply Qceiling_resp_le. exact H0.
  - rewrite <- (Qceiling_Z (Z.of_nat n)). apply Qceiling_resp_le. exact H1.
Qed.

(** For fewer than [2^50] samples the rank computed in binary64 is
    within one of the exact [ceil(p/100 * n)]. *)
Lemma percentile_rank_near percentile p n rank :
  decimal_of_string percentile = Some p ->
  (0 <= p <= 100)%Q -> Z.of_nat n < 2 ^ 50 ->
  percentile_rank percentile n = Ok rank ->
  Z.abs (rank - spec_rank p n) <= 1.
Proof.
  intros Hdec Hp Hn Hrank.
  assert (Z.of_nat n < 2 ^ 53) as Hn53.
  { apply Z.lt_trans with (1 := Hn). apply Z.pow_lt_mono_r; lia. }
  destruct (percentile_rank_value percentile p n Hdec Hp Hn53)
    as (r & Hr & _ & Hnear).
  rewrite Hr in Hrank. injection Hrank as <-.
  destruct (Hnear Hn) as [L U]. unfold spec_rank.
  assert (p / 100 * inject_Z (Z.of_nat n)
          == p * (1 # 100) * inject_Z (Z.of_nat n))%Q as E by field.
  rewrite E. apply Qceiling_near. split; lra.
Qed.

(** *** The quotient of two integers against 1/128 *)

Lemma inject_Z_nonneg n : 0 <= n -> (0 <= inject_Z n)%Q.
Proof. intros H. unfold Qle. simpl. lia. Qed.

Lemma quotient_bounds d a :
  0 < a -> 0 <= d ->
  (0 <= inject_Z d / inject_Z a <= inject_Z d)%Q.
Proof.
  intros Ha Hd.
  pose proof (inject_Z_pos a Ha) as Ap. pose proof (inject_Z_nonneg d Hd) as Dp.
  assert (1 <= inject_Z a)%Q as A1
    by (change 1%Q with (inject_Z 1); rewrite <- Zle_Qle; lia).
  split.
  - apply Qle_shift_div_l; [exact Ap | lra].
  - apply Qle_shift_div_r; [exact Ap |].
    rewrite <- (Qmult_1_r (inject_Z d)) at 1.
    rewrite (Qmult_comm _ 1), (Qmult_comm _ (inject_Z a)).
    apply Qmult_le_compat_r; assumption.
Qed.

Lemma int_truediv_finite d a :
  0 < a -> 0 <= d <= 2 ^ 1023 ->
  int_truediv d a = Ok (Fin (rounded (inject_Z d / inject_Z a))).
Proof.
  intros Ha [Hd Hb]. unfold int_truediv.
  destruct (Z.eqb_spec a 0) as [E | _]; [lia |].
  pose proof (quotient_bounds d a Ha Hd) as [Q0 Q1].
  rewrite round_rounded; [reflexivity |].
  split; [exact Q0 |]. apply Qle_trans with (1 := Q1).
  apply inject_Z_le_pow2; [lia | exact Hb].
Qed.

(** Below [2^53] the rounded quotient is on the same side of 1/128 as
    the exact one. *)
Lemma rounded_le_inv128 d a :
  0 < a < 2 ^ 53 -> 0 <= d ->
  (rounded (inject_Z d / inject_Z a) <= 1 # 128)%Q <-> 128 * d <= a.
Proof.
  intros [Ha Hb] Hd.
  pose proof (inject_Z_pos a Ha) as Ap. pose proof (inject_Z_nonneg d Hd) as Dp.
  pose proof (quotient_bounds d a Ha Hd) as [Q0 _].
  set (x := (inject_Z d / inject_Z a)%Q) in *.
  assert (A53 : (inject_Z a <= 9007199254740991)%Q).
  { change 9007199254740991%Q with (inject_Z (2 ^ 53 - 1)).
    rewrite <- Zle_Qle. lia. }
  split.
  - (* the rounded quotient is small, so is the exact one *)
    intros Hr. destruct (Z.le_gt_cases (128 * d) a) as [ | C]; [assumption |].
    exfalso. apply (Qle_not_lt _ _ Hr). clear Hr.
    assert (inject_Z a + 1 <= 128 * inject_Z d)%Q as C'.
    { change 1%Q with (inject_Z 1). change 128%Q with (inject_Z 128).
      rewrite <- inject_Z_plus, <- inject_Z_mult, <- Zle_Qle. lia. }
    assert (((1 # 128) + (1 # 1152921504606846976) < x)%Q) as Hx.
    { unfold x. apply Qlt_shift_div_l; [exact Ap | lra]. }
    assert (- 59 <= ulp_exp x) as He.
    { apply ulp_exp_lower. change (pow2 (-59 + 52)) with (1 # 128)%Q. lra. }
    destruct (Z.eq_dec (ulp_exp x) (- 59)) as [E | E].
    + pose proof (rounded_error x) as [L _]. rewrite E in L.
      change (pow2 (-59)) with (1 # 576460752303423488)%Q in L. lra.
    + destruct (ulp_exp_spec x Q0) as (_ & _ & [Em | L]);
        [unfold emin in Em; lia |].
      apply Qlt_le_trans with (pow2 (ulp_exp x + 52)).
      * apply Qlt_le_trans with (pow2 (- 6)); [reflexivity |].
        apply pow2_le. lia.
      * rewrite (Z.add_comm (ulp_exp x) 52), pow2_add.
        rewrite (pow2_Z 52) by lia.
        apply rounded_ge_grid; [| lia].
        rewrite <- (pow2_Z 52) by lia. rewrite <- pow2_add.
        rewrite Z.add_comm. exact L.
  - (* the exact quotient is small, so is the rounded one *)
    intros Hs.
    assert (128 * inject_Z d <= inject_Z a)%Q as C'.
    { change 128%Q with (inject_Z 128).
      rewrite <- inject_Z_mult, <- Zle_Qle. exact Hs. }
    assert (x <= 1 # 128)%Q as Hx.
    { unfold x. apply Qle_shift_div_r; [exact Ap | lra]. }
    setoid_replace (1 # 128)%Q with (inject_Z 1 * pow2 (- 7))%Q by reflexivity.
    apply rounded_le_grid; [| lia | unfold emin; lia].
    split; [exact Q0 |].
    setoid_replace (inject_Z 1 * pow2 (- 7))%Q with (1 # 128)%Q by reflexivity.
    exact Hx.
Qed.

(** [similar] on integers that binary64 can tell apart: the verdict is
    the exact comparison of the relative error with 1/128. *)
Lemma similar_exact estimate actual :
  0 < actual < 2 ^ 53 -> Z.abs (estimate - actual) <= 2 ^ 1023 ->
  similar estimate actual = Ok (128 * Z.abs (estimate - actual) <=? actual).
Proof.
  intros Ha Hd. unfold similar.
  rewrite int_truediv_finite by lia. cbn [rbind].
  change (int_truediv 1 128)
    with (Ok (Fin (4503599627370496 # 576460752303423488))).
  cbn [rbind fle]. f_equal.
  pose proof (rounded_le_inv128 (Z.abs (estimate - actual)) actual Ha
                (Z.abs_nonneg _)) as R.
  set (y := rounded _) in *.
  destruct (Z.leb_spec (128 * Z.abs (estimate - actual)) actual) as [C | C].
  - apply Qle_bool_iff.
    setoid_replace (4503599627370496 # 576460752303423488)%Q
      with (1 # 128)%Q by reflexivity.
    apply R. exact C.
  - destruct (Qle_bool y (4503599627370496 # 576460752303423488)) eqn:B;
      [| reflexivity].
    apply Qle_bool_iff in B.
    setoid_replace (4503599627370496 # 576460752303423488)%Q
      with (1 # 128)%Q in B by reflexivity.
    apply R in B. lia.
Qed.

(** *** The floor of a quotient by 1000 *)

Lemma Qfloor_unique y q :
  (inject_Z q <= y < inject_Z (q + 1))%Q -> Qfloor y = q.
Proof.
  intros [L U]. apply Z.le_antisymm.
  - assert (Qfloor y < q + 1); [| lia].
    rewrite Zlt_Qlt. apply Qle_lt_trans with (2 := U). apply Qfloor_le.
  - rewrite <- (Qfloor_Z q). apply Qfloor_resp_le. exact L.
Qed.

(** Below [2^53] nanoseconds, dividing in binary64 and taking the floor
    is the integer floor division. *)
Lemma floor_truediv_1000 v :
  0 <= v < 2 ^ 53 ->
  (let* us := int_truediv v 1000 in floor us) = Ok (v / 1000).
Proof.
  intros [Hv Hb].
  assert (2 ^ 53 < 2 ^ 1023) by (apply Z.pow_lt_mono_r; lia).
  rewrite int_truediv_finite by lia. cbn [rbind floor]. f_equal.
  change (inject_Z 1000) with 1000%Q.
  set (x := (inject_Z v / 1000)%Q).
  pose proof (Z.div_mod v 1000 ltac:(lia)) as E.
  pose proof (Z.mod_pos_bound v 1000 ltac:(lia)) as B.
  set (q := v / 1000) in *.
  assert (inject_Z q <= x <= inject_Z q + (999 # 1000))%Q as [L U].
  { assert (1000 * inject_Z q <= inject_Z v <= 1000 * inject_Z q + 999)%Q
      as [L U].
    { change 1000%Q with (inject_Z 1000). change 999%Q with (inject_Z 999).
      rewrite <- inject_Z_mult, <- inject_Z_plus, <- !Zle_Qle. lia. }
    unfold x. split.
    - apply Qle_shift_div_l; [reflexivity | lra].
    - apply Qle_shift_div_r; [reflexivity | lra]. }
  assert (0 <= inject_Z q)%Q as Q0 by (apply inject_Z_nonneg; lia).
  assert (inject_Z q <= 9007199254741)%Q as Qb.
  { change 9007199254741%Q with (inject_Z 9007199254741).
    rewrite <- Zle_Qle. lia. }
  assert (ulp_exp x <= - 9) as He.
  { apply ulp_exp_upper; [lra | | unfold emin; lia].
    change (pow2 (-9 + 53)) with 17592186044416%Q. lra. }
  apply Qfloor_unique. split.
  - setoid_replace (inject_Z q) with (inject_Z q * pow2 0)%Q
      by (change (pow2 0) with 1%Q; ring).
    apply rounded_ge_grid; [| lia].
    change (pow2 0) with 1%Q. lra.
  - pose proof (rounded_error x) as [_ R].
    pose proof (pow2_le _ _ He) as P.
    change (pow2 (-9)) with (1 # 512)%Q in P.
    rewrite inject_Z_plus. change (inject_Z 1) with 1%Q.
    set (u := pow2 (ulp_exp x)) in *. clearbody u. lra.
Qed.

(** ** The report parser *)

Lemma splitlines_nil s : splitlines s = [] <-> s = EmptyString.
Proof.
  destruct s as [| c rest]; cbn [splitlines]; [tauto |].
  split; [| discriminate].
  destruct (is_linebreak c); [discriminate |].
  destruct (splitlines rest); discriminate.
Qed.

Lemma unix_text_nil s : unix_text s = EmptyString <-> s = EmptyString.
Proof.
  destruct s as [| c rest]; cbn [unix_text]; [tauto |].
  split; [| discriminate]. destruct (is_linebreak c); discriminate.
Qed.

Lemma remaining_text_empty i : remaining_text EmptyString i = EmptyString.
Proof. destruct i; reflexivity. Qed.

Lemma remaining_text_0 s : remaining_text s 0 = s.
Proof. destruct s; reflexivity. Qed.

Lemma join_cons_char c l ls :
  join (String "010"%char EmptyString) (String c l :: ls) = String c (join (String "010"%char EmptyString) (l :: ls)).
Proof. destruct ls; reflexivity. Qed.

Lemma chomp_cons c t :
  t <> EmptyString -> chomp (String c t) = String c (chomp t).
Proof. destruct t; [contradiction | reflexivity]. Qed.

(** A line boundary at the head of a text: what follows it. *)
Lemma boundary_head c rest :
  is_linebreak c = true ->
  exists t,
    (String.length t <= String.length rest)%nat /\
    splitlines (String c rest) = EmptyString :: splitlines t /\
    unix_text (String c rest) = String "010"%char (unix_text t) /\
    forall i, remaining_text (String c rest) (S i) = remaining_text t i.
Proof.
  intros Ec. destruct rest as [| c2 rest2].
  - exists EmptyString. cbn [splitlines unix_text remaining_text].
    rewrite Ec. repeat split; [lia |]. intros i.
    destruct i; reflexivity.
  - destruct ((code c =? 13) && (code c2 =? 10)) eqn:Ecr.
    + exists rest2. cbn [splitlines unix_text remaining_text].
      rewrite Ec, Ecr. repeat split. cbn [String.length]. lia.
    + exists (String c2 rest2). cbn [splitlines unix_text remaining_text].
      rewrite Ec, Ecr. repeat split. lia.
Qed.

(** Another character at the head of a text. *)
Lemma plain_head c rest :
  is_linebreak c = false ->
  splitlines (String c rest) =
    match splitlines rest with
    | [] => [String c EmptyString]
    | l :: ls => String c l :: ls
    end /\
  unix_text (String c rest) = String c (unix_text rest) /\
  forall i, remaining_text (String c rest) (S i) = remaining_text rest (S i).
Proof.
  intros Ec. cbn [splitlines unix_text remaining_text]. rewrite Ec.
  repeat split.
Qed.

Lemma linebreak_10 c : (code c =? 10) = true -> is_linebreak c = true.
Proof.
  intros H. apply Z.eqb_eq in H. unfold is_linebreak. cbv zeta. rewrite H.
  reflexivity.
Qed.

(** The lines from [i] on, joined by line feeds, are the text that
    remains after [i] lines with its boundaries written as line feeds
    and without the last one. *)
Lemma joined_lines_text n :
  forall s i, (String.length s <= n)%nat ->
              join (String "010"%char EmptyString) (skipn i (splitlines s)) = decoded_text s i.
Proof.
  unfold decoded_text.
  induction n as [| n IH]; intros s i Hn.
  - destruct s; [| cbn in Hn; lia]. rewrite remaining_text_empty.
    cbn [splitlines]. rewrite skipn_nil. reflexivity.
  - destruct s as [| c rest].
    { rewrite remaining_text_empty. cbn [splitlines]. rewrite skipn_nil.
      reflexivity. }
    cbn [String.length] in Hn.
    destruct (is_linebreak c) eqn:Ec.
    + destruct (boundary_head c rest Ec) as (t & Ht & -> & Hu & Hr).
      destruct i as [| i].
      * cbn [skipn remaining_text]. rewrite Hu.
        pose proof (IH t 0%nat ltac:(lia)) as E.
        rewrite remaining_text_0 in E. cbn [skipn] in E.
        destruct (splitlines t) as [| l ls] eqn:Et.
        -- apply (proj1 (splitlines_nil t)) in Et. rewrite Et. reflexivity.
        -- assert (unix_text t <> EmptyString) as Hne.
           { intros C. apply (proj1 (unix_text_nil t)) in C. rewrite C in Et.
             discriminate. }
           rewrite (chomp_cons _ _ Hne), <- E. reflexivity.
      * cbn [skipn]. rewrite Hr. apply IH. lia.
    + destruct (plain_head c rest Ec) as (-> & Hu & Hr).
      destruct i as [| i].
      * cbn [skipn remaining_text]. rewrite Hu.
        pose proof (IH rest 0%nat ltac:(lia)) as E.
        rewrite remaining_text_0 in E. cbn [skipn] in E.
        destruct (splitlines rest) as [| l ls] eqn:Et.
        -- apply (proj1 (splitlines_nil rest)) in Et. rewrite Et.
           cbn [unix_text chomp join].
           destruct (code c =? 10) eqn:E10; [| reflexivity].
           rewrite (linebreak_10 c E10) in Ec. discriminate.
        -- assert (unix_text rest <> EmptyString) as Hne.
           { intros C. apply (proj1 (unix_text_nil rest)) in C. rewrite C in Et.
             discriminate. }
           rewrite (chomp_cons _ _ Hne), <- E. apply join_cons_char.
      * rewrite Hr. rewrite <- (IH rest (S i)) by lia.
        destruct (splitlines rest) as [| l ls]; [| reflexivity].
        cbn [skipn]. rewrite skipn_nil. reflexivity.
Qed.

Lemma unix_text_lf_only s : lf_only s = true -> unix_text s = s.
Proof.
  induction s as [| c rest IH]; [reflexivity |].
  cbn [lf_only]. intros H. apply andb_true_iff in H. destruct H as [Hc Hr].
  destruct (is_linebreak c) eqn:Ec.
  - cbn [negb orb] in Hc.
    destruct (boundary_head c rest Ec) as (t & _ & _ & _ & _).
    cbn [unix_text]. rewrite Ec.
    assert ((code c =? 13) = false) as E13
      by (apply Z.eqb_eq in Hc; rewrite Hc; reflexivity).
    apply Z.eqb_eq in Hc.
    assert (c = "010"%char) as ->.
    { unfold code in Hc. apply (f_equal Z.to_N) in Hc.
      rewrite N2Z.id in Hc. apply (f_equal ascii_of_N) in Hc.
      rewrite ascii_N_embedding in Hc. exact Hc. }
    destruct rest as [| c2 rest2]; [reflexivity |].
    cbn [andb Z.eqb code] in *. rewrite (IH Hr). reflexivity.
  - cbn [unix_text]. rewrite Ec, (IH Hr). reflexivity.
Qed.

Lemma remaining_text_lf_only s :
  lf_only s = true -> forall i, lf_only (remaining_text s i) = true.
Proof.
  induction s as [| c rest IH]; intros H i.
  - rewrite remaining_text_empty. reflexivity.
  - destruct i as [| i]; [exact H |].
    cbn [lf_only] in H. apply andb_true_iff in H. destruct H as [Hc Hr].
    cbn [remaining_text]. destruct (is_linebreak c) eqn:Ec.
    + cbn [negb orb] in Hc.
      destruct rest as [| c2 rest2]; [reflexivity |].
      assert ((code c =? 13) = false) as ->
        by (apply Z.eqb_eq in Hc; rewrite Hc; reflexivity).
      cbn [andb]. apply IH. exact Hr.
    + apply IH. exact Hr.
Qed.

Section GetJsonFacts.

Variable json : Type.
Variable json_loads : string -> result (option json).

(** The loop over the offsets [a], [a + 1], ..., in terms of what the
    decoder makes of each. *)
Lemma get_json_loop_spec (lines : list string) (k : nat) :
  forall a,
    let tried := fun i => json_loads (join (String "010"%char EmptyString) (skipn i lines)) in
    (forall doc,
        get_json_loop json json_loads lines (seq a k) = Ok (true, inl doc) <->
        exists i, (a <= i < a + k)%nat /\ tried i = Ok (Some doc) /\
                  forall j, (a <= j < i)%nat -> tried j = Ok None) /\
    (get_json_loop json json_loads lines (seq a k)
     = Ok (false, inr EmptyString) <->
     forall i, (a <= i < a + k)%nat -> tried i = Ok None) /\
    (forall e,
        get_json_loop json json_loads lines (seq a k) = Raise e <->
        exists i, (a <= i < a + k)%nat /\ tried i = Raise e /\
                  forall j, (a <= j < i)%nat -> tried j = Ok None) /\
    (forall b r,
        get_json_loop json json_loads lines (seq a k) = Ok (b, r) ->
        (b = true /\ exists doc, r = inl doc) \/
        (b = false /\ r = inr EmptyString)).
Proof.
  induction k as [| k IH]; intros a tried.
  - cbn [seq get_json_loop]. repeat split.
    + discriminate.
    + intros (i & Hi & _). lia.
    + intros i Hi. lia.
    + discriminate.
    + intros (i & Hi & _). lia.
    + intros b r [= <- <-]. right. split; reflexivity.
  - cbn [seq get_json_loop]. fold (tried a).
    destruct (IH (S a)) as (It & If & Ie & Is). fold tried in It, If, Ie.
    assert (forall (P : nat -> Prop) i,
              (a <= i < a + S k)%nat -> (i = a -> P a) ->
              ((S a <= i < S a + k)%nat -> P i) -> P i) as Cases.
    { intros P i Hi H0 H1. destruct (Nat.eq_dec i a) as [-> | Hne];
        [apply H0; reflexivity | apply H1; lia]. }
    destruct (tried a) as [[d |] | e0] eqn:Ea.
    + (* decoded at [a] *)
      repeat split.
      * intros [= <-]. exists a. split; [lia |]. split; [exact Ea |].
        intros j Hj. lia.
      * intros (i & Hi & Hd & Hb).
        destruct (Nat.eq_dec i a) as [-> | Hne]; [congruence |].
        rewrite (Hb a) in Ea by lia. discriminate.
      * discriminate.
      * intros H. rewrite (H a) in Ea by lia. discriminate.
      * discriminate.
      * intros (i & Hi & Hd & Hb).
        destruct (Nat.eq_dec i a) as [-> | Hne]; [congruence |].
        rewrite (Hb a) in Ea by lia. discriminate.
      * intros b r [= <- <-]. left. split; [reflexivity |]. exists d.
        reflexivity.
    + (* a decode error at [a]: on to the next offset *)
      repeat split.
      * intros H. apply It in H. destruct H as (i & Hi & Hd & Hb).
        exists i. split; [lia |]. split; [exact Hd |].
        intros j Hj. destruct (Nat.eq_dec j a) as [-> | Hne];
          [exact Ea | apply Hb; lia].
      * intros (i & Hi & Hd & Hb). apply It.
        destruct (Nat.eq_dec i a) as [-> | Hne]; [congruence |].
        exists i. split; [lia |]. split; [exact Hd |].
        intros j Hj. apply Hb. lia.
      * intros H i Hi. destruct (Nat.eq_dec i a) as [-> | Hne];
          [exact Ea | apply If; [exact H | lia]].
      * intros H. apply If. intros i Hi. apply H. lia.
      * intros H. apply Ie in H. destruct H as (i & Hi & Hd & Hb).
        exists i. split; [lia |]. split; [exact Hd |].
        intros j Hj. destruct (Nat.eq_dec j a) as [-> | Hne];
          [exact Ea | apply Hb; lia].
      * intros (i & Hi & Hd & Hb). apply Ie.
        destruct (Nat.eq_dec i a) as [-> | Hne]; [congruence |].
        exists i. split; [lia |]. split; [exact Hd |].
        intros j Hj. apply Hb. lia.
      * apply Is.
    + (* another exception at [a] *)
      repeat split.
      * discriminate.
      * intros (i & Hi & Hd & Hb).
        destruct (Nat.eq_dec i a) as [-> | Hne]; [congruence |].
        rewrite (Hb a) in Ea by lia. discriminate.
      * discriminate.
      * intros H. rewrite (H a) in Ea by lia. discriminate.
      * intros [= <-]. exists a. split; [lia |]. split; [exact Ea |].
        intros j Hj. lia.
      * intros (i & Hi & Hd & Hb).
        destruct (Nat.eq_dec i a) as [-> | Hne]; [congruence |].
        rewrite (Hb a) in Ea by lia. discriminate.
      * discriminate.
Qed.

(** C10, as amended. [get_json] tries the line offsets 0 to 4 in this
    order. At offset [i] the decoder is given [decoded_text s i]: what
    remains of the text after [i] lines, with every line boundary written
    as a line feed and without the final one. The call returns
    [(True, document)] for the smallest offset at which that text
    decodes, [(False, '')] exactly when the decoder raises
    [JSONDecodeError] at all five, and lets any other exception of the
    decoder escape at the first offset where it is raised; it returns
    nothing else. For a text whose only line boundaries are line feeds,
    the text decoded at offset [i] is the remaining text itself, less a
    final line feed. *)
Theorem get_json_first_offset (file_data : string) :
  (forall doc,
      get_json json json_loads file_data = Ok (true, inl doc) <->
      exists i, (i < 5)%nat /\
                json_loads (decoded_text file_data i) = Ok (Some doc) /\
                forall j, (j < i)%nat ->
                          json_loads (decoded_text file_data j) = Ok None) /\
  (get_json json json_loads file_data = Ok (false, inr EmptyString) <->
   forall i, (i < 5)%nat ->
             json_loads (decoded_text file_data i) = Ok None) /\
  (forall e,
      get_json json json_loads file_data = Raise e <->
      exists i, (i < 5)%nat /\
                json_loads (decoded_text file_data i) = Raise e /\
                forall j, (j < i)%nat ->
                          json_loads (decoded_text file_data j) = Ok None) /\
  (forall b r,
      get_json json json_loads file_data = Ok (b, r) ->
      (b = true /\ exists doc, r = inl doc) \/
      (b = false /\ r = inr EmptyString)) /\
  (lf_only file_data = true ->
   forall i, decoded_text file_data i = chomp (remaining_text file_data i)).
Proof.
  assert (forall i, join (String "010"%char EmptyString) (skipn i (splitlines file_data))
                    = decoded_text file_data i) as Et
    by (intros i; apply (joined_lines_text (String.length file_data));
        apply Nat.le_refl).
  unfold get_json. cbv zeta.
  destruct (get_json_loop_spec (splitlines file_data) 5 0)
    as (Ht & Hf & He & Hs).
  cbv zeta in Ht, Hf, He.
  split; [| split; [| split; [| split]]].
  - intros doc. rewrite Ht. split; intros (i & Hi & Hd & Hb); exists i;
      (split; [lia |]); (split; [rewrite ?Et in *; try rewrite <- Et;
                                 congruence |]);
      intros j Hj; [rewrite <- Et | rewrite Et]; apply Hb; lia.
  - rewrite Hf. split; intros H i Hi; [rewrite <- Et | rewrite Et];
      apply H; lia.
  - intros e. rewrite He. split; intros (i & Hi & Hd & Hb); exists i;
      (split; [lia |]); (split; [rewrite ?Et in *; try rewrite <- Et;
                                 congruence |]);
      intros j Hj; [rewrite <- Et | rewrite Et]; apply Hb; lia.
  - exact Hs.
  - intros Hlf i. unfold decoded_text.
    rewrite unix_text_lf_only; [reflexivity |].
    apply remaining_text_lf_only. exact Hlf.
Qed.

End GetJsonFacts.

(** C10, corrected. What is decoded at an offset is not the remaining
    text of the file but its lines joined again by line feeds. A form
    feed is a line boundary for [splitlines] and no white space for
    JSON: in the text ['{\x0c}'] no offset leaves a remaining text that
    decodes, and [get_json] returns [(True, {})], having decoded
    ['{\n}']. The character U+0085 is a line boundary too and may stand
    in a JSON string: the text ['"a\x85b"'] is a valid document, and
    [get_json] returns [(False, '')]. *)
Lemma get_json_remaining_text_counterexample :
  let form_feed := String "{" (String "012" (String "}" EmptyString)) in
  let next_line :=
    String "034" (String "a" (String "133" (String "b" (String "034"
      EmptyString)))) in
  ((forall i, (i < 5)%nat ->
              toy_loads (remaining_text form_feed i) = Ok None) /\
   get_json unit toy_loads form_feed = Ok (true, inl tt)) /\
  (toy_loads (remaining_text next_line 0) = Ok (Some tt) /\
   get_json unit toy_loads next_line = Ok (false, inr EmptyString)).
Proof.
  cbv zeta. split; split; try (vm_compute; reflexivity).
  intros i Hi.
  destruct i as [| [| [| [| [| i]]]]]; vm_compute; reflexivity.
Qed.

(** Two banner lines before a document of two lines: decoded at
    offset 2, as the text ['{\n}']. *)
Lemma get_json_first_offset_witness :
  let text :=
    ("fio: warning" ++ (String "010"%char EmptyString) ++ "note" ++ (String "010"%char EmptyString) ++ "{" ++ (String "010"%char EmptyString) ++ "}" ++ (String "010"%char EmptyString))%string in
  lf_only text = true /\
  decoded_text text 2 = chomp (remaining_text text 2) /\
  get_json unit toy_loads text = Ok (true, inl tt).
Proof.
  intros text.
  pose proof (get_json_first_offset unit toy_loads text)
    as (Ht & _ & _ & _ & Hlf).
  split; [reflexivity |]. split; [apply Hlf; reflexivity |].
  apply Ht. exists 2%nat. split; [lia |]. split; [vm_compute; reflexivity |].
  intros j Hj. destruct j as [| [| j]]; [| | lia]; vm_compute; reflexivity.
Defined.

(** ** The tolerance comparator *)

(** A relative error of at most 1/128 passes, whatever the size of the
    reference. *)
Lemma similar_within estimate actual :
  0 < actual -> 128 * Z.abs (estimate - actual) <= actual ->
  similar estimate actual = Ok true.
Proof.
  intros Ha Hs. unfold similar, int_truediv at 1.
  destruct (Z.eqb_spec actual 0) as [E | _]; [lia |].
  set (d := Z.abs (estimate - actual)) in *.
  assert (0 <= d) as Hd by apply Z.abs_nonneg.
  pose proof (quotient_bounds d actual Ha Hd) as [Q0 _].
  pose proof (inject_Z_pos actual Ha) as Ap.
  set (x := (inject_Z d / inject_Z actual)%Q) in *.
  assert (x <= 1 # 128)%Q as Hx.
  { unfold x. apply Qle_shift_div_r; [exact Ap |].
    assert (128 * inject_Z d <= inject_Z actual)%Q.
    { change 128%Q with (inject_Z 128).
      rewrite <- inject_Z_mult, <- Zle_Qle. exact Hs. }
    lra. }
  rewrite round_small by (split; lra). cbn [rbind].
  change (int_truediv 1 128)
    with (Ok (Fin (4503599627370496 # 576460752303423488))).
  cbn [rbind fle]. f_equal. apply Qle_bool_iff.
  setoid_replace (4503599627370496 # 576460752303423488)%Q
    with (inject_Z 1 * pow2 (- 7))%Q by reflexivity.
  apply rounded_le_grid; [| lia | unfold emin; lia].
  split; [exact Q0 |].
  setoid_replace (inject_Z 1 * pow2 (- 7))%Q with (1 # 128)%Q by reflexivity.
  exact Hx.
Qed.

Lemma within_tolerance_iff estimate actual :
  0 < actual ->
  within_tolerance estimate actual <-> 128 * Z.abs (estimate - actual) <= actual.
Proof.
  intros Ha. unfold within_tolerance.
  pose proof (inject_Z_pos actual Ha) as Ap.
  assert (Qabs (inject_Z estimate - inject_Z actual)
          == inject_Z (Z.abs (estimate - actual)))%Q as E.
  { unfold Qeq. simpl. rewrite !Z.mul_1_r. f_equal. }
  rewrite E. set (d := Z.abs (estimate - actual)).
  split; intros H.
  - assert (inject_Z d <= (1 # 128) * inject_Z actual)%Q as C.
    { apply (Qmult_le_compat_r _ _ (inject_Z actual)) in H; [| lra].
      setoid_replace (inject_Z d / inject_Z actual * inject_Z actual)%Q
        with (inject_Z d) in H by (field; lra).
      exact H. }
    assert (inject_Z (128 * d) <= inject_Z actual)%Q as C'.
    { rewrite inject_Z_mult. change (inject_Z 128) with 128%Q. lra. }
    rewrite <- Zle_Qle in C'. exact C'.
  - apply Qle_shift_div_r; [exact Ap |].
    rewrite Zle_Qle, inject_Z_mult in H.
    change (inject_Z 128) with 128%Q in H. lra.
Qed.

(** C2, corrected. The claim as stated fails where binary64 cannot tell
    the quotient from 1/128: for the reference [2^60] and the estimate
    [2^60 + 2^53 + 1] the relative error is [2^-7 + 2^-60], which lies
    halfway between the floats [2^-7] and [2^-7 + 2^-59] and rounds to
    the even one, [2^-7 = 1/128]: [similar] returns [True] although the
    relative error exceeds 1/128. And where the quotient is too large
    for a float, as for the estimate [2^1100] and the reference 1, the
    division raises [OverflowError] and [similar] returns nothing. *)
Lemma similar_relative_error_counterexample :
  (0 < 2 ^ 60 /\
   similar (2 ^ 60 + 2 ^ 53 + 1) (2 ^ 60) = Ok true /\
   ~ within_tolerance (2 ^ 60 + 2 ^ 53 + 1) (2 ^ 60)) /\
  (0 < 1 /\ similar (2 ^ 1100) 1 = Raise OverflowError).
Proof.
  split; [| split; [reflexivity | vm_compute; reflexivity]].
  split; [reflexivity |]. split; [vm_compute; reflexivity |].
  rewrite within_tolerance_iff by reflexivity. vm_compute. congruence.
Qed.

(** C2, as amended. For a reference [0 < actual < 2^53] and an estimate
    within [2^1023] of it, [similar] returns, and returns [True] exactly
    when [|estimate - actual| / actual <= 1/128]; [similar x x] is [True]
    for every [x > 0]; for the samples 1..100 and the percentile 99 the
    reference is 99, a reported 100 fails and a reported 99 passes. *)
Theorem similar_relative_error :
  (forall estimate actual,
      0 < actual < 2 ^ 53 -> Z.abs (estimate - actual) <= 2 ^ 1023 ->
      (exists verdict, similar estimate actual = Ok verdict) /\
      (similar estimate actual = Ok true <-> within_tolerance estimate actual)) /\
  (forall x, 0 < x -> similar x x = Ok true) /\
  reference (sort (map Z.of_nat (seq 1 100))) "99.000000" = Ok 99 /\
  similar 100 99 = Ok false /\
  similar 99 99 = Ok true.
Proof.
  split; [| split; [| split; [| split]]].
  - intros estimate actual Ha Hd.
    rewrite (similar_exact estimate actual Ha Hd).
    rewrite within_tolerance_iff by lia.
    split; [eexists; reflexivity |].
    split.
    + intros E. injection E as E. apply Z.leb_le. exact E.
    + intros E. f_equal. apply Z.leb_le. exact E.
  - intros x Hx. apply similar_within; [exact Hx |].
    rewrite Z.sub_diag. simpl. lia.
  - vm_compute. reflexivity.
  - vm_compute. reflexivity.
  - vm_compute. reflexivity.
Qed.

Lemma similar_relative_error_witness :
  similar 1000 1007 = Ok true <-> within_tolerance 1000 1007.
Proof.
  apply (proj1 similar_relative_error 1000 1007).
  - lia.
  - apply Z.lt_le_incl. change (Z.abs (1000 - 1007)) with 7.
    apply Z.lt_trans with (2 ^ 3); [reflexivity |].
    apply Z.pow_lt_mono_r; lia.
Defined.

(** C3, corrected. There is no zero policy in [similar]: with a zero
    reference the division raises, also when the estimate is zero. *)
Lemma similar_zero_policy_counterexample :
  similar 0 0 <> Ok true /\ similar 1 0 = Raise ZeroDivisionError.
Proof. split; [discriminate | reflexivity]. Qed.

(** C3, as amended. When the reference value is zero [similar] raises
    [ZeroDivisionError] for every estimate, zero included. *)
Theorem similar_zero_raises (estimate : Z) :
  similar estimate 0 = Raise ZeroDivisionError.
Proof. reflexivity. Qed.

(** ** The percentile estimator *)

Lemma insert_perm x l : Permutation (insert x l) (x :: l).
Proof.
  induction l as [| y ys IH]; cbn [insert]; [reflexivity |].
  destruct (x <=? y); [reflexivity |].
  rewrite IH. apply perm_swap.
Qed.

Lemma sort_perm l : Permutation (sort l) l.
Proof.
  induction l as [| x xs IH]; cbn [sort]; [reflexivity |].
  rewrite insert_perm. apply perm_skip. exact IH.
Qed.

Lemma sort_length l : List.length (sort l) = List.length l.
Proof. apply Permutation_length, sort_perm. Qed.

Lemma insert_hdrel a x l :
  a <= x -> HdRel Z.le a l -> HdRel Z.le a (insert x l).
Proof.
  intros Hax H. destruct l as [| y ys]; cbn [insert].
  - constructor. exact Hax.
  - destruct (x <=? y); constructor; [exact Hax |].
    inversion H; assumption.
Qed.

Lemma insert_sorted x l : Sorted Z.le l -> Sorted Z.le (insert x l).
Proof.
  induction 1 as [| y ys Hs IH Hd]; cbn [insert].
  - repeat constructor.
  - destruct (Z.leb_spec x y) as [L | L].
    + constructor; [constructor; assumption | constructor; exact L].
    + constructor; [exact IH |]. apply insert_hdrel; [lia | exact Hd].
Qed.

Lemma sort_sorted l : Sorted Z.le (sort l).
Proof.
  induction l as [| x xs IH]; cbn [sort]; [constructor |].
  apply insert_sorted. exact IH.
Qed.

Lemma list_index_in_range l i :
  0 <= i < Z.of_nat (List.length l) ->
  list_index l i = Ok (nth (Z.to_nat i) l 0).
Proof.
  intros [H0 H1]. unfold list_index.
  destruct (Z.leb_spec 0 i); [| lia].
  destruct (Z.ltb_spec i (Z.of_nat (List.length l))); [reflexivity | lia].
Qed.

Lemma percentile_index_max rank : percentile_index rank = Z.max (rank - 1) 0.
Proof. unfold percentile_index. destruct (Z.gtb_spec rank 0); lia. Qed.

Lemma bind_lift_ok {A B : Type} (a : A) (f : A -> M B) :
  bind (lift (Ok a)) f = f a.
Proof. unfold bind, lift. destruct (f a). reflexivity. Qed.

(** The comparison that [check_latencies] makes for a percentile is
    against this reference. *)
Lemma check_percentile_reference lat latencies ptiles this_iter percentile
  value :
  reference latencies percentile = Ok value ->
  exists rank,
    percentile_rank percentile (List.length latencies) = Ok rank /\
    check_percentile lat latencies ptiles this_iter percentile =
      (fio_val <- lift (dict_get ptiles percentile) ;;
       delta <- lift (int_truediv (Z.abs (fio_val - value)) value) ;;
       ok <- lift (similar fio_val value) ;;
       if negb ok
       then print (PercentileError lat percentile fio_val value delta) ;;
            print (RankIndex rank (percentile_index rank)) ;;
            ret false
       else ret this_iter).
Proof.
  unfold reference, check_percentile.
  destruct (percentile_rank percentile (List.length latencies))
    as [rank | e]; [| discriminate].
  cbn [rbind]. intros H. exists rank. split; [reflexivity |].
  rewrite bind_lift_ok. cbv zeta. rewrite H. rewrite bind_lift_ok.
  reflexivity.
Qed.

(** C1, corrected. The rank is computed in binary64, and the rounding of
    [float(p)/100] and of its product with [n] can put it one above the
    exact [ceil(p/100 * n)]. For the samples 1..1000 and the default
    percentile 99.9, [99.9/100*1000] evaluates to [999.0000000000001]:
    the code takes rank 1000 and returns 1000, where the exact formula
    gives rank 999 and the sample 999. For the samples 1..100 and the
    percentile 7, [7.0/100*100] evaluates to [7.000000000000001]: the
    code returns 8, the formula 7. *)
Lemma reference_exact_rank_counterexample :
  (decimal_of_string "99.900000" = Some (99900000 # 1000000) /\
   (0 < 99900000 # 1000000 <= 100)%Q /\
   reference (sort (map Z.of_nat (seq 1 1000))) "99.900000" = Ok 1000 /\
   spec_estimate (map Z.of_nat (seq 1 1000)) (99900000 # 1000000) = 999) /\
  (decimal_of_string "7.000000" = Some (7000000 # 1000000) /\
   (0 < 7000000 # 1000000 <= 100)%Q /\
   reference (sort (map Z.of_nat (seq 1 100))) "7.000000" = Ok 8 /\
   spec_estimate (map Z.of_nat (seq 1 100)) (7000000 # 1000000) = 7).
Proof.
  split; (split; [vm_compute; reflexivity |]);
    (split; [split; [reflexivity | discriminate] |]);
    split; vm_compute; reflexivity.
Qed.

(** C1, as amended. For every non-empty sample sequence (of fewer than
    [2^53] samples) and every percentile label denoting [p] in (0,100],
    the reference value is [S_sorted[max(rank - 1, 0)]], where [S_sorted]
    is the ascending arrangement of the samples and [rank] is the ceiling
    of [float(p)/100 * n] evaluated in binary64; the rank lies in [0, n],
    so the index is always in range, and for fewer than [2^50] samples
    it is within one of the exact [ceil(p/100 * n)]. *)
Theorem reference_nearest_rank (samples : list Z) (percentile : string) (p : Q) :
  samples <> [] -> Z.of_nat (List.length samples) < 2 ^ 53 ->
  decimal_of_string percentile = Some p -> (0 < p <= 100)%Q ->
  exists rank,
    percentile_rank percentile (List.length samples) = Ok rank /\
    0 <= rank <= Z.of_nat (List.length samples) /\
    reference (sort samples) percentile
    = Ok (nth (Z.to_nat (Z.max (rank - 1) 0)) (sort samples) 0) /\
    In (nth (Z.to_nat (Z.max (rank - 1) 0)) (sort samples) 0) samples /\
    Sorted Z.le (sort samples) /\ Permutation (sort samples) samples /\
    (Z.of_nat (List.length samples) < 2 ^ 50 ->
     Z.abs (rank - spec_rank p (List.length samples)) <= 1).
Proof.
  intros Hne Hlen Hdec [Hp0 Hp1].
  destruct (percentile_rank_range percentile p (List.length samples) Hdec
              ltac:(split; lra) Hlen) as (rank & Hrank & Hr0 & Hr1).
  assert (0 < Z.of_nat (List.length samples)) as Hpos
    by (destruct samples; [congruence | cbn [List.length]; lia]).
  assert (0 <= Z.max (rank - 1) 0 < Z.of_nat (List.length (sort samples)))
    as Hidx by (rewrite sort_length; lia).
  exists rank. split; [exact Hrank |]. split; [lia |].
  split; [| split; [| split; [apply sort_sorted |
                                split; [apply sort_perm |]]]].
  - unfold reference. rewrite sort_length, Hrank. cbn [rbind].
    rewrite percentile_index_max. apply list_index_in_range. exact Hidx.
  - apply (Permutation_in _ (sort_perm samples)). apply nth_In. lia.
  - intros H50.
    apply (percentile_rank_near percentile p _ rank Hdec); [split; lra | |];
      assumption.
Qed.

Lemma reference_nearest_rank_witness :
  exists rank,
    percentile_rank "50.000000" 3 = Ok rank /\
    0 <= rank <= 3 /\
    reference (sort [30; 10; 20]) "50.000000"
    = Ok (nth (Z.to_nat (Z.max (rank - 1) 0)) (sort [30; 10; 20]) 0) /\
    In (nth (Z.to_nat (Z.max (rank - 1) 0)) (sort [30; 10; 20]) 0)
       [30; 10; 20] /\
    Sorted Z.le (sort [30; 10; 20]) /\
    Permutation (sort [30; 10; 20]) [30; 10; 20] /\
    (3 < 2 ^ 50 ->
     Z.abs (rank - spec_rank (50000000 # 1000000) 3) <= 1).
Proof.
  apply (reference_nearest_rank [30; 10; 20] "50.000000" (50000000 # 1000000)).
  - discriminate.
  - reflexivity.
  - vm_compute. reflexivity.
  - split; [reflexivity | discriminate].
Defined.

(** ** The histogram consistency checker *)

Lemma fold_min_spec l x :
  let m := fold_left Z.min l x in
  (m = x \/ In m l) /\ m <= x /\ forall k, In k l -> m <= k.
Proof.
  revert x. induction l as [| y ys IH]; intros x; cbn [fold_left].
  - split; [left; reflexivity |]. split; [lia | intros k []].
  - destruct (IH (Z.min x y)) as ([E | I] & L & A).
    + split; [| split].
      * destruct (Z.min_spec x y) as [[_ M] | [_ M]]; rewrite M in *;
          [left; exact E | right; left; symmetry; exact E].
      * lia.
      * intros k [<- | Hk]; [lia | apply A; exact Hk].
    + split; [right; right; exact I |]. split; [lia |].
      intros k [<- | Hk]; [lia | apply A; exact Hk].
Qed.

Lemma fold_max_spec l x :
  let m := fold_left Z.max l x in
  (m = x \/ In m l) /\ x <= m /\ forall k, In k l -> k <= m.
Proof.
  revert x. induction l as [| y ys IH]; intros x; cbn [fold_left].
  - split; [left; reflexivity |]. split; [lia | intros k []].
  - destruct (IH (Z.max x y)) as ([E | I] & L & A).
    + split; [| split].
      * destruct (Z.max_spec x y) as [[_ M] | [_ M]]; rewrite M in *;
          [right; left; symmetry; exact E | left; exact E].
      * lia.
      * intros k [<- | Hk]; [lia | apply A; exact Hk].
    + split; [right; right; exact I |]. split; [lia |].
      intros k [<- | Hk]; [lia | apply A; exact Hk].
Qed.

(** [min] and [max] return the least and the greatest element. *)
Lemma py_min_spec l m :
  py_min l = Ok m -> In m l /\ forall k, In k l -> m <= k.
Proof.
  destruct l as [| x xs]; [discriminate |]. cbn [py_min].
  intros E. injection E as <-.
  destruct (fold_min_spec xs x) as ([E | I] & L & A).
  - split; [left; symmetry; exact E |].
    intros k [<- | Hk]; [exact L | apply A; exact Hk].
  - split; [right; exact I |].
    intros k [<- | Hk]; [exact L | apply A; exact Hk].
Qed.

Lemma py_max_spec l m :
  py_max l = Ok m -> In m l /\ forall k, In k l -> k <= m.
Proof.
  destruct l as [| x xs]; [discriminate |]. cbn [py_max].
  intros E. injection E as <-.
  destruct (fold_max_spec xs x) as ([E | I] & L & A).
  - split; [left; symmetry; exact E |].
    intros k [<- | Hk]; [exact L | apply A; exact Hk].
  - split; [right; exact I |].
    intros k [<- | Hk]; [exact L | apply A; exact Hk].
Qed.








Example scenario_B_passes : check_jsonplus (scenario_B 10) = ([], Ok true).
Proof. vm_compute. reflexivity. Qed.

(** ** The cross-encoding validator *)

Lemma split_cons_char sep c s :
  Ascii.eqb c sep = false ->
  split sep (String c s) =
    match split sep s with
    | [] => [String c EmptyString]
    | l :: ls => String c l :: ls
    end.
Proof. intros H. cbn [split]. rewrite H. reflexivity. Qed.

Lemma split_nonempty sep s : split sep s <> [].
Proof.
  destruct s as [| c s]; cbn [split]; [discriminate |].
  destruct (Ascii.eqb c sep); [discriminate |].
  destruct (split sep s); discriminate.
Qed.

(** Splitting [a ++ sep ++ b] where [a] holds no separator. *)
Lemma split_app sep a b :
  split sep a = [a] ->
  split sep (a ++ String sep b) = a :: split sep b.
Proof.
  revert b. induction a as [| c a IH]; intros b H.
  - cbn [append split]. rewrite Ascii.eqb_refl. reflexivity.
  - cbn [append]. cbn [split] in H |- *.
    destruct (Ascii.eqb c sep) eqn:Ec.
    + exfalso. destruct (split sep a); discriminate.
    + assert (split sep a = [a]) as Ha.
      { pose proof (split_nonempty sep a) as Hn.
        destruct (split sep a) as [| l ls]; [congruence |].
        injection H as -> ->. reflexivity. }
      rewrite (IH b Ha). reflexivity.
Qed.

Lemma digit_not_percent c d : digit_of c = Some d -> Ascii.eqb c "%" = false.
Proof.
  unfold digit_of. intros H.
  destruct (Ascii.eqb_spec c "%"%char) as [-> | _]; [| reflexivity].
  vm_compute in H. discriminate.
Qed.

Lemma digits_no_percent s acc v :
  digits_value acc s = Some v -> split "%" s = [s].
Proof.
  revert acc. induction s as [| c s IH]; intros acc H; [reflexivity |].
  cbn [digits_value] in H. destruct (digit_of c) as [d |] eqn:Ed;
    [| discriminate].
  rewrite split_cons_char by (eapply digit_not_percent; exact Ed).
  rewrite (IH _ H). reflexivity.
Qed.

Lemma strip_sign_cases s neg body :
  strip_sign s = (neg, body) ->
  s = body \/ s = String "-" body \/ s = String "+" body.
Proof.
  unfold strip_sign. destruct s as [| c s].
  - intros [= <- <-]. left. reflexivity.
  - destruct c as [[] [] [] [] [] [] [] []]; intros [= <- <-]; auto.
Qed.

(** A numeral that [int] accepts holds no ['%']. *)
Lemma int_no_percent s v : int_of_string s = Ok v -> split "%" s = [s].
Proof.
  unfold int_of_string. destruct (strip_sign s) as [neg body] eqn:E.
  intros H.
  assert (split "%" body = [body]) as Hb.
  { destruct body as [| c' body']; [discriminate |].
    destruct (digits_value 0 (String c' body')) eqn:Ed; [| discriminate].
    eapply digits_no_percent. exact Ed. }
  destruct (strip_sign_cases s neg body E) as [-> | [-> | ->]].
  - exact Hb.
  - rewrite split_cons_char by reflexivity. rewrite Hb. reflexivity.
  - rewrite split_cons_char by reflexivity. rewrite Hb. reflexivity.
Qed.

(** One well-formed field against a structured value below [2^53]. *)
Lemma check_terse_field_exact jsondata retval field terse_val json_ns :
  terse_field jsondata field terse_val json_ns -> 0 <= json_ns < 2 ^ 53 ->
  exists out,
    check_terse_field jsondata retval field =
      (out, Ok (retval && (terse_val =? spec_microseconds json_ns))).
Proof.
  intros (pct & digits & -> & Hpct & Hint & Hget) Hv.
  unfold check_terse_field.
  change (pct ++ "%=" ++ digits)%string
    with (pct ++ String "%" (String "=" digits))%string.
  rewrite (split_app "%" pct _ Hpct).
  rewrite (split_cons_char "%" "=" digits eq_refl).
  rewrite (int_no_percent digits terse_val Hint).
  cbn [hd nth_error lift bind app drop_first].
  rewrite Hint, Hget. cbn [bind app].
  rewrite (floor_truediv_1000 json_ns Hv). cbn [bind app].
  unfold spec_microseconds.
  destruct (terse_val =? json_ns / 1000); cbn [negb print ret bind app].
  - eexists. rewrite andb_true_r. reflexivity.
  - eexists. rewrite andb_false_r. reflexivity.
Qed.

Lemma check_terse_loop jsondata terse parsed :
  Forall2 (fun field tv => terse_field jsondata field (fst tv) (snd tv) /\
                           0 <= snd tv < 2 ^ 53) terse parsed ->
  forall retval, exists out,
    foldM (check_terse_field jsondata) retval terse =
      (out, Ok (retval &&
                forallb (fun tv => fst tv =? spec_microseconds (snd tv)) parsed)).
Proof.
  induction 1 as [| field [tv v] terse parsed [Hf Hv] _ IH]; intros retval.
  - exists []. cbn. rewrite andb_true_r. reflexivity.
  - cbn [foldM forallb fst snd] in *.
    destruct (check_terse_field_exact jsondata retval field tv v Hf Hv)
      as (out1 & ->).
    destruct (IH (retval && (tv =? spec_microseconds v))) as (out2 & E).
    cbn [bind]. rewrite E. exists (out1 ++ out2).
    rewrite andb_assoc. reflexivity.
Qed.

(** C6, corrected. The structured value is divided by 1000 in binary64
    before the floor, so for large values the result is not the integer
    floor division: [17592186044416999 / 1000] evaluates to
    [17592186044417.0] (floats of this size are [2^-8] apart), and the
    code accepts the condensed value 17592186044417, one above the
    floor. *)
Lemma check_terse_floor_counterexample :
  check_terse ["99.000000%=17592186044417"%string]
              [("99.000000"%string, 17592186044416999)] = ([], Ok true) /\
  17592186044417 <> spec_microseconds 17592186044416999.
Proof. split; [vm_compute; reflexivity | vm_compute; congruence]. Qed.

(** C6, as amended. When every condensed field has the form
    "<percentile-label>%=<value>", its label is a key of the structured
    report and the structured values lie in [0, 2^53), [check_terse]
    returns [True] if and only if every condensed value equals the
    integer floor division by 1000 of the corresponding structured value
    (exact equality, no tolerance). *)
Theorem check_terse_exact (terse : list string) (jsondata : dict)
  (parsed : list (Z * Z)) :
  Forall2 (fun field tv => terse_field jsondata field (fst tv) (snd tv) /\
                           0 <= snd tv < 2 ^ 53) terse parsed ->
  exists out,
    check_terse terse jsondata =
      (out, Ok (forallb (fun tv => fst tv =? spec_microseconds (snd tv))
                        parsed)).
Proof.
  intros H. destruct (check_terse_loop jsondata terse parsed H true)
    as (out & E).
  exists out. exact E.
Qed.

Lemma check_terse_exact_witness :
  exists out,
    check_terse ["99.000000%=1234"%string; "99.500000%=1235"%string]
                [("99.000000"%string, 1234000); ("99.500000"%string, 1234999)]
    = (out, Ok (forallb (fun tv => fst tv =? spec_microseconds (snd tv))
                        [(1234, 1234000); (1235, 1234999)])).
Proof.
  apply (check_terse_exact _ _ [(1234, 1234000); (1235, 1234999)]).
  apply Forall2_cons; [| apply Forall2_cons; [| apply Forall2_nil]].
  - split; [| split; [discriminate | reflexivity]].
    exists "99.000000"%string, "1234"%string. repeat split; reflexivity.
  - split; [| split; [discriminate | reflexivity]].
    exists "99.500000"%string, "1235"%string. repeat split; reflexivity.
Defined.

(** ** The direction validator *)

(** *** Sequencing *)

Lemma bind_ok {A B : Type} (m : M A) (f : A -> M B) out a :
  m = (out, Ok a) -> bind m f = (out ++ fst (f a), snd (f a)).
Proof. intros ->. unfold bind. destruct (f a). reflexivity. Qed.

Lemma bind_raise {A B : Type} (m : M A) (f : A -> M B) out e :
  m = (out, Raise e) -> bind m f = (out, Raise e).
Proof. intros ->. reflexivity. Qed.

(** The result of a sequence is the result of its second part, unless
    the first part raises. *)
Lemma bind_result {A B : Type} (m : M A) (f : A -> M B) :
  (exists a, snd m = Ok a /\ snd (bind m f) = snd (f a)) \/
  (exists e, snd m = Raise e /\ snd (bind m f) = Raise e).
Proof.
  destruct m as [out [a | e]].
  - left. exists a. split; [reflexivity |]. cbn [bind]. destruct (f a).
    reflexivity.
  - right. exists e. split; reflexivity.
Qed.

(** The output of a sequence starts with the output of its first part. *)
Lemma bind_output {A B : Type} (m : M A) (f : A -> M B) :
  exists rest, fst (bind m f) = fst m ++ rest.
Proof.
  destruct m as [out [a | e]]; cbn [bind fst].
  - destruct (f a) as [out' r]. exists out'. reflexivity.
  - exists []. rewrite app_nil_r. reflexivity.
Qed.

Lemma fails_not_true m : fails m -> forall out, m <> (out, Ok true).
Proof.
  intros [E | [e E]] out C; rewrite C in E; discriminate.
Qed.

Lemma fails_verdict m out b : fails m -> m = (out, Ok b) -> b = false.
Proof.
  intros [E | [e E]] C; rewrite C in E; cbn [snd] in E; congruence.
Qed.

Lemma fails_bind {A : Type} (m : M A) (f : A -> M bool) :
  (forall a, snd m = Ok a -> fails (f a)) -> fails (bind m f).
Proof.
  intros H. unfold fails.
  destruct (bind_result m f) as [(a & Ea & ->) | (e & _ & ->)].
  - apply H. exact Ea.
  - right. exists e. reflexivity.
Qed.

(** *** The loop over the percentiles *)

(** A percentile check never turns [this_iter] back to [True]. *)
Lemma check_percentile_false lat latencies ptiles percentile :
  fails (check_percentile lat latencies ptiles false percentile).
Proof.
  unfold check_percentile.
  repeat (apply fails_bind; intros ? _).
  match goal with |- fails (if negb ?b then _ else _) => destruct b end;
    left; reflexivity.
Qed.

Lemma percentile_loop_false lat latencies ptiles l :
  fails (foldM (check_percentile lat latencies ptiles) false l).
Proof.
  induction l as [| pct l IH]; cbn [foldM]; [left; reflexivity |].
  apply fails_bind. intros b Hb.
  destruct (check_percentile_false lat latencies ptiles pct) as [E | [e E]];
    rewrite E in Hb; [| discriminate].
  injection Hb as <-. exact IH.
Qed.

(** *** The loop over the latency types *)

(** Once [retval] is [False] it stays so. *)
Lemma check_latency_type_false logs jsondata ddir slat clat tlat plus unified lat :
  fails (check_latency_type logs jsondata ddir slat clat tlat plus unified
                            false lat).
Proof.
  unfold check_latency_type.
  destruct (negb (types slat clat tlat lat)).
  - destruct (js_percentile (stats_of jsondata lat)); left; reflexivity.
  - repeat (apply fails_bind; intros ? _).
    match goal with |- fails (if ?b then _ else _) => destruct b end;
      left; reflexivity.
Qed.

Lemma types_loop_false logs jsondata ddir slat clat tlat plus unified l :
  fails (foldM (check_latency_type logs jsondata ddir slat clat tlat plus
                                   unified) false l).
Proof.
  induction l as [| lat l IH]; cbn [foldM]; [left; reflexivity |].
  apply fails_bind. intros b Hb.
  destruct (check_latency_type_false logs jsondata ddir slat clat tlat plus
              unified lat) as [E | [e E]];
    rewrite E in Hb; [| discriminate].
  injection Hb as <-. exact IH.
Qed.

(** If the iteration of one latency type fails, so does the call. *)
Lemma check_latencies_fails logs jsondata ddir slat clat tlat plus unified lat :
  (forall retval,
      fails (check_latency_type logs jsondata ddir slat clat tlat plus unified
                                retval lat)) ->
  fails (check_latencies logs jsondata ddir slat clat tlat plus unified).
Proof.
  intros H. unfold check_latencies.
  assert (forall l retval,
            In lat l ->
            fails (foldM (check_latency_type logs jsondata ddir slat clat tlat
                                             plus unified) retval l)) as Loop.
  { induction l as [| t l IH]; intros retval Hin; [destruct Hin |].
    cbn [foldM]. apply fails_bind. intros b Hb.
    destruct Hin as [-> | Hin].
    - destruct (H retval) as [E | [e E]]; rewrite E in Hb; [| discriminate].
      injection Hb as <-. apply types_loop_false.
    - apply IH. exact Hin. }
  apply Loop. destruct lat; cbn; auto.
Qed.

(** An enabled type whose [this_iter] is [False] when the percentiles
    are reached fails. *)
Lemma percentile_checks_false lat js latencies :
  fails (percentile_checks lat js latencies false).
Proof.
  unfold percentile_checks. apply fails_bind. intros ptiles _.
  apply percentile_loop_false.
Qed.

Lemma iteration_tail_fails lat js latencies retval :
  fails (this_iter <- percentile_checks lat js latencies false ;;
         if this_iter then print (PercentilesMatch lat) ;; ret retval
         else ret false).
Proof.
  apply fails_bind. intros b Hb.
  destruct (percentile_checks_false lat js latencies) as [E | [e E]];
    rewrite E in Hb; [| discriminate].
  injection Hb as <-. left. reflexivity.
Qed.

(** *** Runs to a verdict *)

Lemma pow2_1023_double : 2 ^ 1023 = 2 * 2 ^ 1022.
Proof. change 1023 with (Z.succ 1022). apply Z.pow_succ_r. lia. Qed.

Lemma similar_returns estimate actual :
  0 < actual <= 2 ^ 1022 -> Z.abs estimate <= 2 ^ 1022 ->
  (exists delta,
      int_truediv (Z.abs (estimate - actual)) actual = Ok delta) /\
  (exists verdict, similar estimate actual = Ok verdict).
Proof.
  intros [Ha Hb] He.
  assert (0 <= Z.abs (estimate - actual) <= 2 ^ 1023) as Hd.
  { rewrite pow2_1023_double. generalize dependent (2 ^ 1022). intros. lia. }
  unfold similar. rewrite (int_truediv_finite _ _ Ha Hd).
  split; eexists; reflexivity.
Qed.

Lemma dict_get_in d k v : dict_get d k = Ok v -> In (k, v) d.
Proof.
  induction d as [| [k' v'] d IH]; cbn [dict_get]; [discriminate |].
  destruct (String.eqb_spec k' k) as [-> | _].
  - intros [= ->]. left. reflexivity.
  - intros H. right. apply IH. exact H.
Qed.

Lemma dict_get_key d k : In k (keys d) -> exists v, dict_get d k = Ok v.
Proof.
  induction d as [| [k' v'] d IH]; cbn [keys map fst dict_get];
    [intros [] |].
  destruct (String.eqb_spec k' k) as [-> | Hne].
  - intros _. eexists. reflexivity.
  - intros [E | Hin]; [contradiction |]. apply IH. exact Hin.
Qed.

Lemma map_result_total {A B : Type} (f : A -> result B) l :
  (forall x, In x l -> exists y, f x = Ok y) ->
  exists ys, map_result f l = Ok ys.
Proof.
  induction l as [| x xs IH]; intros H; cbn [map_result];
    [eexists; reflexivity |].
  destruct (H x (or_introl eq_refl)) as (y & ->).
  destruct IH as (ys & ->); [intros z Hz; apply H; right; exact Hz |].
  eexists. reflexivity.
Qed.

(** One percentile check runs to its verdict. *)
Lemma check_percentile_returns lat latencies ptiles this_iter percentile :
  samples_ok latencies -> ptiles_ok ptiles -> In percentile (keys ptiles) ->
  exists out verdict,
    check_percentile lat latencies ptiles this_iter percentile
    = (out, Ok verdict).
Proof.
  intros (Hne & Hlen & Hpos) Hpt Hin.
  destruct (dict_get_key ptiles percentile Hin) as (fio_val & Hget).
  pose proof (dict_get_in _ _ _ Hget) as Hpair.
  unfold ptiles_ok in Hpt. rewrite Forall_forall in Hpt.
  destruct (Hpt _ Hpair) as ((p & Hdec & Hp) & Hv). cbn [fst snd] in *.
  destruct (percentile_rank_range percentile p (List.length latencies)
              Hdec Hp Hlen) as (rank & Hrank & Hr0 & Hr1).
  assert (0 < Z.of_nat (List.length latencies)) as Hn
    by (destruct latencies; [congruence | cbn [List.length]; lia]).
  unfold check_percentile. rewrite Hrank. cbn [lift bind app].
  rewrite percentile_index_max.
  rewrite list_index_in_range by lia. cbn [bind app].
  set (value := nth _ latencies 0).
  assert (0 < value <= 2 ^ 1022) as Hvalue.
  { rewrite Forall_forall in Hpos. apply Hpos. apply nth_In. lia. }
  rewrite Hget. cbn [bind app].
  destruct (similar_returns fio_val value Hvalue Hv)
    as ((delta & ->) & (ok & ->)).
  cbn [bind app].
  destruct ok; cbn [negb print ret bind app]; eexists; eexists; reflexivity.
Qed.

Lemma percentile_loop_returns lat latencies ptiles l :
  samples_ok latencies -> ptiles_ok ptiles -> incl l (keys ptiles) ->
  forall this_iter, exists out verdict,
    foldM (check_percentile lat latencies ptiles) this_iter l
    = (out, Ok verdict).
Proof.
  intros Hs Hp. induction l as [| pct l IH]; intros Hincl this_iter.
  - eexists; eexists; reflexivity.
  - cbn [foldM].
    destruct (check_percentile_returns lat latencies ptiles this_iter pct
                Hs Hp (Hincl pct (or_introl eq_refl))) as (out1 & b1 & ->).
    destruct (IH (fun x Hx => Hincl x (or_intror Hx)) b1) as (out2 & b2 & E).
    cbn [bind]. rewrite E. eexists; eexists; reflexivity.
Qed.

Lemma samples_ok_sort latencies : samples_ok latencies -> samples_ok (sort latencies).
Proof.
  intros (Hne & Hlen & Hpos). split; [| split].
  - intros E. apply Hne. apply Permutation_nil.
    rewrite <- E. apply sort_perm.
  - rewrite sort_length. exact Hlen.
  - apply (Permutation_Forall (Permutation_sym (sort_perm latencies))).
    exact Hpos.
Qed.

(** The histogram checker runs to its verdict. *)
Lemma check_jsonplus_returns js :
  bins_ok js -> exists out verdict, check_jsonplus js = (out, Ok verdict).
Proof.
  intros (b & ks & Hb & Hks & Hne & Hpos & Hmin & Hmax).
  unfold check_jsonplus. rewrite Hb. cbn [lift bind app]. rewrite Hks.
  cbn [bind app].
  destruct (map_result_total (dict_get b) (keys b)
              (fun x Hx => dict_get_key b x Hx)) as (vs & ->).
  cbn [bind app].
  destruct ks as [| k0 ks']; [congruence |].
  destruct (py_min (k0 :: ks')) as [smallest |] eqn:Emin; [| discriminate].
  destruct (py_max (k0 :: ks')) as [biggest |] eqn:Emax; [| discriminate].
  cbn [bind app].
  rewrite Forall_forall in Hpos.
  pose proof (Hpos _ (proj1 (py_min_spec _ _ Emin))) as Hs.
  pose proof (Hpos _ (proj1 (py_max_spec _ _ Emax))) as Hg.
  destruct (similar_returns (js_min js) smallest Hs Hmin) as (_ & (o1 & ->)).
  destruct (similar_returns (js_max js) biggest Hg Hmax) as (_ & (o2 & ->)).
  cbn [bind app].
  destruct o1, o2, (sum vs =? js_N js); cbn; eexists; eexists; reflexivity.
Qed.

Lemma bins_gate_returns js plus this_iter :
  (plus = true -> js_bins js <> None -> bins_ok js) ->
  exists out verdict, bins_gate js plus this_iter = (out, Ok verdict).
Proof.
  intros H. unfold bins_gate. destruct plus.
  - destruct (js_bins js) as [b |] eqn:Eb.
    + destruct (check_jsonplus_returns js) as (out & ok & ->).
      { apply H; [reflexivity | rewrite ?Eb; discriminate]. }
      eexists; eexists; reflexivity.
    + eexists; eexists; reflexivity.
  - destruct (js_bins js); eexists; eexists; reflexivity.
Qed.

Lemma count_check_returns lat jsondata latencies this_iter :
  exists out verdict,
    count_check lat jsondata latencies this_iter = (out, Ok verdict).
Proof.
  unfold count_check.
  destruct (negb _); eexists; eexists; reflexivity.
Qed.

Lemma percentile_checks_returns lat js latencies ptiles this_iter :
  js_percentile js = Some ptiles -> ptiles_ok ptiles -> samples_ok latencies ->
  exists out verdict,
    percentile_checks lat js latencies this_iter = (out, Ok verdict).
Proof.
  intros Hp Hok Hs. unfold percentile_checks. rewrite Hp.
  cbn [lift bind app].
  destruct (percentile_loop_returns lat (sort latencies) ptiles (keys ptiles)
              (samples_ok_sort _ Hs) Hok (incl_refl _) this_iter)
    as (out & b & ->).
  eexists; eexists; reflexivity.
Qed.

(** One iteration of [check_latencies] runs to its verdict: always for a
    disabled type, and on well-formed input for an enabled one. *)
Lemma check_latency_type_returns logs jsondata ddir slat clat tlat plus
  unified retval lat :
  (types slat clat tlat lat = true -> type_ok logs jsondata ddir plus unified lat) ->
  exists out verdict,
    check_latency_type logs jsondata ddir slat clat tlat plus unified retval lat
    = (out, Ok verdict).
Proof.
  intros H. unfold check_latency_type.
  destruct (types slat clat tlat lat); cbn [negb].
  - destruct (H eq_refl) as ((ptiles & Hp & Hok) & Hs & Hb).
    unfold presence_gate. rewrite Hp. cbn [ret bind app].
    destruct (bins_gate_returns (stats_of jsondata lat) plus true Hb)
      as (o1 & b1 & ->). cbn [bind].
    destruct (count_check_returns lat jsondata
                (load_latencies (logs lat) ddir unified) b1) as (o2 & b2 & E2).
    rewrite E2. cbn [bind].
    destruct (percentile_checks_returns lat (stats_of jsondata lat)
                (load_latencies (logs lat) ddir unified) ptiles b2 Hp Hok Hs)
      as (o3 & b3 & E3).
    rewrite E3. cbn [bind].
    destruct b3; cbn; eexists; eexists; reflexivity.
  - destruct (js_percentile (stats_of jsondata lat));
      eexists; eexists; reflexivity.
Qed.

(** [check_latencies] runs to its verdict when every enabled type is
    well formed. *)
Lemma check_latencies_returns logs jsondata ddir slat clat tlat plus unified :
  (forall lat, types slat clat tlat lat = true ->
               type_ok logs jsondata ddir plus unified lat) ->
  exists out verdict,
    check_latencies logs jsondata ddir slat clat tlat plus unified
    = (out, Ok verdict).
Proof.
  intros H. unfold check_latencies. cbn [foldM].
  destruct (check_latency_type_returns logs jsondata ddir slat clat tlat plus
              unified true Slat (H Slat)) as (o1 & b1 & ->). cbn [bind].
  destruct (check_latency_type_returns logs jsondata ddir slat clat tlat plus
              unified b1 Clat (H Clat)) as (o2 & b2 & ->). cbn [bind].
  destruct (check_latency_type_returns logs jsondata ddir slat clat tlat plus
              unified b2 Lat (H Lat)) as (o3 & b3 & ->). cbn [bind ret].
  eexists; eexists; reflexivity.
Qed.

(** A call that runs to its verdict and fails returns [False]. *)
Lemma returns_fails_false (m : M bool) :
  (exists out verdict, m = (out, Ok verdict)) -> fails m ->
  exists out, m = (out, Ok false).
Proof.
  intros (out & b & E) F. exists out.
  rewrite (fails_verdict m out b F E) in E. exact E.
Qed.


(** *** Presence gating *)

(** A disabled type never changes the verdict: its iteration prints one
    line and leaves [retval] as it was. *)
Lemma disabled_type_keeps_retval logs jsondata ddir slat clat tlat plus unified
  retval lat :
  types slat clat tlat lat = false ->
  exists d,
    check_latency_type logs jsondata ddir slat clat tlat plus unified retval lat
    = ([d], Ok retval).
Proof.
  intros H. unfold check_latency_type. rewrite H. cbn [negb].
  destruct (js_percentile (stats_of jsondata lat)); eexists; reflexivity.
Qed.

(** An enabled type without percentiles never gets to a verdict. *)
Lemma enabled_type_without_percentiles_raises logs jsondata ddir slat clat tlat
  plus unified retval lat :
  types slat clat tlat lat = true ->
  js_percentile (stats_of jsondata lat) = None ->
  exists e,
    snd (check_latency_type logs jsondata ddir slat clat tlat plus unified
                            retval lat) = Raise e.
Proof.
  intros H Hp. unfold check_latency_type. rewrite H. cbn [negb].
  unfold presence_gate. rewrite Hp.
  match goal with |- exists e, snd (bind ?m ?f) = _ =>
    destruct (bind_result m f) as [(a & _ & ->) | (e & _ & ->)]
  end; [| eexists; reflexivity].
  match goal with |- exists e, snd (bind ?m ?f) = _ =>
    destruct (bind_result m f) as [(a' & _ & ->) | (e & _ & ->)]
  end; [| eexists; reflexivity].
  match goal with |- exists e, snd (bind ?m ?f) = _ =>
    destruct (bind_result m f) as [(a'' & _ & ->) | (e & _ & ->)]
  end; [| eexists; reflexivity].
  unfold percentile_checks. rewrite Hp. eexists. reflexivity.
Qed.

(** C4, a defect of the code. With submission latency disabled and a
    ['percentile'] mapping nonetheless present for it, [check_latencies]
    prints "unexpected slat percentiles found" and returns [True]: the
    [continue] drops the failure. With submission latency enabled and no
    ['percentile'] mapping, it prints "slat percentiles not found" and
    then raises [KeyError] instead of returning [False]. *)
Theorem presence_gating_failing_inputs :
  check_latencies example_logs (report 3 good_stats good_stats good_stats) 0
                  false true true false false
  = ([UnexpectedPercentiles Slat; PercentilesMatch Clat; PercentilesMatch Lat],
     Ok true) /\
  check_latencies example_logs
                  (report 3 (stats_with None None) good_stats good_stats) 0
                  true true true false false
  = ([PercentilesNotFound Slat], Raise KeyError).
Proof. split; vm_compute; reflexivity. Qed.

(** *** The count check and the percentiles after it *)

(** The flag [this_iter] only travels through a percentile check: the
    output and the outcome of the comparison do not depend on it. *)
Lemma check_percentile_this_iter lat latencies ptiles this_iter percentile :
  check_percentile lat latencies ptiles this_iter percentile =
    (fst (check_percentile lat latencies ptiles true percentile),
     match snd (check_percentile lat latencies ptiles true percentile) with
     | Ok ok => Ok (this_iter && ok)
     | Raise e => Raise e
     end).
Proof.
  unfold check_percentile.
  destruct (percentile_rank percentile (List.length latencies)) as [rank | e];
    [| reflexivity].
  cbn [lift bind app].
  destruct (list_index latencies (percentile_index rank)) as [value | e];
    [| reflexivity].
  cbn [bind app].
  destruct (dict_get ptiles percentile) as [fio_val | e]; [| reflexivity].
  cbn [bind app].
  destruct (int_truediv (Z.abs (fio_val - value)) value) as [delta | e];
    [| reflexivity].
  cbn [bind app].
  destruct (similar fio_val value) as [[|] | e]; cbn;
    destruct this_iter; reflexivity.
Qed.

(** When every comparison returns, the loop prints the diagnostics of
    each of them in turn, whatever the flag it starts with. *)
Lemma percentile_loop_output lat latencies ptiles l this_iter :
  Forall (fun pct => exists ok,
              snd (check_percentile lat latencies ptiles true pct) = Ok ok) l ->
  exists verdict,
    foldM (check_percentile lat latencies ptiles) this_iter l =
      (List.concat (map (fun pct =>
                      fst (check_percentile lat latencies ptiles true pct)) l),
       Ok verdict) /\
    (this_iter = false -> verdict = false).
Proof.
  intros H. revert this_iter.
  induction H as [| pct l (ok & Hok) _ IH]; intros this_iter.
  - exists this_iter. split; [reflexivity | auto].
  - cbn [foldM map List.concat].
    rewrite (check_percentile_this_iter lat latencies ptiles this_iter pct).
    rewrite Hok. cbn [bind].
    destruct (IH (this_iter && ok)) as (v & -> & Hv).
    exists v. split; [reflexivity |].
    intros ->. apply Hv. reflexivity.
Qed.










(** The same input, evaluated: the mismatch, then the wrong median
    with its rank and index; the percentile 100 passes in silence. *)
Example total_ios_mismatch_output :
  exists delta,
    check_latency_type example_logs
      (report 2 good_stats good_stats
              (stats_with (Some [("50.000000"%string, 30);
                                 ("100.000000"%string, 30)]) None))
      0 true true true false false true Lat
    = ([TotalIosMismatch Lat 2 3;
        PercentileError Lat "50.000000" 30 20 delta; RankIndex 2 1],
       Ok false).
Proof. eexists. vm_compute. reflexivity. Qed.

(** *** Encoding gating *)

(** C8, corrected. For a disabled latency type the iteration ends before
    the bins are looked at: a histogram present under plain encoding for
    a disabled type does not fail the direction. *)
Lemma encoding_gating_disabled_counterexample :
  js_bins (stats_of (report 3 (stats_with None (Some example_bins))
                            good_stats good_stats) Slat) <> None /\
  check_latencies example_logs
                  (report 3 (stats_with None (Some example_bins))
                          good_stats good_stats) 0
                  false true true false false
  = ([PercentilesSkipped Slat; PercentilesMatch Clat; PercentilesMatch Lat],
     Ok true).
Proof. split; [discriminate | vm_compute; reflexivity]. Qed.

(** C8, as amended. For an enabled latency type, a ['bins'] table present
    under plain encoding ([plus = False]) or absent under extended
    encoding ([plus = True]) fails the direction: [check_latencies] never
    returns [True], and returns [False] whenever it runs to its verdict,
    as it does on well-formed input. *)
Theorem encoding_gating_enabled (logs : lat_type -> list log_line)
  (jsondata : ddir_stats) (ddir : Z) (slat clat tlat plus unified : bool)
  (lat : lat_type) :
  types slat clat tlat lat = true ->
  (plus = false /\ js_bins (stats_of jsondata lat) <> None) \/
  (plus = true /\ js_bins (stats_of jsondata lat) = None) ->
  fails (check_latencies logs jsondata ddir slat clat tlat plus unified) /\
  ((forall t, types slat clat tlat t = true ->
              type_ok logs jsondata ddir plus unified t) ->
   exists out,
     check_latencies logs jsondata ddir slat clat tlat plus unified
     = (out, Ok false)).
Proof.
  intros Hen Hbins.
  assert (fails (check_latencies logs jsondata ddir slat clat tlat plus
                                 unified)) as F.
  { apply (check_latencies_fails _ _ _ _ _ _ _ _ lat). intros retval.
    unfold check_latency_type. rewrite Hen. cbn [negb].
    apply fails_bind. intros b1 _.
    assert (exists d, bins_gate (stats_of jsondata lat) plus b1
                      = ([d], Ok false)) as (d & ->).
    { unfold bins_gate.
      destruct Hbins as [[-> Hb] | [-> Hb]].
      - destruct (js_bins (stats_of jsondata lat)); [| congruence].
        eexists. reflexivity.
      - rewrite Hb. eexists. reflexivity. }
    cbn [bind].
    match goal with |- fails (let (_, _) := bind ?m ?f in _) =>
      pose proof (fails_bind m f) as B; destruct (bind m f) as [o r]
    end.
    destruct B as [E | [e E]].
    - intros b2 Hb2. unfold count_check in Hb2.
      assert (b2 = false) as ->
        by (destruct (negb _) in Hb2; cbn in Hb2; congruence).
      apply iteration_tail_fails.
    - left. exact E.
    - right. exists e. exact E. }
  split; [exact F |].
  intros Hok. apply returns_fails_false; [| exact F].
  apply check_latencies_returns. exact Hok.
Qed.

Lemma example_type_ok plus lat :
  type_ok example_logs (report 3 good_stats good_stats good_stats) 0 plus
          false lat.
Proof.
  assert (forall z, z <= 99 -> z <= 2 ^ 1022) as Small.
  { intros z Hz. apply Z.le_trans with (1 := Hz).
    apply Z.leb_le. vm_compute. reflexivity. }
  split; [| split].
  - exists example_ptiles. split; [destruct lat; reflexivity |].
    repeat constructor; cbn [fst snd];
      try (apply Small; vm_compute; discriminate).
    + exists (50000000 # 1000000). split; [vm_compute; reflexivity |].
      split; discriminate.
    + exists (100000000 # 1000000). split; [vm_compute; reflexivity |].
      split; discriminate.
  - split; [discriminate |]. split; [reflexivity |].
    repeat constructor; try (apply Small; vm_compute; discriminate).
  - intros _ H. exfalso. apply H. destruct lat; reflexivity.
Qed.

Lemma encoding_gating_enabled_witness :
  exists out,
    check_latencies example_logs (report 3 good_stats good_stats good_stats)
                    0 true true true true false
    = (out, Ok false).
Proof.
  apply (proj2 (encoding_gating_enabled example_logs
                  (report 3 good_stats good_stats good_stats) 0
                  true true true true false Clat eq_refl
                  (or_intror (conj eq_refl eq_refl)))).
  intros t _. apply example_type_ok.
Defined.

(** *** Runs to completion *)




(** ** The terse parser *)

(** Splitting and joining again gives the text back. *)
Lemma join_split sep s : join (String sep EmptyString) (split sep s) = s.
Proof.
  induction s as [| c s IH]; [reflexivity |].
  cbn [split]. pose proof (split_nonempty sep s) as Hn.
  destruct (Ascii.eqb_spec c sep) as [-> | _].
  - destruct (split sep s) as [| l ls]; [congruence |].
    cbn [join] in *. rewrite IH. reflexivity.
  - destruct (split sep s) as [| l ls]; [congruence |].
    destruct ls as [| l' ls]; cbn [join] in *; rewrite <- IH; reflexivity.
Qed.

(** No field of a split holds the separator. *)
Lemma split_fields sep s : Forall (fun f => split sep f = [f]) (split sep s).
Proof.
  induction s as [| c s IH]; [repeat constructor |].
  cbn [split]. pose proof (split_nonempty sep s) as Hn.
  destruct (Ascii.eqb c sep) eqn:Ec.
  - constructor; [reflexivity | exact IH].
  - destruct (split sep s) as [| l ls]; [congruence |].
    inversion IH as [| ? ? Hl Hls]; subst.
    constructor; [| exact Hls].
    cbn [split]. rewrite Ec, Hl. reflexivity.
Qed.

Lemma prefix_app p s : String.prefix p s = true -> exists rest, s = (p ++ rest)%string.
Proof.
  revert s. induction p as [| a p IH]; intros s H.
  - exists s. reflexivity.
  - destruct s as [| b s]; [discriminate |]. cbn [String.prefix] in H.
    destruct (ascii_dec a b) as [-> | _]; [| discriminate].
    destruct (IH s H) as (rest & ->). exists rest. reflexivity.
Qed.

Lemma get_terse_loop_first lines k :
  forall a i line,
    (a <= i < a + k)%nat -> nth_error lines i = Some line ->
    String.prefix "3;fio-" line = true ->
    (forall j l, (a <= j < i)%nat -> nth_error lines j = Some l ->
                 String.prefix "3;fio-" l = false) ->
    get_terse_loop lines (seq a k) = Ok (true, inl (split ";" line)).
Proof.
  induction k as [| k IH]; intros a i line Hi Hline Hp Hbefore; [lia |].
  cbn [seq get_terse_loop].
  destruct (Nat.eq_dec a i) as [-> | Hne].
  - rewrite Hline, Hp. reflexivity.
  - assert (a < List.length lines)%nat as Ha.
    { assert (i < List.length lines)%nat
        by (apply nth_error_Some; rewrite Hline; discriminate).
      lia. }
    destruct (nth_error lines a) as [l |] eqn:El;
      [| apply nth_error_None in El; lia].
    rewrite (Hbefore a l ltac:(lia) El).
    apply (IH (S a) i line); [lia | assumption | assumption |].
    intros j l' Hj. apply Hbefore. lia.
Qed.

(** X1. When one of the first eight lines begins with ['3;fio-'],
    [get_terse] returns [True] with the fields of the first such line:
    the first field is ['3'], at least one more follows, no field holds
    a [';'], and joining the fields with [';'] gives the line back. *)
Theorem get_terse_marker_line (file_data : string) (i : nat) (line : string) :
  (i < 8)%nat -> nth_error (splitlines file_data) i = Some line ->
  String.prefix "3;fio-" line = true ->
  (forall j l, (j < i)%nat -> nth_error (splitlines file_data) j = Some l ->
               String.prefix "3;fio-" l = false) ->
  exists fields,
    get_terse file_data = Ok (true, inl ("3"%string :: fields)) /\
    fields <> [] /\
    Forall (fun f => split ";" f = [f]) ("3"%string :: fields) /\
    join ";" ("3"%string :: fields) = line.
Proof.
  intros Hi Hline Hp Hbefore.
  assert (get_terse file_data = Ok (true, inl (split ";" line))) as E.
  { unfold get_terse.
    apply (get_terse_loop_first _ 8 0 i line); [lia | assumption | assumption |].
    intros j l Hj. apply Hbefore. lia. }
  destruct (prefix_app _ _ Hp) as (rest & Hrest).
  assert (split ";" line = "3"%string :: split ";" ("fio-" ++ rest)%string) as S
    by (rewrite Hrest; reflexivity).
  exists (split ";" ("fio-" ++ rest)%string).
  split; [rewrite E, S; reflexivity |].
  split; [apply split_nonempty |].
  split; rewrite <- S; [apply split_fields | apply join_split].
Qed.

Lemma get_terse_marker_line_witness :
  exists fields,
    get_terse (String "b" (String "010" "3;fio-3.1;job;0"))
    = Ok (true, inl ("3"%string :: fields)) /\
    fields <> [] /\
    Forall (fun f => split ";" f = [f]) ("3"%string :: fields) /\
    join ";" ("3"%string :: fields) = "3;fio-3.1;job;0"%string.
Proof.
  apply (get_terse_marker_line _ 1 "3;fio-3.1;job;0").
  - lia.
  - reflexivity.
  - reflexivity.
  - intros j l Hj. replace j with 0%nat by lia.
    intros [= <-]. reflexivity.
Defined.

Lemma get_terse_loop_none lines k :
  forall a,
    (forall j l, (a <= j < a + k)%nat -> nth_error lines j = Some l ->
                 String.prefix "3;fio-" l = false) ->
    ((a + k <= List.length lines)%nat ->
     get_terse_loop lines (seq a k) = Ok (false, inr EmptyString)) /\
    ((a <= List.length lines < a + k)%nat ->
     get_terse_loop lines (seq a k) = Raise IndexError).
Proof.
  induction k as [| k IH]; intros a Hnone.
  - split; [reflexivity | lia].
  - cbn [seq get_terse_loop].
    destruct (nth_error lines a) as [l |] eqn:El.
    + rewrite (Hnone a l ltac:(lia) El).
      assert (a < List.length lines)%nat as Ha
        by (apply nth_error_Some; rewrite El; discriminate).
      destruct (IH (S a)) as [I1 I2];
        [intros j l' Hj; apply Hnone; lia |].
      split; intros H; [apply I1 | apply I2]; lia.
    + apply nth_error_None in El. split; intros H; [lia | reflexivity].
Qed.

Lemma get_terse_loop_false lines k :
  forall a r,
    get_terse_loop lines (seq a k) = Ok (false, r) ->
    r = inr EmptyString /\ (0 < k -> a + k <= List.length lines)%nat.
Proof.
  induction k as [| k IH]; intros a r H.
  - cbn in H. injection H as <-. split; [reflexivity | lia].
  - cbn [seq get_terse_loop] in H.
    destruct (nth_error lines a) as [l |] eqn:El; [| discriminate].
    assert (a < List.length lines)%nat as Ha
      by (apply nth_error_Some; rewrite El; discriminate).
    destruct (String.prefix "3;fio-" l); [discriminate |].
    destruct (IH (S a) r H) as [-> Hk].
    split; [reflexivity |]. intros _.
    destruct k as [| k']; [lia |]. specialize (Hk ltac:(lia)). lia.
Qed.

(** X2. When none of the first eight lines begins with ['3;fio-'],
    [get_terse] returns [(False, '')] for a text of at least eight
    lines and raises [IndexError] for a shorter one; it never returns
    [False] for a text of fewer than eight lines. *)
Theorem get_terse_no_marker (file_data : string) :
  ((forall j l, (j < 8)%nat -> nth_error (splitlines file_data) j = Some l ->
                String.prefix "3;fio-" l = false) ->
   ((8 <= List.length (splitlines file_data))%nat ->
    get_terse file_data = Ok (false, inr EmptyString)) /\
   ((List.length (splitlines file_data) < 8)%nat ->
    get_terse file_data = Raise IndexError)) /\
  (forall r, get_terse file_data = Ok (false, r) ->
             r = inr EmptyString /\
             (8 <= List.length (splitlines file_data))%nat).
Proof.
  split.
  - intros Hnone. unfold get_terse.
    destruct (get_terse_loop_none (splitlines file_data) 8 0) as [H1 H2];
      [intros j l Hj; apply Hnone; lia |].
    split; intros H; [apply H1 | apply H2]; lia.
  - intros r H. unfold get_terse in H.
    destruct (get_terse_loop_false _ 8 0 r H) as [-> Hk].
    split; [reflexivity |]. specialize (Hk ltac:(lia)). lia.
Qed.

Lemma get_terse_no_marker_witness :
  get_terse (String "{" (String "010" "}")) = Raise IndexError.
Proof.
  apply (proj1 (get_terse_no_marker _)).
  - intros j l Hj H.
    destruct j as [| [| j]]; cbn in H;
      [injection H as <-; reflexivity | injection H as <-; reflexivity |].
    destruct j; discriminate.
  - cbn. lia.
Defined.

(** ** What a pass of [check_latencies] means *)

Lemma snd_bind {A B : Type} (m : M A) (f : A -> M B) :
  snd (bind m f) =
  match snd m with
  | Ok a => snd (f a)
  | Raise e => Raise e
  end.
Proof.
  destruct m as [out [a | e]]; cbn [bind snd]; [| reflexivity].
  destruct (f a). reflexivity.
Qed.

Lemma check_percentile_true lat latencies ptiles percentile :
  snd (check_percentile lat latencies ptiles true percentile) = Ok true <->
  exists value fio_val,
    reference latencies percentile = Ok value /\
    dict_get ptiles percentile = Ok fio_val /\
    similar fio_val value = Ok true.
Proof.
  unfold check_percentile, reference.
  destruct (percentile_rank percentile (List.length latencies))
    as [rank | e]; cbn [rbind].
  2: { split; [discriminate | intros (v & f & H & _); discriminate]. }
  rewrite bind_lift_ok. cbv zeta.
  destruct (list_index latencies (percentile_index rank)) as [value | e].
  2: { split; [discriminate | intros (v & f & H & _); discriminate]. }
  rewrite bind_lift_ok.
  destruct (dict_get ptiles percentile) as [fio_val | e].
  2: { split; [discriminate | intros (v & f & _ & H & _); discriminate]. }
  rewrite bind_lift_ok.
  assert (forall b, similar fio_val value = Ok b ->
            exists delta, int_truediv (Z.abs (fio_val - value)) value = Ok delta)
    as Hdelta.
  { unfold similar. intros b.
    destruct (int_truediv (Z.abs (fio_val - value)) value) as [d | e];
      [eexists; reflexivity | discriminate]. }
  split.
  - intros H. exists value, fio_val. split; [reflexivity |].
    split; [reflexivity |].
    destruct (int_truediv (Z.abs (fio_val - value)) value) as [d | e];
      [| discriminate].
    rewrite bind_lift_ok in H.
    destruct (similar fio_val value) as [[|] | e]; cbn in H;
      [reflexivity | discriminate | discriminate].
  - intros (v & f & [= <-] & [= <-] & Hs).
    destruct (Hdelta _ Hs) as (d & ->). rewrite bind_lift_ok.
    rewrite Hs. reflexivity.
Qed.

Lemma percentile_loop_true lat latencies ptiles l this_iter :
  snd (foldM (check_percentile lat latencies ptiles) this_iter l) = Ok true <->
  this_iter = true /\
  Forall (fun pct =>
            snd (check_percentile lat latencies ptiles true pct) = Ok true) l.
Proof.
  revert this_iter. induction l as [| pct l IH]; intros this_iter.
  - cbn. split; [intros [= ->]; split; [reflexivity | constructor] |
                 intros [-> _]; reflexivity].
  - cbn [foldM]. rewrite snd_bind.
    rewrite (check_percentile_this_iter lat latencies ptiles this_iter pct).
    cbn [snd].
    destruct (snd (check_percentile lat latencies ptiles true pct))
      as [ok | e] eqn:E.
    + rewrite IH. split.
      * intros [Hb Hall]. apply andb_true_iff in Hb. destruct Hb as [-> ->].
        split; [reflexivity |]. constructor; [exact E | exact Hall].
      * intros [-> Hall]. inversion Hall as [| ? ? H1 H2]; subst.
        rewrite E in H1. injection H1 as ->. split; [reflexivity | exact H2].
    + split; [discriminate |]. intros [_ Hall].
      inversion Hall as [| ? ? H1 H2]; subst. rewrite E in H1. discriminate.
Qed.

(** The verdict of one iteration for an enabled type, stage by stage. *)
Lemma count_check_snd lat jsondata latencies this_iter :
  snd (count_check lat jsondata latencies this_iter) =
  Ok (this_iter &&
      (total_ios jsondata =? Z.of_nat (List.length latencies))).
Proof.
  unfold count_check.
  destruct (total_ios jsondata =? Z.of_nat (List.length latencies));
    cbn; [rewrite andb_true_r | rewrite andb_false_r]; reflexivity.
Qed.

Lemma check_latency_type_snd logs jsondata ddir slat clat tlat plus unified
  retval lat :
  types slat clat tlat lat = true ->
  let js := stats_of jsondata lat in
  let latencies := load_latencies (logs lat) ddir unified in
  let counted := total_ios jsondata =? Z.of_nat (List.length latencies) in
  snd (check_latency_type logs jsondata ddir slat clat tlat plus unified
                          retval lat) =
  match js_percentile js with
  | None =>
      match snd (bins_gate js plus false) with
      | Ok _ => Raise KeyError
      | Raise e => Raise e
      end
  | Some ptiles =>
      match snd (bins_gate js plus true) with
      | Ok g =>
          match snd (foldM (check_percentile lat (sort latencies) ptiles)
                           (g && counted) (keys ptiles)) with
          | Ok v => Ok (if v then retval else false)
          | Raise e => Raise e
          end
      | Raise e => Raise e
      end
  end.
Proof.
  intros Hen js latencies counted.
  unfold check_latency_type. rewrite Hen. cbn [negb]. cbv zeta.
  fold js. fold latencies.
  rewrite snd_bind. unfold presence_gate, percentile_checks.
  destruct (js_percentile js) as [ptiles |]; cbn [snd print ret bind app].
  - rewrite snd_bind.
    destruct (snd (bins_gate js plus true)) as [g | e]; [| reflexivity].
    rewrite snd_bind, count_check_snd. fold counted.
    rewrite snd_bind. cbv zeta. rewrite snd_bind. cbn [lift snd].
    destruct (snd (foldM _ _ _)) as [[|] | e]; reflexivity.
  - rewrite snd_bind.
    destruct (snd (bins_gate js plus false)) as [g | e]; [| reflexivity].
    rewrite snd_bind, count_check_snd. rewrite snd_bind. cbv zeta.
    rewrite snd_bind. reflexivity.
Qed.

Lemma bins_gate_true js plus :
  snd (bins_gate js plus true) = Ok true <->
  (if plus then js_bins js <> None /\ snd (check_jsonplus js) = Ok true
   else js_bins js = None).
Proof.
  unfold bins_gate. destruct plus.
  - destruct (js_bins js) as [b |].
    + rewrite snd_bind.
      destruct (snd (check_jsonplus js)) as [[|] | e]; cbn [snd ret].
      * split; [intros _; split; [discriminate | reflexivity] | reflexivity].
      * split; [discriminate | intros [_ H]; discriminate].
      * split; [discriminate | intros [_ H]; discriminate].
    + cbn. split; [discriminate | intros [H _]; congruence].
  - destruct (js_bins js); cbn.
    + split; discriminate.
    + split; reflexivity.
Qed.

(** One iteration for an enabled type ends in [True] exactly when
    [retval] was [True] and the type passes. *)
Lemma check_latency_type_true logs jsondata ddir slat clat tlat plus unified
  retval lat :
  types slat clat tlat lat = true ->
  snd (check_latency_type logs jsondata ddir slat clat tlat plus unified
                          retval lat) = Ok true <->
  retval = true /\ type_passes logs jsondata ddir plus unified lat.
Proof.
  intros Hen.
  rewrite (check_latency_type_snd _ _ _ _ _ _ _ _ retval lat Hen).
  unfold type_passes. cbv zeta.
  set (js := stats_of jsondata lat).
  set (latencies := load_latencies (logs lat) ddir unified).
  destruct (js_percentile js) as [ptiles |].
  2: { split.
       - destruct (snd (bins_gate js plus false)); discriminate.
       - intros [_ (p & H & _)]. discriminate. }
  pose proof (bins_gate_true js plus) as Hgate.
  assert (Forall (fun pct =>
                    exists value fio_val,
                      reference (sort latencies) pct = Ok value /\
                      dict_get ptiles pct = Ok fio_val /\
                      similar fio_val value = Ok true) (keys ptiles) <->
          Forall (fun pct =>
                    snd (check_percentile lat (sort latencies) ptiles true pct)
                    = Ok true) (keys ptiles)) as Hall.
  { split; intros H; (eapply Forall_impl; [| exact H]); intros pct Hp;
      cbv beta in *; apply (check_percentile_true lat (sort latencies) ptiles pct);
      exact Hp. }
  split.
  - intros H.
    destruct (snd (bins_gate js plus true)) as [g | e]; [| discriminate].
    destruct (snd (foldM _ _ _)) as [v | e] eqn:Ev; [| discriminate].
    destruct v; [| discriminate]. injection H as ->.
    apply percentile_loop_true in Ev. destruct Ev as [Hg Hf].
    apply andb_true_iff in Hg. destruct Hg as [-> Hc].
    split; [reflexivity |]. exists ptiles.
    split; [reflexivity |]. split; [apply Z.eqb_eq; exact Hc |].
    split; [apply Hgate; reflexivity | apply Hall; exact Hf].
  - intros [-> (p & [= <-] & Hc & Hb & Hf)].
    apply Hgate in Hb. rewrite Hb.
    apply Z.eqb_eq in Hc. rewrite Hc. cbn [andb].
    apply Hall in Hf.
    assert (snd (foldM (check_percentile lat (sort latencies) ptiles) true
                       (keys ptiles)) = Ok true) as ->
      by (apply percentile_loop_true; split; [reflexivity | exact Hf]).
    reflexivity.
Qed.

Lemma disabled_type_snd logs jsondata ddir slat clat tlat plus unified
  retval lat :
  types slat clat tlat lat = false ->
  snd (check_latency_type logs jsondata ddir slat clat tlat plus unified
                          retval lat) = Ok retval.
Proof.
  intros H.
  destruct (disabled_type_keeps_retval logs jsondata ddir slat clat tlat plus
              unified retval lat H) as (d & ->).
  reflexivity.
Qed.

Lemma check_latency_type_true_retval logs jsondata ddir slat clat tlat plus
  unified retval lat :
  snd (check_latency_type logs jsondata ddir slat clat tlat plus unified
                          retval lat) = Ok true <->
  retval = true /\
  (types slat clat tlat lat = true ->
   type_passes logs jsondata ddir plus unified lat).
Proof.
  destruct (types slat clat tlat lat) eqn:Hen.
  - rewrite (check_latency_type_true _ _ _ _ _ _ _ _ retval lat Hen).
    split; intros [H1 H2]; (split; [exact H1 | auto]).
  - rewrite (disabled_type_snd _ _ _ _ _ _ _ _ retval lat Hen).
    split; [intros [= ->]; split; [reflexivity | discriminate] |
            intros [-> _]; reflexivity].
Qed.

(** A loop whose step yields [True] only from [True] yields [True]
    exactly when it started from [True] and every step passed. *)
Lemma foldM_true {A : Type} (f : bool -> A -> M bool) (P : A -> Prop) :
  (forall acc x, snd (f acc x) = Ok true <-> acc = true /\ P x) ->
  forall l acc,
    snd (foldM f acc l) = Ok true <-> acc = true /\ Forall P l.
Proof.
  intros Hf. induction l as [| x l IH]; intros acc; cbn [foldM].
  - cbn. split; [intros [= ->]; split; [reflexivity | constructor] |
                 intros [-> _]; reflexivity].
  - rewrite snd_bind.
    destruct (snd (f acc x)) as [b | e] eqn:E.
    + rewrite IH. split.
      * intros [-> Hl]. apply Hf in E. destruct E as [-> Hx].
        split; [reflexivity | constructor; assumption].
      * intros [-> Hl]. inversion Hl; subst.
        assert (Ok b = Ok true) as C
          by (rewrite <- E; apply Hf; split; [reflexivity | assumption]).
        injection C as ->. split; [reflexivity | assumption].
    + split; [discriminate |]. intros [-> Hl]. inversion Hl; subst.
      rewrite <- E. apply Hf. split; [reflexivity | assumption].
Qed.

Lemma check_latencies_pass_iff logs jsondata ddir slat clat tlat plus unified :
  snd (check_latencies logs jsondata ddir slat clat tlat plus unified)
  = Ok true <->
  forall lat, types slat clat tlat lat = true ->
              type_passes logs jsondata ddir plus unified lat.
Proof.
  unfold check_latencies.
  rewrite (foldM_true _ _ (check_latency_type_true_retval logs jsondata ddir
                             slat clat tlat plus unified)).
  split.
  - intros [_ H] lat. rewrite Forall_forall in H. apply H.
    destruct lat; cbn; auto.
  - intros H. split; [reflexivity |]. apply Forall_forall. intros lat _.
    apply H.
Qed.

(** X3. [check_latencies] returns [True] exactly when every enabled
    latency type passes: its percentiles are present, [total_ios] is the
    number of samples logged for the direction, the bins are present and
    consistent under json+ and absent otherwise, and every reported
    percentile is similar to the reference taken from the sorted log.
    The statistics of disabled types have no part in it. *)
Theorem check_latencies_pass (logs : lat_type -> list log_line)
  (jsondata : ddir_stats) (ddir : Z) (slat clat tlat plus unified : bool) :
  snd (check_latencies logs jsondata ddir slat clat tlat plus unified)
  = Ok true <->
  forall lat, types slat clat tlat lat = true ->
              type_passes logs jsondata ddir plus unified lat.
Proof.
  unfold check_latencies.
  rewrite (foldM_true _ _ (check_latency_type_true_retval logs jsondata ddir
                             slat clat tlat plus unified)).
  split.
  - intros [_ H] lat. rewrite Forall_forall in H. apply H.
    destruct lat; cbn; auto.
  - intros H. split; [reflexivity |]. apply Forall_forall. intros lat _.
    apply H.
Qed.

(** ** What the verdict of [check_latencies] depends on *)

Lemma bind_ext {A B : Type} (m : M A) (f g : A -> M B) :
  (forall a, f a = g a) -> bind m f = bind m g.
Proof.
  intros H. destruct m as [out [a | e]]; cbn [bind]; [| reflexivity].
  rewrite H. reflexivity.
Qed.

Lemma foldM_ext {A S : Type} (f g : S -> A -> M S) l :
  (forall s x, In x l -> f s x = g s x) ->
  forall s, foldM f s l = foldM g s l.
Proof.
  induction l as [| x l IH]; intros H s; cbn [foldM]; [reflexivity |].
  rewrite (H s x (or_introl eq_refl)).
  apply bind_ext. intros s'. apply IH. intros s0 y Hy. apply H. right.
  exact Hy.
Qed.

Lemma foldM_snd_ext {A S : Type} (f g : S -> A -> M S) l :
  (forall s x, In x l -> snd (f s x) = snd (g s x)) ->
  forall s, snd (foldM f s l) = snd (foldM g s l).
Proof.
  induction l as [| x l IH]; intros H s; cbn [foldM]; [reflexivity |].
  rewrite !snd_bind. rewrite (H s x (or_introl eq_refl)).
  destruct (snd (g s x)) as [s' | e]; [| reflexivity].
  apply IH. intros s0 y Hy. apply H. right. exact Hy.
Qed.

(** X4. The verdict of [check_latencies] (the value returned or the
    exception raised) depends only on [total_ios] and on the statistics
    and the logs of the enabled latency types: two reports and two sets
    of logs that agree on these get the same verdict, whatever the
    sections of the disabled types hold. *)
Theorem check_latencies_enabled_only (logs logs' : lat_type -> list log_line)
  (jsondata jsondata' : ddir_stats) (ddir : Z)
  (slat clat tlat plus unified : bool) :
  total_ios jsondata = total_ios jsondata' ->
  (forall lat, types slat clat tlat lat = true ->
               stats_of jsondata lat = stats_of jsondata' lat /\
               logs lat = logs' lat) ->
  snd (check_latencies logs jsondata ddir slat clat tlat plus unified) =
  snd (check_latencies logs' jsondata' ddir slat clat tlat plus unified).
Proof.
  intros Htot Hen. unfold check_latencies. apply foldM_snd_ext.
  intros retval lat _.
  destruct (types slat clat tlat lat) eqn:E.
  - destruct (Hen lat E) as [Hs Hl].
    unfold check_latency_type, count_check.
    rewrite E, Hs, Hl, Htot. reflexivity.
  - rewrite !disabled_type_snd by exact E. reflexivity.
Qed.

Lemma check_latencies_enabled_only_witness :
  snd (check_latencies example_logs
         (report 3 (stats_with None None) good_stats good_stats)
         0 false true true false false) =
  snd (check_latencies (fun lat => match lat with
                                   | Slat => []
                                   | _ => example_log
                                   end)
         (report 3 (scenario_B 7) good_stats good_stats)
         0 false true true false false).
Proof.
  apply check_latencies_enabled_only.
  - reflexivity.
  - intros [| |] H; [discriminate H | split; reflexivity | split; reflexivity].
Defined.

(** ** The order of the records of a log *)

Lemma sorted_perm_eq l1 :
  forall l2, Sorted Z.le l1 -> Sorted Z.le l2 -> Permutation l1 l2 -> l1 = l2.
Proof.
  induction l1 as [| a l1 IH]; intros l2 S1 S2 P.
  - apply Permutation_nil in P. symmetry. exact P.
  - destruct l2 as [| b l2].
    + apply Permutation_sym, Permutation_nil in P. discriminate.
    + assert (Transitive Z.le) as TR by (intros x y z; lia).
      pose proof (Sorted_StronglySorted TR S1) as SS1.
      pose proof (Sorted_StronglySorted TR S2) as SS2.
      inversion SS1 as [| ? ? _ F1]; subst.
      inversion SS2 as [| ? ? _ F2]; subst.
      rewrite Forall_forall in F1, F2.
      assert (a <= b) as Hab.
      { assert (In b (a :: l1)) as [-> | Hin]
          by (apply (Permutation_in b (Permutation_sym P)); left; reflexivity).
        - lia.
        - apply F1. exact Hin. }
      assert (b <= a) as Hba.
      { assert (In a (b :: l2)) as [-> | Hin]
          by (apply (Permutation_in a P); left; reflexivity).
        - lia.
        - apply F2. exact Hin. }
      assert (a = b) as -> by lia.
      f_equal. apply IH.
      * inversion S1; assumption.
      * inversion S2; assumption.
      * apply Permutation_cons_inv in P. exact P.
Qed.

Lemma sort_perm_eq l l' : Permutation l l' -> sort l = sort l'.
Proof.
  intros P. apply sorted_perm_eq; try apply sort_sorted.
  rewrite (sort_perm l), (sort_perm l'). exact P.
Qed.

Lemma load_latencies_perm log log' ddir unified :
  Permutation log log' ->
  Permutation (load_latencies log ddir unified)
              (load_latencies log' ddir unified).
Proof.
  intros P. unfold load_latencies. apply Permutation_map.
  induction P as [| x l l' P IH | x y l | l l' l'' P1 IH1 P2 IH2]; cbn [filter].
  - constructor.
  - destruct (unified || (log_ddir x =? ddir)); [constructor |]; exact IH.
  - destruct (unified || (log_ddir x =? ddir)),
             (unified || (log_ddir y =? ddir));
      try reflexivity. constructor.
  - etransitivity; eassumption.
Qed.

(** X5. The order of the records of a latency log is immaterial: sets of
    logs that hold the same records in another order get the same
    diagnostics and the same verdict from [check_latencies]. *)
Theorem check_latencies_log_order (logs logs' : lat_type -> list log_line)
  (jsondata : ddir_stats) (ddir : Z) (slat clat tlat plus unified : bool) :
  (forall lat, Permutation (logs lat) (logs' lat)) ->
  check_latencies logs jsondata ddir slat clat tlat plus unified =
  check_latencies logs' jsondata ddir slat clat tlat plus unified.
Proof.
  intros P. unfold check_latencies. apply foldM_ext.
  intros retval lat _. unfold check_latency_type.
  pose proof (load_latencies_perm _ _ ddir unified (P lat)) as PL.
  cbv zeta. unfold count_check, percentile_checks. cbv zeta.
  rewrite (Permutation_length PL), (sort_perm_eq _ _ PL). reflexivity.
Qed.

Lemma check_latencies_log_order_witness :
  check_latencies example_logs (report 3 good_stats good_stats good_stats)
                  0 true true true false false =
  check_latencies (fun _ => rev example_log)
                  (report 3 good_stats good_stats good_stats)
                  0 true true true false false.
Proof.
  apply check_latencies_log_order. intros lat. apply Permutation_rev.
Defined.

(** ** Exceptions of the checking functions *)

(** X6. Without json+, [check_sync_lat] never returns [True]: it returns
    [False] when the percentiles are missing or bins are present, and
    otherwise goes on to [check_jsonplus], which looks up the missing
    ['bins'] and raises [KeyError]. *)
Theorem check_sync_lat_without_plus (jsondata : sync_stats) :
  snd (check_sync_lat jsondata false) =
  match js_percentile (sync_lat_ns jsondata), js_bins (sync_lat_ns jsondata)
  with
  | Some _, None => Raise KeyError
  | _, _ => Ok false
  end.
Proof.
  unfold check_sync_lat.
  destruct (js_percentile (sync_lat_ns jsondata)); [| reflexivity].
  rewrite snd_bind.
  destruct (negb (sync_total_ios jsondata =? js_N (sync_lat_ns jsondata)));
    cbn [snd bind print ret app negb];
    destruct (js_bins (sync_lat_ns jsondata)) eqn:Eb; try reflexivity;
    rewrite snd_bind; unfold check_jsonplus; rewrite Eb; reflexivity.
Qed.

(** X7. A histogram whose smallest bin is 0 makes [check_jsonplus] raise
    [ZeroDivisionError]: [similar] divides by that bin, whatever the
    reported minimum is. *)
Theorem check_jsonplus_zero_bin (jsondata : lat_stats) (b : dict)
  (ks : list Z) :
  js_bins jsondata = Some b ->
  map_result int_of_string (keys b) = Ok ks ->
  py_min ks = Ok 0 ->
  snd (check_jsonplus jsondata) = Raise ZeroDivisionError.
Proof.
  intros Hb Hks Hmin. unfold check_jsonplus.
  rewrite Hb, bind_lift_ok, Hks, bind_lift_ok.
  destruct (map_result_total (dict_get b) (keys b)) as (vs & ->);
    [intros k Hk; apply dict_get_key; exact Hk |].
  rewrite bind_lift_ok, Hmin, bind_lift_ok.
  destruct ks as [| k ks']; [discriminate |]. cbn [py_max].
  rewrite bind_lift_ok. cbv zeta. reflexivity.
Qed.

Lemma check_jsonplus_zero_bin_witness :
  snd (check_jsonplus
         {| js_N := 3; js_min := 0; js_max := 5; js_percentile := None;
            js_bins := Some [("0"%string, 1); ("5"%string, 2)] |})
  = Raise ZeroDivisionError.
Proof.
  apply (check_jsonplus_zero_bin _ [("0"%string, 1); ("5"%string, 2)] [0; 5]);
    reflexivity.
Defined.

Lemma check_percentile_empty lat ptiles this_iter percentile p :
  decimal_of_string percentile = Some p -> (0 <= p <= 100)%Q ->
  snd (check_percentile lat [] ptiles this_iter percentile) = Raise IndexError.
Proof.
  intros Hd Hp.
  destruct (percentile_rank_range percentile p 0 Hd Hp) as (rank & Hr & Hz);
    [reflexivity |].
  assert (rank = 0) as -> by (cbn in Hz; lia).
  unfold check_percentile. cbn [List.length]. rewrite Hr.
  rewrite bind_lift_ok. reflexivity.
Qed.

Lemma enabled_empty_log_raises logs jsondata ddir slat clat tlat unified
  retval lat :
  types slat clat tlat lat = true ->
  (exists pct fio_val rest p,
      js_percentile (stats_of jsondata lat) = Some ((pct, fio_val) :: rest) /\
      decimal_of_string pct = Some p /\ (0 <= p <= 100)%Q) ->
  load_latencies (logs lat) ddir unified = [] ->
  snd (check_latency_type logs jsondata ddir slat clat tlat false unified
                          retval lat) = Raise IndexError.
Proof.
  intros Hen (pct & fio_val & rest & p & Hp & Hd & Hr) Hl.
  rewrite (check_latency_type_snd _ _ _ _ _ _ _ _ retval lat Hen).
  cbv zeta. rewrite Hp, Hl.
  assert (exists g, snd (bins_gate (stats_of jsondata lat) false true) = Ok g)
    as (g & ->).
  { unfold bins_gate. destruct (js_bins (stats_of jsondata lat));
      eexists; reflexivity. }
  cbn [keys map fst foldM sort]. rewrite snd_bind.
  rewrite (check_percentile_empty _ _ _ _ p Hd Hr). reflexivity.
Qed.

(** X8. A log without a sample for the direction does not give a
    mismatch but an exception. Without json+, when every enabled type
    (there is at least one) reports a percentile with a label in
    [0, 100] and its log holds no sample for the direction,
    [check_latencies] raises [IndexError] at [latencies[0]], also when
    [total_ios] is 0. *)
Theorem check_latencies_empty_log (logs : lat_type -> list log_line)
  (jsondata : ddir_stats) (ddir : Z) (slat clat tlat unified : bool) :
  slat || clat || tlat = true ->
  (forall lat, types slat clat tlat lat = true ->
     (exists pct fio_val rest p,
         js_percentile (stats_of jsondata lat) = Some ((pct, fio_val) :: rest) /\
         decimal_of_string pct = Some p /\ (0 <= p <= 100)%Q) /\
     load_latencies (logs lat) ddir unified = []) ->
  snd (check_latencies logs jsondata ddir slat clat tlat false unified)
  = Raise IndexError.
Proof.
  intros Hsome H.
  assert (forall retval lat,
            snd (check_latency_type logs jsondata ddir slat clat tlat false
                   unified retval lat) =
            if types slat clat tlat lat then Raise IndexError else Ok retval)
    as Hit.
  { intros retval lat. destruct (types slat clat tlat lat) eqn:E.
    - destruct (H lat E) as [Hp Hl].
      apply enabled_empty_log_raises; assumption.
    - apply disabled_type_snd. exact E. }
  unfold check_latencies. cbn [foldM]. rewrite !snd_bind, Hit. cbn [types].
  destruct slat; [reflexivity |].
  rewrite snd_bind, Hit. cbn [types].
  destruct clat; [reflexivity |].
  rewrite snd_bind, Hit. cbn [types].
  destruct tlat; [reflexivity | discriminate].
Qed.

Lemma check_latencies_empty_log_witness :
  snd (check_latencies example_logs
         (report 0 good_stats good_stats good_stats) 2 false true true false
         false)
  = Raise IndexError.
Proof.
  apply check_latencies_empty_log; [reflexivity |].
  intros lat _. split; [| reflexivity].
  exists "50.000000"%string, 20, [("100.000000"%string, 30)],
    (50000000 # 1000000)%Q.
  split; [destruct lat; reflexivity |].
  split; [reflexivity |]. split; unfold Qle; simpl; lia.
Defined.

Lemma quotient_nonpos d a : 0 <= d -> a < 0 -> (inject_Z d / inject_Z a <= 0)%Q.
Proof.
  intros Hd Ha. destruct a as [| p | p]; try lia.
  unfold Qle, Qdiv, Qmult, Qinv, inject_Z. cbn. lia.
Qed.

(** X9. [similar] accepts every estimate against a negative reference:
    the quotient [abs(estimate - actual) / actual] is then at most 0,
    hence below 1/128. The only other outcome is the [OverflowError] of
    a quotient too large for a float; [False] is never returned. *)
Theorem similar_negative_actual (estimate actual : Z) :
  actual < 0 ->
  similar estimate actual = Ok true \/
  similar estimate actual = Raise OverflowError.
Proof.
  intros Ha. unfold similar.
  change (int_truediv 1 128)
    with (Ok (Fin (4503599627370496 # 576460752303423488))).
  unfold int_truediv.
  destruct (Z.eqb_spec actual 0) as [-> | _]; [lia |].
  pose proof (quotient_nonpos (Z.abs (estimate - actual)) actual
                (Z.abs_nonneg _) Ha) as Hx.
  set (x := (inject_Z (Z.abs (estimate - actual)) / inject_Z actual)%Q) in *.
  unfold round.
  destruct ((0 <=? ulp_exp x) &&
            (2 ^ emax <=? Z.abs (scaled x (ulp_exp x)) * 2 ^ ulp_exp x));
    [right; reflexivity | left].
  cbn [rbind fle]. f_equal. apply Qle_bool_iff.
  rewrite of_scaled_eq.
  assert (scaled x (ulp_exp x) <= 0) as Hm.
  { apply scaled_upper.
    setoid_replace (inject_Z 0 * pow2 (ulp_exp x))%Q with 0%Q
      by (unfold Qeq; cbn; lia).
    exact Hx. }
  apply Qle_trans with 0%Q; [| discriminate].
  pose proof (pow2_pos (ulp_exp x)) as Hp.
  assert (inject_Z (scaled x (ulp_exp x)) <= 0)%Q as Hq
    by (change 0%Q with (inject_Z 0); rewrite <- Zle_Qle; exact Hm).
  set (u := pow2 (ulp_exp x)) in *. clearbody u. nra.
Qed.

Lemma similar_negative_actual_witness :
  similar 1000000 (-3) = Ok true \/ similar 1000000 (-3) = Raise OverflowError.
Proof.
  apply similar_negative_actual. lia.
Defined.

(** ** The test functions and the tally *)

Lemma snd_tbind {A B : Type} (m : T A) (f : A -> T B) :
  snd (tbind m f) =
  match snd m with
  | Ok a => snd (f a)
  | Raise e => Raise e
  end.
Proof.
  destruct m as [out [a | e]]; cbn [tbind snd]; [| reflexivity].
  destruct (f a). reflexivity.
Qed.

Lemma fst_tbind {A B : Type} (m : T A) (f : A -> T B) :
  fst (tbind m f) =
  match snd m with
  | Ok a => fst m ++ fst (f a)
  | Raise e => fst m
  end.
Proof.
  destruct m as [out [a | e]]; cbn [tbind fst snd]; [| reflexivity].
  destruct (f a). reflexivity.
Qed.

Lemma tbind_tlift_ok {A B : Type} (a : A) (f : A -> T B) :
  tbind (tlift (Ok a)) f = f a.
Proof. unfold tlift, tbind. destruct (f a). reflexivity. Qed.

Section TestFacts.

Variable json_loads : string -> result (option document).

(** A report that cannot be decoded: every test function returns the
    pair. *)
Lemma undecodable_report_pair t output logs r :
  In t (tests json_loads) ->
  get_json document json_loads output = Ok (false, r) ->
  check t output logs = tret (PyTuple false "could not decode JSON data").
Proof.
  intros Hin Hd.
  assert (forall body,
            with_job json_loads output body =
            tret (PyTuple false "could not decode JSON data")) as Hw.
  { intros body. unfold with_job. rewrite Hd, tbind_tlift_ok.
    destruct r; reflexivity. }
  unfold tests in Hin. cbn [In] in Hin.
  repeat (destruct Hin as [<- | Hin]; [apply Hw |]). contradiction.
Qed.

Variable run_fio : Z -> bool * string * (lat_type -> list log_line).

(** X10. A report that cannot be decoded is counted as passed. Each of
    the eleven test functions then returns the pair [(False, 'could not
    decode JSON data')], and [main], which tests the truth of what is
    returned, prints PASSED and adds one to [passed]: a pair of two
    members is true. *)
Theorem undecodable_report_passes (t : test) (output : string)
  (logs : lat_type -> list log_line) (counts : Z * Z)
  (r : document + string) :
  In t (tests json_loads) ->
  run_fio (test_id t) = (true, output, logs) ->
  get_json document json_loads output = Ok (false, r) ->
  run_test run_fio counts t =
  ([TestOutcome (test_id t) true], Ok (fst counts + 1, snd counts)).
Proof.
  intros Hin Hrun Hd. unfold run_test, test_status. rewrite Hrun.
  rewrite (undecodable_report_pair t output logs r Hin Hd). reflexivity.
Qed.

Lemma run_test_returns counts t v :
  snd (test_status run_fio t) = Ok v ->
  run_test run_fio counts t =
  (fst (test_status run_fio t) ++ [TestOutcome (test_id t) (truthy v)],
   Ok (if truthy v then (fst counts + 1, snd counts)
       else (fst counts, snd counts + 1))).
Proof.
  intros H. unfold run_test.
  destruct (test_status run_fio t) as [out r]. cbn [snd fst] in *. subst r.
  reflexivity.
Qed.

Lemma run_test_raises counts t e :
  snd (test_status run_fio t) = Raise e ->
  run_test run_fio counts t = (fst (test_status run_fio t), Raise e).
Proof.
  intros H. unfold run_test.
  destruct (test_status run_fio t) as [out r]. cbn [snd fst] in *. subst r.
  reflexivity.
Qed.

Lemma tally_loop l :
  Forall (fun t => exists v, snd (test_status run_fio t) = Ok v) l ->
  forall passed failed,
    snd (tfoldM (run_test run_fio) (passed, failed) l) =
    Ok (passed + Z.of_nat (List.length l)
        - Z.of_nat (List.length (filter (counted_failed run_fio) l)),
        failed + Z.of_nat (List.length (filter (counted_failed run_fio) l))).
Proof.
  induction 1 as [| t l (v & Hv) _ IH]; intros passed failed.
  - cbn. f_equal. f_equal; lia.
  - cbn [tfoldM filter]. rewrite snd_tbind.
    rewrite (run_test_returns _ _ _ Hv). cbn [snd fst].
    assert (counted_failed run_fio t = negb (truthy v)) as ->
      by (unfold counted_failed; rewrite Hv; reflexivity).
    destruct (truthy v); cbn [negb]; rewrite IH; cbn [List.length];
      f_equal; f_equal; lia.
Qed.

(** X11. The exit status of [main]. When every test function returns,
    the argument of [sys.exit] is the number of tests that ran fio
    without success or whose test function returned a false value, and
    the last line printed is the summary, in which the passed and the
    failed tests add up to the number of tests. *)
Theorem main_exit_status (l : list test) :
  Forall (fun t => exists v, snd (test_status run_fio t) = Ok v) l ->
  let failed := Z.of_nat (List.length (filter (counted_failed run_fio) l)) in
  snd (main_loop run_fio l) = Ok failed /\
  exists out,
    fst (main_loop run_fio l) =
    out ++ [Summary (Z.of_nat (List.length l) - failed) failed].
Proof.
  intros H failed. unfold main_loop.
  pose proof (tally_loop l H 0 0) as Hs. cbn [Z.add] in Hs. fold failed in Hs.
  destruct (tfoldM (run_test run_fio) (0, 0) l) as [out r].
  cbn [snd] in Hs. subst r. cbn. split; [reflexivity |].
  exists out. reflexivity.
Qed.

(** X12. An exception in a test function ends [main]: the tests before
    it are reported, the exception leaves the loop, no later test is run
    and no summary is printed. *)
Theorem main_aborts_on_exception (pre post : list test) (t : test) (e : exn) :
  Forall (fun t => exists v, snd (test_status run_fio t) = Ok v) pre ->
  snd (test_status run_fio t) = Raise e ->
  main_loop run_fio (pre ++ t :: post) =
  (fst (tfoldM (run_test run_fio) (0, 0) pre) ++ fst (test_status run_fio t),
   Raise e).
Proof.
  intros Hpre Ht. unfold main_loop.
  assert (forall counts,
            tfoldM (run_test run_fio) counts (pre ++ t :: post) =
            (fst (tfoldM (run_test run_fio) counts pre)
               ++ fst (test_status run_fio t), Raise e)) as ->.
  { induction Hpre as [| t0 pre (v & Hv) _ IH]; intros counts.
    - cbn [app tfoldM]. rewrite (run_test_raises _ _ _ Ht). reflexivity.
    - cbn [app tfoldM]. rewrite (run_test_returns _ _ _ Hv).
      cbn [tbind]. rewrite IH.
      destruct (tfoldM (run_test run_fio) _ pre) as [out r].
      cbn [fst]. rewrite <- !app_assoc. reflexivity. }
  reflexivity.
Qed.

End TestFacts.

Lemma undecodable_report_passes_witness :
  run_test (fun _ => (true, "fio: unknown option"%string, example_logs))
           (0, 0) {| test_id := 10; check := check_t010 (fun _ => Ok None) |} =
  ([TestOutcome 10 true], Ok (1, 0)).
Proof.
  apply (undecodable_report_passes (fun _ => Ok None)
           (fun _ => (true, "fio: unknown option"%string, example_logs))
           {| test_id := 10; check := check_t010 (fun _ => Ok None) |}
           "fio: unknown option" example_logs (0, 0) (inr EmptyString)).
  - unfold tests. cbn [In]. tauto.
  - reflexivity.
  - reflexivity.
Defined.

Lemma main_exit_status_witness :
  let run_fio := fun id : Z => (id <=? 5, "fio: unknown option"%string,
                                example_logs) in
  snd (main_tally (fun _ => Ok None) run_fio) = Ok 6 /\
  exists out, fst (main_tally (fun _ => Ok None) run_fio) = out ++ [Summary 5 6].
Proof.
  intros run_fio.
  apply (main_exit_status run_fio (tests (fun _ => Ok None))).
  unfold tests.
  repeat (constructor; [eexists; reflexivity |]). constructor.
Defined.

Lemma main_aborts_on_exception_witness :
  let json_loads := fun _ : string => Ok (Some {| jobs := Some [] |}) in
  let run_fio := fun id : Z => (2 <=? id, "{}"%string, example_logs) in
  main_tally json_loads run_fio = ([TestOutcome 1 false], Raise IndexError).
Proof.
  intros json_loads run_fio.
  apply (main_aborts_on_exception run_fio
           [ {| test_id := 1; check := check_t001 json_loads |} ]
           (tl (tl (tests json_loads)))
           {| test_id := 2; check := check_t002 json_loads |} IndexError).
  - constructor; [eexists; reflexivity | constructor].
  - reflexivity.
Defined.

(** ** When a test function cannot return [True] *)

Lemma never_true_false : never_true (tret (PyBool false)).
Proof. intros v [= <-]. discriminate. Qed.

Lemma never_true_pair status message :
  never_true (tret (PyTuple status message)).
Proof. intros v [= <-]. discriminate. Qed.

Lemma never_true_bind {A : Type} (m : T A) (f : A -> T pyvalue) :
  (forall a, never_true (f a)) -> never_true (tbind m f).
Proof.
  intros H v. rewrite snd_tbind. destruct (snd m) as [a | e];
    [apply H | discriminate].
Qed.

Lemma never_true_step (m : T bool) (f : bool -> T pyvalue) :
  (forall b, snd m = Ok b -> b = false) ->
  never_true (f false) -> never_true (tbind m f).
Proof.
  intros Hm Hf v. rewrite snd_tbind. destruct (snd m) as [b | e];
    [| discriminate].
  rewrite (Hm b eq_refl). apply Hf.
Qed.

(** [retval], once [False], stays [False] through each step. *)
Lemma expect_empty_false j dir b :
  snd (expect_empty j dir false) = Ok b -> b = false.
Proof.
  unfold expect_empty. rewrite snd_tbind. cbn [tlift snd].
  destruct (job_section j dir) as [s | e]; [| discriminate].
  destruct (negb (check_empty s)); cbn; congruence.
Qed.

Lemma expect_empty_nonempty j dir s retval b :
  job_section j dir = Ok s -> check_empty s = false ->
  snd (expect_empty j dir retval) = Ok b -> b = false.
Proof.
  intros Hs He. unfold expect_empty. rewrite Hs, tbind_tlift_ok, He.
  cbn. congruence.
Qed.

Lemma and_latencies_false logs jsondata ddir slat clat tlat plus unified b :
  snd (and_latencies logs jsondata ddir slat clat tlat plus unified false)
  = Ok b -> b = false.
Proof.
  unfold and_latencies. rewrite snd_tbind. unfold call. cbn [snd].
  destruct (snd (check_latencies _ _ _ _ _ _ _ _)); cbn; congruence.
Qed.

Lemma and_terse_false terse a b j dir lat v :
  snd (and_terse terse a b j dir lat false) = Ok v -> v = false.
Proof.
  unfold and_terse. rewrite snd_tbind. cbn [tlift snd].
  destruct (job_section j dir) as [s | e]; [| discriminate].
  rewrite snd_tbind. cbn [tlift snd].
  destruct (js_percentile (stats_of s lat)); [| discriminate].
  rewrite snd_tbind. unfold call. cbn [snd].
  destruct (snd (check_terse _ _)); cbn; congruence.
Qed.

Lemma sync_step_false (ok b : bool) :
  snd (if negb ok then tprint SyncError ~;; tret false else tret false)
  = Ok b -> b = false.
Proof. destruct ok; cbn; congruence. Qed.

Ltac never_true_steps H :=
  repeat first
    [ apply never_true_false
    | apply never_true_pair
    | apply never_true_step;
      [ solve [ apply H | apply expect_empty_false
              | apply and_latencies_false | apply and_terse_false
              | apply sync_step_false ]
      | cbv beta ]
    | apply never_true_bind; intro ].

Section TestVerdicts.

Variable json_loads : string -> result (option document).

Lemma with_job_decoded output body d j :
  get_json document json_loads output = Ok (true, inl d) ->
  first_job d = Ok j ->
  with_job json_loads output body = body j.
Proof.
  intros Hd Hj. unfold with_job. rewrite Hd, tbind_tlift_ok, Hj.
  apply tbind_tlift_ok.
Qed.

Lemma with_terse_never_true output body :
  (forall terse, never_true (body terse)) ->
  never_true (with_terse output body).
Proof.
  intros H. unfold with_terse. apply never_true_bind.
  intros [[|] [terse | s]]; try apply never_true_pair. apply H.
Qed.

(** X13. A report with data in the trim section does not get [True]
    from a test function other than those of test 3 (the trim test) and
    test 8 (unified reporting): whatever the rest of the report and the
    logs hold, the function returns [False] or a pair, or raises. *)
Theorem nonempty_trim_never_true (t : test) (output : string)
  (logs : lat_type -> list log_line) (d : document) (j : job)
  (s : ddir_stats) :
  In t (tests json_loads) -> test_id t <> 3 -> test_id t <> 8 ->
  get_json document json_loads output = Ok (true, inl d) ->
  first_job d = Ok j ->
  job_trim j = Some s -> check_empty s = false ->
  never_true (check t output logs).
Proof.
  intros Hin H3 H8 Hd Hj Ht He.
  assert (forall retval b,
            snd (expect_empty j DirTrim retval) = Ok b -> b = false) as Htrim.
  { intros retval b. apply (expect_empty_nonempty j DirTrim s); [| exact He].
    unfold job_section. rewrite Ht. reflexivity. }
  unfold tests in Hin. cbn [In] in Hin.
  repeat (destruct Hin as [<- | Hin];
          [ try (exfalso; apply H3; reflexivity);
            try (exfalso; apply H8; reflexivity);
            cbn [check];
            unfold check_t001, check_t002, check_t004, check_t005, check_t006,
                   check_t007, check_t009, check_t010, check_t011;
            rewrite (with_job_decoded _ _ d j Hd Hj);
            try apply with_terse_never_true; try intro;
            never_true_steps Htrim | ]).
  contradiction.
Qed.

(** X14. Under unified reporting (test 8) a report that still has a
    ['read'], ['write'] or ['trim'] section does not get [True]. *)
Theorem unified_with_direction_never_true (output : string)
  (logs : lat_type -> list log_line) (d : document) (j : job) :
  get_json document json_loads output = Ok (true, inl d) ->
  first_job d = Ok j ->
  job_read j <> None \/ job_write j <> None \/ job_trim j <> None ->
  never_true (check_t008 json_loads output logs).
Proof.
  intros Hd Hj Hdir. unfold check_t008.
  rewrite (with_job_decoded _ _ d j Hd Hj).
  assert (forall b,
            snd (match job_read j, job_write j, job_trim j with
                 | None, None, None => tret true
                 | _, _, _ => tprint UnexpectedDirection ~;; tret false
                 end) = Ok b -> b = false) as H.
  { intros b.
    destruct (job_read j), (job_write j), (job_trim j); cbn;
      try congruence.
    destruct Hdir as [C | [C | C]]; congruence. }
  never_true_steps H.
Qed.

End TestVerdicts.

Lemma nonempty_trim_never_true_witness :
  never_true
    (check_t001
       (loads_job {| job_read := job_read read_job;
                     job_write := job_write read_job;
                     job_trim := job_read read_job;
                     job_mixed := None; job_sync := None |})
       "{}" example_logs).
Proof.
  set (j := {| job_read := job_read read_job;
               job_write := job_write read_job;
               job_trim := job_read read_job;
               job_mixed := None; job_sync := None |}).
  apply (nonempty_trim_never_true (loads_job j)
           {| test_id := 1; check := check_t001 (loads_job j) |}
           "{}" example_logs {| jobs := Some [j] |} j
           (report 3 no_stats good_stats good_stats)).
  - unfold tests. cbn [In]. tauto.
  - discriminate.
  - discriminate.
  - reflexivity.
  - reflexivity.
  - reflexivity.
  - reflexivity.
Defined.

Lemma unified_with_direction_never_true_witness :
  never_true (check_t008 (loads_job read_job) "{}" example_logs).
Proof.
  apply (unified_with_direction_never_true (loads_job read_job) "{}"
           example_logs {| jobs := Some [read_job] |} read_job).
  - reflexivity.
  - reflexivity.
  - left. discriminate.
Defined.

(** ** The terse fields of tests 10 and 11 *)

(** X15. A terse line that ends before the slice begins is not checked
    at all: [terse[a:b]] is then empty, [check_terse] has nothing to
    compare, and the step leaves [retval] as it was, without a line of
    output. *)
Theorem and_terse_short_line (terse : list string) (a b : nat) (j : job)
  (dir : section_name) (lat : lat_type) (retval : bool) (s : ddir_stats)
  (ptiles : dict) :
  (List.length terse <= a)%nat ->
  job_section j dir = Ok s ->
  js_percentile (stats_of s lat) = Some ptiles ->
  and_terse terse a b j dir lat retval = tret retval.
Proof.
  intros Hlen Hs Hp. unfold and_terse.
  rewrite Hs, tbind_tlift_ok, Hp, tbind_tlift_ok.
  unfold slice. rewrite (skipn_all2 _ Hlen), firstn_nil.
  cbn. rewrite andb_true_r. reflexivity.
Qed.

Lemma and_terse_short_line_witness :
  and_terse ["3"; "fio-3.16"; "job"]%string 17 34 read_job DirRead Clat true
  = tret true.
Proof.
  apply (and_terse_short_line _ 17 34 read_job DirRead Clat true
           (report 3 no_stats good_stats good_stats) example_ptiles).
  - cbn. lia.
  - reflexivity.
  - reflexivity.
Defined.

(** ** What [True] from a test function means *)

(** A step that threads [retval], followed by the rest of the body. *)
Lemma step_chain {B : Type} (m : bool -> T bool) (k : bool -> T B) (v : B)
  (P Q : Prop) :
  (forall r, snd (m r) = Ok true <-> r = true /\ P) ->
  (forall r, snd (k r) = Ok v <-> r = true /\ Q) ->
  forall r, snd (tbind (m r) k) = Ok v <-> r = true /\ P /\ Q.
Proof.
  intros Hm Hk r. rewrite snd_tbind.
  destruct (snd (m r)) as [b | e] eqn:E.
  - rewrite Hk. split.
    + intros [-> HQ]. apply Hm in E. tauto.
    + intros (-> & HP & HQ).
      assert (Ok b = Ok true) as [= ->]
        by (rewrite <- E; apply Hm; tauto).
      tauto.
  - split; [discriminate |]. intros (-> & HP & _). exfalso.
    assert (snd (m true) = Ok true) as C by (apply Hm; tauto).
    congruence.
Qed.

Lemma expect_empty_true j dir r :
  snd (expect_empty j dir r) = Ok true <->
  r = true /\ exists s, job_section j dir = Ok s /\ check_empty s = true.
Proof.
  unfold expect_empty. rewrite snd_tbind. cbn [tlift snd].
  destruct (job_section j dir) as [s | e].
  - destruct (check_empty s) eqn:E; cbn.
    + split; [intros [= ->]; split; [reflexivity | exists s; tauto] |
               intros [-> _]; reflexivity].
    + split; [discriminate | intros [_ (s' & [= <-] & C)]; congruence].
  - split; [discriminate | intros [_ (s' & C & _)]; discriminate].
Qed.

Lemma and_latencies_true logs jsondata ddir slat clat tlat plus unified r :
  snd (and_latencies logs jsondata ddir slat clat tlat plus unified r)
  = Ok true <->
  r = true /\
  forall lat, types slat clat tlat lat = true ->
              type_passes logs jsondata ddir plus unified lat.
Proof.
  rewrite <- check_latencies_pass_iff.
  unfold and_latencies. rewrite snd_tbind. unfold call. cbn [snd].
  destruct (snd (check_latencies _ _ _ _ _ _ _ _)) as [[|] | e];
    destruct r; cbn; split; try tauto; try discriminate;
    intros [? ?]; discriminate.
Qed.

Lemma result_chain {A B : Type} (x : result A) (k : A -> T B) (v : B) :
  snd (tbind (tlift x) k) = Ok v <->
  exists a, x = Ok a /\ snd (k a) = Ok v.
Proof.
  rewrite snd_tbind. cbn [tlift snd]. destruct x as [a | e].
  - split; [intros H; exists a; tauto | intros (a' & [= <-] & H); exact H].
  - split; [discriminate | intros (a' & C & _); discriminate].
Qed.

Lemma returns_pybool (r : bool) :
  snd (tret (PyBool r)) = Ok (PyBool true) <-> r = true /\ True.
Proof. cbn. split; [intros [= ->]; tauto | intros [-> _]; reflexivity]. Qed.

(** The body shared by [check_t001] to [check_t006]. *)
Lemma single_direction_body logs j e1 e2 dir ddir slat clat tlat plus :
  snd (retval <~ expect_empty j e1 true ;;
       retval <~ expect_empty j e2 retval ;;
       s <~ tlift (job_section j dir) ;;
       retval <~ and_latencies logs s ddir slat clat tlat plus false retval ;;
       tret (PyBool retval)) = Ok (PyBool true) <->
  single_direction_pass logs j e1 e2 dir ddir slat clat tlat plus.
Proof.
  assert (forall r,
            snd (s <~ tlift (job_section j dir) ;;
                 retval <~ and_latencies logs s ddir slat clat tlat plus
                             false r ;;
                 tret (PyBool retval)) = Ok (PyBool true) <->
            r = true /\
            exists s, job_section j dir = Ok s /\
                      forall lat, types slat clat tlat lat = true ->
                                  type_passes logs s ddir plus false lat)
    as Htail.
  { intros r. rewrite result_chain. split.
    - intros (s & Hs & H).
      apply (step_chain (fun r => and_latencies logs s ddir slat clat tlat
                                    plus false r)
               (fun r => tret (PyBool r)) (PyBool true) _ True
               (and_latencies_true logs s ddir slat clat tlat plus false)
               returns_pybool) in H.
      destruct H as (-> & H & _). split; [reflexivity |]. exists s. tauto.
    - intros (-> & s & Hs & H). exists s. split; [exact Hs |].
      apply (step_chain (fun r => and_latencies logs s ddir slat clat tlat
                                    plus false r)
               (fun r => tret (PyBool r)) (PyBool true) _ True
               (and_latencies_true logs s ddir slat clat tlat plus false)
               returns_pybool). tauto. }
  pose proof (step_chain (expect_empty j e2) _ (PyBool true) _ _
                (expect_empty_true j e2) Htail) as H2.
  pose proof (step_chain (expect_empty j e1) _ (PyBool true) _ _
                (expect_empty_true j e1) H2 true) as H1.
  cbv beta in H1. rewrite H1. unfold single_direction_pass. split.
  - intros (_ & (s1 & A1 & B1) & (s2 & A2 & B2) & s & A & B).
    exists s1, s2, s. tauto.
  - intros (s1 & s2 & s & A1 & B1 & A2 & B2 & A & B).
    split; [reflexivity |]. split; [exists s1; tauto |].
    split; [exists s2; tauto |]. exists s. tauto.
Qed.

Section SingleDirection.

Variable json_loads : string -> result (option document).

(** X16. What [True] from the tests 1 to 3 means. Once the report is
    decoded, each of them returns [True] exactly when the two sections
    it expects to be empty are there and empty, and every latency type
    it enables passes for its own direction against the log: test 1
    completion and total latency of the reads, test 2 total latency of
    the writes, test 3 completion latency of the trims, all without
    json+ bins. *)
Theorem single_direction_tests_pass (output : string)
  (logs : lat_type -> list log_line) (d : document) (j : job) :
  get_json document json_loads output = Ok (true, inl d) ->
  first_job d = Ok j ->
  (snd (check_t001 json_loads output logs) = Ok (PyBool true) <->
   single_direction_pass logs j DirWrite DirTrim DirRead 0
                         false true true false) /\
  (snd (check_t002 json_loads output logs) = Ok (PyBool true) <->
   single_direction_pass logs j DirRead DirTrim DirWrite 1
                         false false true false) /\
  (snd (check_t003 json_loads output logs) = Ok (PyBool true) <->
   single_direction_pass logs j DirRead DirWrite DirTrim 2
                         false true false false).
Proof.
  intros Hd Hj.
  unfold check_t001, check_t002, check_t003.
  rewrite !(with_job_decoded json_loads _ _ d j Hd Hj).
  repeat split; try (apply single_direction_body);
    intros H; apply single_direction_body; exact H.
Qed.

(** X17. What [True] from the tests 4 to 6 means, the same with json+:
    test 4 all three latency types of the reads, test 5 completion and
    total latency of the writes, test 6 completion latency of the
    reads, each with bins that are present and consistent. *)
Theorem single_direction_plus_tests_pass (output : string)
  (logs : lat_type -> list log_line) (d : document) (j : job) :
  get_json document json_loads output = Ok (true, inl d) ->
  first_job d = Ok j ->
  (snd (check_t004 json_loads output logs) = Ok (PyBool true) <->
   single_direction_pass logs j DirWrite DirTrim DirRead 0
                         true true true true) /\
  (snd (check_t005 json_loads output logs) = Ok (PyBool true) <->
   single_direction_pass logs j DirRead DirTrim DirWrite 1
                         false true true true) /\
  (snd (check_t006 json_loads output logs) = Ok (PyBool true) <->
   single_direction_pass logs j DirWrite DirTrim DirRead 0
                         false true false true).
Proof.
  intros Hd Hj.
  unfold check_t004, check_t005, check_t006.
  rewrite !(with_job_decoded json_loads _ _ d j Hd Hj).
  repeat split; try (apply single_direction_body);
    intros H; apply single_direction_body; exact H.
Qed.

End SingleDirection.

Lemma single_direction_tests_pass_witness :
  let json_loads := loads_job read_job in
  (snd (check_t001 json_loads "{}" example_logs) = Ok (PyBool true) <->
   single_direction_pass example_logs read_job DirWrite DirTrim DirRead 0
                         false true true false) /\
  (snd (check_t002 json_loads "{}" example_logs) = Ok (PyBool true) <->
   single_direction_pass example_logs read_job DirRead DirTrim DirWrite 1
                         false false true false) /\
  (snd (check_t003 json_loads "{}" example_logs) = Ok (PyBool true) <->
   single_direction_pass example_logs read_job DirRead DirWrite DirTrim 2
                         false true false false).
Proof.
  intros json_loads.
  apply (single_direction_tests_pass json_loads "{}" example_logs
           {| jobs := Some [read_job] |} read_job); reflexivity.
Defined.

Lemma single_direction_plus_tests_pass_witness :
  let json_loads := loads_job read_job in
  (snd (check_t004 json_loads "{}" example_logs) = Ok (PyBool true) <->
   single_direction_pass example_logs read_job DirWrite DirTrim DirRead 0
                         true true true true) /\
  (snd (check_t005 json_loads "{}" example_logs) = Ok (PyBool true) <->
   single_direction_pass example_logs read_job DirRead DirTrim DirWrite 1
                         false true true true) /\
  (snd (check_t006 json_loads "{}" example_logs) = Ok (PyBool true) <->
   single_direction_pass example_logs read_job DirWrite DirTrim DirRead 0
                         false true false true).
Proof.
  intros json_loads.
  apply (single_direction_plus_tests_pass json_loads "{}" example_logs
           {| jobs := Some [read_job] |} read_job); reflexivity.
Defined.

(** The example job passes test 1. *)
Example read_job_passes_t001 :
  check_t001 (loads_job read_job) "{}" example_logs =
  ([Diag (PercentilesSkipped Slat); Diag (PercentilesMatch Clat);
    Diag (PercentilesMatch Lat)], Ok (PyBool true)).
Proof. vm_compute. reflexivity. Qed.

(** A section checked against the log, followed by the rest of the
    body. *)
Lemma section_step {B : Type} logs j dir ddir slat clat tlat plus
  (k : bool -> T B) (v : B) (Q : Prop) :
  (forall r, snd (k r) = Ok v <-> r = true /\ Q) ->
  forall r,
    snd (s <~ tlift (job_section j dir) ;;
         retval <~ and_latencies logs s ddir slat clat tlat plus false r ;;
         k retval) = Ok v <->
    r = true /\ section_passes logs j dir ddir slat clat tlat plus /\ Q.
Proof.
  intros Hk r. rewrite result_chain. unfold section_passes. split.
  - intros (s & Hs & H).
    apply (step_chain (fun r => and_latencies logs s ddir slat clat tlat
                                  plus false r) k v _ Q
             (and_latencies_true logs s ddir slat clat tlat plus false) Hk)
      in H.
    destruct H as (-> & H & HQ). split; [reflexivity |].
    split; [exists s; tauto | exact HQ].
  - intros (-> & (s & Hs & H) & HQ). exists s. split; [exact Hs |].
    apply (step_chain (fun r => and_latencies logs s ddir slat clat tlat
                                  plus false r) k v _ Q
             (and_latencies_true logs s ddir slat clat tlat plus false) Hk).
    tauto.
Qed.

Lemma and_terse_true terse a b j dir lat r :
  snd (and_terse terse a b j dir lat r) = Ok true <->
  r = true /\ terse_passes terse a b j dir lat.
Proof.
  unfold and_terse, terse_passes. rewrite result_chain. split.
  - intros (s & Hs & H). rewrite snd_tbind in H. cbn [tlift snd] in H.
    destruct (js_percentile (stats_of s lat)) as [ptiles |] eqn:Ep;
      [| discriminate].
    rewrite snd_tbind in H. unfold call in H. cbn [snd] in H.
    destruct (snd (check_terse (slice a b terse) ptiles)) as [[|] | e] eqn:Ec;
      destruct r; cbn in H; try discriminate.
    split; [reflexivity |]. exists s, ptiles. tauto.
  - intros (-> & s & ptiles & Hs & Hp & Hc). exists s. split; [exact Hs |].
    rewrite Hp, tbind_tlift_ok, snd_tbind. unfold call. cbn [snd].
    rewrite Hc. reflexivity.
Qed.

Lemma check_sync_lat_plus_true sync :
  snd (check_sync_lat sync true) = Ok true <->
  exists ptiles,
    js_percentile (sync_lat_ns sync) = Some ptiles /\
    sync_total_ios sync = js_N (sync_lat_ns sync) /\
    snd (check_jsonplus (sync_lat_ns sync)) = Ok true.
Proof.
  unfold check_sync_lat.
  destruct (js_percentile (sync_lat_ns sync)) as [ptiles |].
  2: { cbn. split; [discriminate | intros (p & C & _); discriminate]. }
  rewrite snd_bind.
  destruct (Z.eqb_spec (sync_total_ios sync) (js_N (sync_lat_ns sync)))
    as [E | E]; cbn [negb snd bind print ret app];
    assert (forall r : bool,
              snd (match js_bins (sync_lat_ns sync) with
                   | _ => ok <- check_jsonplus (sync_lat_ns sync) ;;
                          ret (if ok then r else false)
                   end) =
              match snd (check_jsonplus (sync_lat_ns sync)) with
              | Ok ok => Ok (if ok then r else false)
              | Raise e => Raise e
              end) as Hs
      by (intros r; destruct (js_bins (sync_lat_ns sync));
          rewrite snd_bind;
          destruct (snd (check_jsonplus (sync_lat_ns sync))); reflexivity);
    cbn [negb] in Hs |- *; rewrite Hs;
    destruct (snd (check_jsonplus (sync_lat_ns sync))) as [[|] | e].
  - split; [intros _; exists ptiles; tauto | reflexivity].
  - split; [discriminate | intros (p & _ & _ & C); discriminate].
  - split; [discriminate | intros (p & _ & _ & C); discriminate].
  - split; [discriminate | intros (p & _ & C & _); contradiction].
  - split; [discriminate | intros (p & _ & C & _); contradiction].
  - split; [discriminate | intros (p & _ & C & _); contradiction].
Qed.

Lemma sync_step {B : Type} j (k : bool -> T B) (v : B) (Q : Prop) :
  (forall r, snd (k r) = Ok v <-> r = true /\ Q) ->
  forall r,
    snd (sync <~ tlift (match job_sync j with
                        | Some s => Ok s
                        | None => Raise KeyError
                        end) ;;
         ok <~ call (check_sync_lat sync true) ;;
         retval <~ (if negb ok then tprint SyncError ~;; tret false
                    else tret r) ;;
         k retval) = Ok v <->
    r = true /\ sync_passes j /\ Q.
Proof.
  intros Hk r. rewrite result_chain. unfold sync_passes.
  assert (forall sync,
            snd (ok <~ call (check_sync_lat sync true) ;;
                 retval <~ (if negb ok then tprint SyncError ~;; tret false
                            else tret r) ;;
                 k retval) = Ok v <->
            r = true /\ snd (check_sync_lat sync true) = Ok true /\ Q) as Hs.
  { intros sync. rewrite snd_tbind. unfold call. cbn [snd].
    destruct (snd (check_sync_lat sync true)) as [[|] | e]; cbn [negb].
    - rewrite snd_tbind. cbn [tret snd]. rewrite Hk. tauto.
    - rewrite snd_tbind, snd_tbind. cbn [tprint tret snd]. rewrite Hk.
      split; [intros [C _]; discriminate | intros (_ & C & _); discriminate].
    - split; [discriminate | intros (_ & C & _); discriminate]. }
  split.
  - intros (sync & Hj & H). apply Hs in H. destruct H as (-> & H & HQ).
    apply check_sync_lat_plus_true in H. destruct H as (ptiles & H1 & H2 & H3).
    split; [reflexivity |]. split; [| exact HQ].
    exists sync, ptiles. destruct (job_sync j); [| discriminate].
    injection Hj as ->. tauto.
  - intros (-> & (sync & ptiles & Hj & H1 & H2 & H3) & HQ).
    exists sync. rewrite Hj. split; [reflexivity |]. apply Hs.
    split; [reflexivity |]. split; [| exact HQ].
    apply check_sync_lat_plus_true. exists ptiles. tauto.
Qed.

Section OtherTests.

Variable json_loads : string -> result (option document).

(** X18. What [True] from the tests 7 and 9 means. Test 7: the trim
    section is empty and the submission latency passes for the reads and
    for the writes, with json+. Test 9: the read and trim sections are
    empty, the ['sync'] section passes [check_sync_lat] with its bins,
    and the completion and total latency of the writes pass, with
    json+. *)
Theorem two_part_tests_pass (output : string)
  (logs : lat_type -> list log_line) (d : document) (j : job) :
  get_json document json_loads output = Ok (true, inl d) ->
  first_job d = Ok j ->
  (snd (check_t007 json_loads output logs) = Ok (PyBool true) <->
   section_empty j DirTrim /\
   section_passes logs j DirRead 0 true false false true /\
   section_passes logs j DirWrite 1 true false false true) /\
  (snd (check_t009 json_loads output logs) = Ok (PyBool true) <->
   section_empty j DirRead /\ section_empty j DirTrim /\
   sync_passes j /\
   section_passes logs j DirWrite 1 false true true true).
Proof.
  intros Hd Hj. unfold check_t007, check_t009.
  rewrite !(with_job_decoded json_loads _ _ d j Hd Hj).
  split.
  - pose proof (section_step logs j DirWrite 1 true false false true _
                  (PyBool true) True returns_pybool) as H3.
    pose proof (section_step logs j DirRead 0 true false false true _
                  (PyBool true) _ H3) as H2.
    pose proof (step_chain (expect_empty j DirTrim) _ (PyBool true) _ _
                  (expect_empty_true j DirTrim) H2 true) as H1.
    cbv beta in H1. rewrite H1. unfold section_empty. tauto.
  - pose proof (section_step logs j DirWrite 1 false true true true _
                  (PyBool true) True returns_pybool) as H4.
    pose proof (sync_step j _ (PyBool true) _ H4) as H3.
    pose proof (step_chain (expect_empty j DirTrim) _ (PyBool true) _ _
                  (expect_empty_true j DirTrim) H3) as H2.
    pose proof (step_chain (expect_empty j DirRead) _ (PyBool true) _ _
                  (expect_empty_true j DirRead) H2 true) as H1.
    cbv beta in H1. rewrite H1. unfold section_empty. tauto.
Qed.

(** X19. What [True] from test 8 means: the job has no ['read'],
    ['write'] or ['trim'] section, it has a ['mixed'] section, and all
    three latency types of it pass, with json+, against all the samples
    of the logs whatever their direction. *)
Theorem unified_test_passes (output : string)
  (logs : lat_type -> list log_line) (d : document) (j : job) :
  get_json document json_loads output = Ok (true, inl d) ->
  first_job d = Ok j ->
  snd (check_t008 json_loads output logs) = Ok (PyBool true) <->
  job_read j = None /\ job_write j = None /\ job_trim j = None /\
  exists m, job_mixed j = Some m /\
            forall lat ddir, type_passes logs m ddir true true lat.
Proof.
  intros Hd Hj. unfold check_t008.
  rewrite (with_job_decoded json_loads _ _ d j Hd Hj).
  assert (forall r,
            snd (m <~ tlift (match job_mixed j with
                             | Some s => Ok s
                             | None => Raise KeyError
                             end) ;;
                 retval <~ and_latencies logs m 0 true true true true true r ;;
                 tret (PyBool retval)) = Ok (PyBool true) <->
            r = true /\
            exists m, job_mixed j = Some m /\
                      forall lat, type_passes logs m 0 true true lat) as Ht.
  { intros r. rewrite result_chain. split.
    - intros (m & Hm & H).
      apply (step_chain (fun r => and_latencies logs m 0 true true true true
                                    true r)
               (fun r => tret (PyBool r)) (PyBool true) _ True
               (and_latencies_true logs m 0 true true true true true)
               returns_pybool) in H.
      destruct H as (-> & H & _). split; [reflexivity |]. exists m.
      destruct (job_mixed j); [| discriminate]. injection Hm as ->.
      split; [reflexivity |]. intros lat. apply H. destruct lat; reflexivity.
    - intros (-> & m & Hm & H). exists m. rewrite Hm.
      split; [reflexivity |].
      apply (step_chain (fun r => and_latencies logs m 0 true true true true
                                    true r)
               (fun r => tret (PyBool r)) (PyBool true) _ True
               (and_latencies_true logs m 0 true true true true true)
               returns_pybool).
      split; [reflexivity |]. split; [| exact I]. intros lat _. apply H. }
  assert (forall m lat ddir,
            type_passes logs m ddir true true lat <->
            type_passes logs m 0 true true lat) as Hdir
    by (intros m lat ddir; unfold type_passes, load_latencies; reflexivity).
  rewrite snd_tbind.
  destruct (job_read j), (job_write j), (job_trim j);
    cbn [tprint tret tbind snd app];
    rewrite Ht;
    try (split; [intros [C _]; discriminate
                | intros (C1 & C2 & C3 & _); discriminate]).
  split.
  - intros (_ & m & Hm & H). repeat split. exists m. split; [exact Hm |].
    intros lat ddir. apply Hdir. apply H.
  - intros (_ & _ & _ & m & Hm & H). split; [reflexivity |]. exists m.
    split; [exact Hm |]. intros lat. apply (H lat 0).
Qed.

(** X20. What [True] from the tests 10 and 11 means. A terse line is
    found in the output, the trim section is empty, the enabled latency
    types pass for the reads and for the writes with json+ (all three
    in test 10, the total latency in test 11), and the fields 17 to 33
    and 58 to 74 of the terse line agree with the percentiles of the
    reads and of the writes (completion latency in test 10, total
    latency in test 11). *)
Theorem terse_tests_pass (output : string)
  (logs : lat_type -> list log_line) (d : document) (j : job) :
  get_json document json_loads output = Ok (true, inl d) ->
  first_job d = Ok j ->
  (snd (check_t010 json_loads output logs) = Ok (PyBool true) <->
   exists terse,
     get_terse output = Ok (true, inl terse) /\
     section_empty j DirTrim /\
     section_passes logs j DirRead 0 true true true true /\
     section_passes logs j DirWrite 1 true true true true /\
     terse_passes terse 17 34 j DirRead Clat /\
     terse_passes terse 58 75 j DirWrite Clat) /\
  (snd (check_t011 json_loads output logs) = Ok (PyBool true) <->
   exists terse,
     get_terse output = Ok (true, inl terse) /\
     section_empty j DirTrim /\
     section_passes logs j DirRead 0 false false true true /\
     section_passes logs j DirWrite 1 false false true true /\
     terse_passes terse 17 34 j DirRead Lat /\
     terse_passes terse 58 75 j DirWrite Lat).
Proof.
  intros Hd Hj. unfold check_t010, check_t011.
  rewrite !(with_job_decoded json_loads _ _ d j Hd Hj).
  assert (forall body (P : list string -> Prop),
            (forall terse, snd (body terse) = Ok (PyBool true) <-> P terse) ->
            (snd (with_terse output body) = Ok (PyBool true) <->
             exists terse, get_terse output = Ok (true, inl terse) /\ P terse))
    as Hw.
  { intros body P Hb. unfold with_terse. rewrite snd_tbind. cbn [tlift snd].
    destruct (get_terse output) as [[[|] [terse | s]] | e];
      try (cbn; split; [discriminate | intros (t & C & _); discriminate]).
    rewrite Hb. split; [intros H; exists terse; tauto |
                        intros (t & [= <-] & H); exact H]. }
  assert (forall terse slat clat tlat lat,
            snd (retval <~ expect_empty j DirTrim true ;;
                 r <~ tlift (job_section j DirRead) ;;
                 retval <~ and_latencies logs r 0 slat clat tlat true false
                             retval ;;
                 w <~ tlift (job_section j DirWrite) ;;
                 retval <~ and_latencies logs w 1 slat clat tlat true false
                             retval ;;
                 retval <~ and_terse terse 17 34 j DirRead lat retval ;;
                 retval <~ and_terse terse 58 75 j DirWrite lat retval ;;
                 tret (PyBool retval)) = Ok (PyBool true) <->
            section_empty j DirTrim /\
            section_passes logs j DirRead 0 slat clat tlat true /\
            section_passes logs j DirWrite 1 slat clat tlat true /\
            terse_passes terse 17 34 j DirRead lat /\
            terse_passes terse 58 75 j DirWrite lat) as Hbody.
  { intros terse slat clat tlat lat.
    pose proof (step_chain (and_terse terse 58 75 j DirWrite lat) _
                  (PyBool true) _ True
                  (and_terse_true terse 58 75 j DirWrite lat) returns_pybool)
      as H5.
    pose proof (step_chain (and_terse terse 17 34 j DirRead lat) _
                  (PyBool true) _ _
                  (and_terse_true terse 17 34 j DirRead lat) H5) as H4.
    pose proof (section_step logs j DirWrite 1 slat clat tlat true _
                  (PyBool true) _ H4) as H3.
    pose proof (section_step logs j DirRead 0 slat clat tlat true _
                  (PyBool true) _ H3) as H2.
    pose proof (step_chain (expect_empty j DirTrim) _ (PyBool true) _ _
                  (expect_empty_true j DirTrim) H2 true) as H1.
    cbv beta in H1. rewrite H1. unfold section_empty. tauto. }
  split; apply Hw; intros terse; apply Hbody.
Qed.

End OtherTests.

(** ** Rounding keeps the order *)

Lemma rne_tie_even n d :
  0 < d -> 2 * Z.abs (rne n d * d - n) = d -> Z.even (rne n d) = true.
Proof.
  intros Hd. unfold rne.
  pose proof (Z.div_mod n d ltac:(lia)) as E.
  pose proof (Z.mod_pos_bound n d Hd) as B.
  destruct (2 * (n mod d) ?= d) eqn:C.
  - apply Z.compare_eq in C.
    destruct (Z.even (n / d)) eqn:Ev; [intros _; exact Ev |].
    intros _. rewrite Z.even_add, Ev. reflexivity.
  - rewrite Z.compare_lt_iff in C. intros H. exfalso. nia.
  - rewrite Z.compare_gt_iff in C. intros H. exfalso. nia.
Qed.

Lemma rne_mono n1 d1 n2 d2 :
  0 < d1 -> 0 < d2 -> n1 * d2 <= n2 * d1 -> rne n1 d1 <= rne n2 d2.
Proof.
  intros H1 H2 H.
  pose proof (rne_error n1 d1 H1) as E1.
  pose proof (rne_error n2 d2 H2) as E2.
  pose proof (rne_tie_even n1 d1 H1) as T1.
  pose proof (rne_tie_even n2 d2 H2) as T2.
  set (k1 := rne n1 d1) in *. set (k2 := rne n2 d2) in *.
  destruct (Z.le_gt_cases k1 k2) as [L | G]; [exact L | exfalso].
  assert (0 < d1 * d2) as Hdd by nia.
  assert ((2 * (k1 * d1 - n1) - d1) * d2 <= 0) as A by nia.
  assert ((2 * (n2 - k2 * d2) - d2) * d1 <= 0) as B by nia.
  assert (2 * (k1 - k2) * (d1 * d2) <= 2 * (d1 * d2)) as S by nia.
  assert (k1 = k2 + 1) as K by nia.
  assert (2 * (k1 * d1 - n1) = d1) as A' by nia.
  assert (2 * (n2 - k2 * d2) = d2) as B' by nia.
  assert (Z.even k1 = true) as Ev1 by (apply T1; lia).
  assert (Z.even k2 = true) as Ev2 by (apply T2; lia).
  rewrite K, Z.even_add, Ev2 in Ev1. discriminate.
Qed.

Lemma scaled_mono x y e : (x <= y)%Q -> scaled x e <= scaled y e.
Proof.
  intros H. unfold Qle in H. unfold scaled.
  destruct (0 <=? e) eqn:E.
  - apply Z.leb_le in E. pose proof (Z_pow2_pos e E) as P.
    apply rne_mono; try lia. nia.
  - apply Z.leb_gt in E. pose proof (Z_pow2_pos (- e) ltac:(lia)) as P.
    apply rne_mono; try lia. nia.
Qed.

Lemma ulp_exp_mono x y : (0 <= x <= y)%Q -> ulp_exp x <= ulp_exp y.
Proof.
  intros [H0 H].
  assert (0 <= y)%Q as Hy by (apply Qle_trans with x; assumption).
  destruct (ulp_exp_spec y Hy) as (Hm & Hu & _).
  apply ulp_exp_upper; [exact H0 | | exact Hm].
  apply Qle_lt_trans with y; assumption.
Qed.

Lemma rounded_mono x y : (0 <= x <= y)%Q -> (rounded x <= rounded y)%Q.
Proof.
  intros [H0 H].
  assert (0 <= y)%Q as Hy by (apply Qle_trans with x; assumption).
  pose proof (ulp_exp_mono x y (conj H0 H)) as He.
  destruct (Z.eq_dec (ulp_exp x) (ulp_exp y)) as [E | NE].
  - unfold rounded. rewrite !of_scaled_eq, E.
    apply Qmult_le_compat_r; [| apply Qlt_le_weak, pow2_pos].
    rewrite <- Zle_Qle. apply scaled_mono. exact H.
  - assert (ulp_exp x < ulp_exp y) as Hlt by lia.
    destruct (ulp_exp_spec x H0) as (Hmx & Hux & _).
    destruct (ulp_exp_spec y Hy) as (_ & _ & [Em | Hly]); [lia |].
    set (ex := ulp_exp x) in *. set (ey := ulp_exp y) in *.
    (* the power of two between them is on both grids *)
    assert (pow2 (ey + 52) == inject_Z (2 ^ 52) * pow2 ey)%Q as G.
    { rewrite (Z.add_comm ey 52), pow2_add, (pow2_Z 52) by lia.
      reflexivity. }
    apply Qle_trans with (inject_Z (2 ^ 52) * pow2 ey)%Q.
    + rewrite <- (grid_shift (2 ^ 52) ey ex) by lia.
      unfold rounded. fold ex. rewrite of_scaled_eq.
      apply Qmult_le_compat_r; [| apply Qlt_le_weak, pow2_pos].
      rewrite <- Zle_Qle. apply scaled_upper.
      rewrite (grid_shift (2 ^ 52) ey ex) by lia. rewrite <- G.
      apply Qlt_le_weak. apply Qlt_le_trans with (1 := Hux).
      apply pow2_le. lia.
    + apply rounded_ge_grid; [| fold ey; lia]. rewrite <- G. exact Hly.
Qed.

(** The rank in closed form. *)
Lemma percentile_rank_explicit percentile p n c m :
  decimal_of_string percentile = Some p ->
  (0 <= p <= 100)%Q -> Z.of_nat n < 2 ^ 53 ->
  of_int 100 = Ok (Fin c) -> (c == 100)%Q ->
  of_int (Z.of_nat n) = Ok (Fin m) -> (m == inject_Z (Z.of_nat n))%Q ->
  percentile_rank percentile n =
  Ok (Qceiling (rounded (rounded (rounded p / c) * m))).
Proof.
  intros Hdec [Hp0 Hp100] Hn Ec Hc Em Hm.
  unfold percentile_rank, float_of_string. rewrite Hdec. cbn [rbind].
  rewrite round_small by (split; lra).
  set (f := rounded p).
  assert (0 <= f <= 100)%Q as [Hf0 Hf100].
  { split; [apply rounded_nonneg; exact Hp0 |].
    change 100%Q with (inject_Z 100).
    apply rounded_le_int; [split; assumption | lia]. }
  unfold fdiv_int. rewrite Ec. cbn [rbind fdiv].
  rewrite is_zero_false by (rewrite Hc; discriminate).
  assert (f / c == f * (1 # 100))%Q as Eq by (rewrite Hc; field).
  set (q := (f / c)%Q) in *.
  assert (0 <= q <= 1)%Q as [Hq0 Hq1] by (split; lra).
  rewrite round_small by (split; lra).
  set (g := rounded q).
  assert (0 <= g <= 1)%Q as [Hg0 Hg1].
  { split; [apply rounded_nonneg; exact Hq0 |].
    change 1%Q with (inject_Z 1).
    apply rounded_le_int; [split; assumption | lia]. }
  unfold fmul_int. rewrite Em. cbn [rbind fmul].
  set (N := inject_Z (Z.of_nat n)) in *.
  assert (0 <= N)%Q as HN0
    by (unfold N; change 0%Q with (inject_Z 0); rewrite <- Zle_Qle; lia).
  assert (N <= 9007199254740992)%Q as HNb
    by (unfold N; change 9007199254740992%Q with (inject_Z (2 ^ 53));
        rewrite <- Zle_Qle; lia).
  assert (g * m == g * N)%Q as Egm by (rewrite Hm; reflexivity).
  set (t := (g * m)%Q) in *.
  assert (0 <= t <= N)%Q as [Hr0 Hr1].
  { rewrite Egm. split; [apply Qmult_le_0_compat; assumption |].
    rewrite <- (Qmult_1_l N) at 2. apply Qmult_le_compat_r; assumption. }
  rewrite round_small by (split; lra).
  reflexivity.
Qed.

(** A higher percentile never gets a lower rank. *)
Lemma percentile_rank_mono label1 label2 p1 p2 n :
  decimal_of_string label1 = Some p1 ->
  decimal_of_string label2 = Some p2 ->
  (0 <= p1)%Q -> (p1 <= p2)%Q -> (p2 <= 100)%Q -> Z.of_nat n < 2 ^ 53 ->
  exists rank1 rank2,
    percentile_rank label1 n = Ok rank1 /\
    percentile_rank label2 n = Ok rank2 /\
    0 <= rank1 <= rank2 /\ rank2 <= Z.of_nat n.
Proof.
  intros D1 D2 H0 H12 H100 Hn.
  assert (0 <= p2)%Q as H02 by (apply Qle_trans with p1; assumption).
  assert (p1 <= 100)%Q as H1100 by (apply Qle_trans with p2; assumption).
  destruct (of_int_exact 100 ltac:(lia)) as (c & Ec & Hc).
  change (inject_Z 100) with 100%Q in Hc.
  destruct (of_int_exact (Z.of_nat n) ltac:(lia)) as (m & Em & Hm).
  destruct (percentile_rank_range label1 p1 n D1 (conj H0 H1100) Hn)
    as (r1 & R1 & B1).
  destruct (percentile_rank_range label2 p2 n D2 (conj H02 H100) Hn)
    as (r2 & R2 & B2).
  exists r1, r2. split; [exact R1 |]. split; [exact R2 |].
  split; [split; [lia |] | lia].
  rewrite (percentile_rank_explicit label1 p1 n c m D1 (conj H0 H1100) Hn Ec
             Hc Em Hm) in R1.
  rewrite (percentile_rank_explicit label2 p2 n c m D2 (conj H02 H100) Hn Ec
             Hc Em Hm) in R2.
  injection R1 as <-. injection R2 as <-.
  apply Qceiling_resp_le.
  assert (0 < c)%Q as Hcp by (rewrite Hc; reflexivity).
  assert (0 <= m)%Q as Hmp
    by (rewrite Hm; change 0%Q with (inject_Z 0); rewrite <- Zle_Qle; lia).
  assert (0 <= rounded p1 <= rounded p2)%Q as [F0 F12]
    by (split; [apply rounded_nonneg; exact H0 |
                apply rounded_mono; split; assumption]).
  assert (0 <= rounded p1 / c <= rounded p2 / c)%Q as [Q0 Q12].
  { split.
    - apply Qle_shift_div_l; [exact Hcp | lra].
    - unfold Qdiv. apply Qmult_le_compat_r; [exact F12 |].
      apply Qlt_le_weak, Qinv_lt_0_compat. exact Hcp. }
  assert (0 <= rounded (rounded p1 / c) <= rounded (rounded p2 / c))%Q
    as [G0 G12]
    by (split; [apply rounded_nonneg; exact Q0 |
                apply rounded_mono; split; assumption]).
  apply rounded_mono. split.
  - apply Qmult_le_0_compat; assumption.
  - apply Qmult_le_compat_r; assumption.
Qed.

Lemma sorted_nth_mono s :
  Sorted Z.le s ->
  forall i j, (i <= j < List.length s)%nat -> nth i s 0 <= nth j s 0.
Proof.
  intros S.
  assert (Transitive Z.le) as TR by (intros x y z; lia).
  apply (Sorted_StronglySorted TR) in S.
  induction S as [| a s S IH F]; intros i j [Hij Hj].
  - cbn in Hj. lia.
  - destruct i as [| i], j as [| j]; cbn [nth]; cbn [List.length] in Hj.
    + lia.
    + rewrite Forall_forall in F. apply F. apply nth_In. lia.
    + lia.
    + apply IH. lia.
Qed.

(** X21. The reference is monotone in the percentile: for the same
    samples, a percentile label with a higher value never gets a lower
    reference value, through all the roundings of the rank. Both are
    among the samples. *)
Theorem reference_monotone (latencies : list Z) (label1 label2 : string)
  (p1 p2 : Q) :
  latencies <> [] -> Z.of_nat (List.length latencies) < 2 ^ 53 ->
  decimal_of_string label1 = Some p1 ->
  decimal_of_string label2 = Some p2 ->
  (0 <= p1)%Q -> (p1 <= p2)%Q -> (p2 <= 100)%Q ->
  exists value1 value2,
    reference (sort latencies) label1 = Ok value1 /\
    reference (sort latencies) label2 = Ok value2 /\
    value1 <= value2 /\ In value1 latencies /\ In value2 latencies.
Proof.
  intros Hne Hn D1 D2 H0 H12 H100.
  pose proof (sort_length latencies) as Hl.
  destruct (percentile_rank_mono label1 label2 p1 p2
              (List.length (sort latencies)) D1 D2 H0 H12 H100)
    as (r1 & r2 & R1 & R2 & B1 & B2); [rewrite Hl; exact Hn |].
  assert (0 < Z.of_nat (List.length (sort latencies))) as Hpos.
  { rewrite Hl. destruct latencies; [contradiction | cbn; lia]. }
  unfold reference. rewrite R1, R2. cbn [rbind].
  rewrite !percentile_index_max.
  rewrite !list_index_in_range by lia.
  eexists. eexists. split; [reflexivity |]. split; [reflexivity |].
  split; [| split].
  - apply sorted_nth_mono; [apply sort_sorted | lia].
  - apply (Permutation_in _ (sort_perm latencies)). apply nth_In. lia.
  - apply (Permutation_in _ (sort_perm latencies)). apply nth_In. lia.
Qed.

Lemma reference_monotone_witness :
  exists value1 value2,
    reference (sort [30; 10; 20]) "50.000000" = Ok value1 /\
    reference (sort [30; 10; 20]) "99.900000" = Ok value2 /\
    value1 <= value2 /\ In value1 [30; 10; 20] /\ In value2 [30; 10; 20].
Proof.
  apply (reference_monotone [30; 10; 20] "50.000000" "99.900000"
           (50000000 # 1000000) (99900000 # 1000000)).
  - discriminate.
  - cbn. lia.
  - reflexivity.
  - reflexivity.
  - unfold Qle; simpl; lia.
  - unfold Qle; simpl; lia.
  - unfold Qle; simpl; lia.
Defined.

(** ** The reference at the ends of the scale *)

Lemma sorted_bounds latencies :
  latencies <> [] ->
  let s := sort latencies in
  let n := List.length latencies in
  (In (nth 0 s 0) latencies /\ Forall (fun x => nth 0 s 0 <= x) latencies) /\
  (In (nth (n - 1) s 0) latencies /\
   Forall (fun x => x <= nth (n - 1) s 0) latencies).
Proof.
  intros Hne s n.
  assert (0 < n)%nat as Hn
    by (unfold n; destruct latencies; [contradiction | cbn; lia]).
  assert (List.length s = n) as Hl by apply sort_length.
  assert (forall i, (i < n)%nat -> In (nth i s 0) latencies) as Hin.
  { intros i Hi. apply (Permutation_in _ (sort_perm latencies)).
    apply nth_In. fold s. rewrite Hl. exact Hi. }
  assert (forall x, In x latencies -> exists i, (i < n)%nat /\ nth i s 0 = x)
    as Hnth.
  { intros x Hx.
    apply (Permutation_in _ (Permutation_sym (sort_perm latencies))) in Hx.
    destruct (In_nth s x 0 Hx) as (i & Hi & E). exists i.
    rewrite Hl in Hi. split; [exact Hi | exact E]. }
  pose proof (sorted_nth_mono s (sort_sorted latencies)) as Hm.
  rewrite Hl in Hm.
  split; (split; [apply Hin; lia |]); apply Forall_forall; intros x Hx;
    destruct (Hnth x Hx) as (i & Hi & <-); apply Hm; lia.
Qed.

(** X22. The percentile 0 is referred to the smallest sample: for a
    label whose value is 0 the rank is 0 and the guard [rank > 0] puts
    the index at 0 instead of -1, which Python would read as the last
    element. *)
Theorem reference_at_zero (latencies : list Z) (label : string) (p : Q) :
  latencies <> [] -> Z.of_nat (List.length latencies) < 2 ^ 50 ->
  decimal_of_string label = Some p -> (p == 0)%Q ->
  exists value,
    reference (sort latencies) label = Ok value /\
    In value latencies /\ Forall (fun x => value <= x) latencies.
Proof.
  intros Hne Hn Hd Hp.
  assert (Z.of_nat (List.length latencies) < 2 ^ 53) as Hn53
    by (apply Z.lt_trans with (1 := Hn); apply Z.pow_lt_mono_r; lia).
  assert (0 < Z.of_nat (List.length latencies)) as Hpos
    by (destruct latencies; [contradiction | cbn; lia]).
  destruct (percentile_rank_value label p (List.length (sort latencies)) Hd)
    as (r & Hr & [R0 _] & Hnear);
    [rewrite Hp; split; discriminate | rewrite sort_length; exact Hn53 |].
  rewrite sort_length in Hnear. destruct (Hnear Hn) as [_ U].
  assert (r <= 5 # 16)%Q as U'.
  { rewrite Hp in U. apply Qle_trans with (1 := U).
    unfold Qle, Qplus, Qmult, inject_Z. cbn. lia. }
  assert (0 <= Qceiling r <= 1) as Hc.
  { split.
    - change 0 with (Qceiling (inject_Z 0)). apply Qceiling_resp_le. exact R0.
    - change 1 with (Qceiling (inject_Z 1)). apply Qceiling_resp_le.
      apply Qle_trans with (1 := U'). discriminate. }
  exists (nth 0 (sort latencies) 0). split.
  - unfold reference. rewrite Hr. cbn [rbind].
    rewrite percentile_index_max.
    replace (Z.max (Qceiling r - 1) 0) with 0 by lia.
    apply list_index_in_range. rewrite sort_length. lia.
  - apply (sorted_bounds latencies Hne).
Qed.

Lemma reference_at_zero_witness :
  exists value,
    reference (sort [30; 10; 20]) "0.000000" = Ok value /\
    In value [30; 10; 20] /\ Forall (fun x => value <= x) [30; 10; 20].
Proof.
  apply (reference_at_zero [30; 10; 20] "0.000000" (0 # 1000000)).
  - discriminate.
  - cbn. lia.
  - reflexivity.
  - reflexivity.
Defined.

(** X23. The percentile 100 is referred to the largest sample: for a
    label whose value is 100 the rank computed in binary64 is the number
    of samples, no rounding step takes it past the end of the list. *)
Theorem reference_at_hundred (latencies : list Z) (label : string) (p : Q) :
  latencies <> [] -> Z.of_nat (List.length latencies) < 2 ^ 50 ->
  decimal_of_string label = Some p -> (p == 100)%Q ->
  exists value,
    reference (sort latencies) label = Ok value /\
    In value latencies /\ Forall (fun x => x <= value) latencies.
Proof.
  intros Hne Hn Hd Hp.
  assert (Z.of_nat (List.length latencies) < 2 ^ 53) as Hn53
    by (apply Z.lt_trans with (1 := Hn); apply Z.pow_lt_mono_r; lia).
  assert (0 < Z.of_nat (List.length latencies)) as Hpos
    by (destruct latencies; [contradiction | cbn; lia]).
  destruct (percentile_rank_value label p (List.length (sort latencies)) Hd)
    as (r & Hr & [_ R1] & Hnear);
    [rewrite Hp; split; discriminate | rewrite sort_length; exact Hn53 |].
  rewrite sort_length in Hnear, R1. destruct (Hnear Hn) as [L _].
  set (n := Z.of_nat (List.length latencies)) in *.
  assert (Qceiling r = n) as Hc.
  { apply Z.le_antisymm.
    - rewrite <- (Qceiling_Z n). apply Qceiling_resp_le. exact R1.
    - assert (inject_Z (n - 1) < inject_Z (Qceiling r))%Q as C.
      { apply Qlt_le_trans with r; [| apply Qle_ceiling].
        apply Qlt_le_trans with (2 := L). rewrite Hp.
        unfold Z.sub. rewrite inject_Z_plus, inject_Z_opp.
        change (inject_Z 1) with 1%Q.
        set (N := inject_Z n). clearbody N. lra. }
      rewrite <- Zlt_Qlt in C. lia. }
  exists (nth (List.length latencies - 1) (sort latencies) 0). split.
  - unfold reference. rewrite Hr, Hc. cbn [rbind].
    rewrite percentile_index_max.
    replace (Z.max (n - 1) 0) with (n - 1) by lia.
    rewrite list_index_in_range by (rewrite sort_length; fold n; lia).
    f_equal. f_equal. unfold n. lia.
  - apply (sorted_bounds latencies Hne).
Qed.

Lemma reference_at_hundred_witness :
  exists value,
    reference (sort [30; 10; 20]) "100.000000" = Ok value /\
    In value [30; 10; 20] /\ Forall (fun x => x <= value) [30; 10; 20].
Proof.
  apply (reference_at_hundred [30; 10; 20] "100.000000"
           (100000000 # 1000000)).
  - discriminate.
  - cbn. lia.
  - reflexivity.
  - reflexivity.
Defined.

(** ** A verdict of [False] is always explained by a line of output *)

Lemma bind_inv {A B : Type} (m : M A) (f : A -> M B) out b :
  bind m f = (out, Ok b) ->
  exists o1 a o2, m = (o1, Ok a) /\ f a = (o2, Ok b) /\ out = o1 ++ o2.
Proof.
  destruct m as [o1 [a | e]]; cbn [bind]; [| discriminate].
  destruct (f a) as [o2 r] eqn:E. intros [= <- ->].
  exists o1, a, o2. split; [reflexivity |]. split; [exact E | reflexivity].
Qed.

Lemma explained_swap m start retval :
  explained m start retval -> explained m retval start.
Proof.
  intros H out b E. rewrite (H out b E).
  destruct start, retval; reflexivity.
Qed.

Lemma explained_bind (m : M bool) (f : bool -> M bool) start retval :
  explained m start true -> (forall r, explained (f r) r retval) ->
  explained (bind m f) start retval.
Proof.
  intros Hm Hf out b E.
  apply bind_inv in E. destruct E as (o1 & a & o2 & E1 & E2 & ->).
  rewrite (Hf a o2 b E2), (Hm o1 a E1), existsb_app.
  destruct retval, start, (existsb is_mismatch o1), (existsb is_mismatch o2);
    reflexivity.
Qed.

Lemma explained_lift {A : Type} (x : result A) (f : A -> M bool) start retval :
  (forall a, explained (f a) start retval) ->
  explained (bind (lift x) f) start retval.
Proof.
  intros Hf out b E.
  apply bind_inv in E. destruct E as (o1 & a & o2 & E1 & E2 & ->).
  injection E1 as <- _. apply (Hf a). exact E2.
Qed.

Lemma explained_ret r : explained (ret r) r true.
Proof. intros out b [= <- <-]. destruct r; reflexivity. Qed.

Lemma explained_complain d start retval :
  is_mismatch d = true -> explained (print d ;; ret false) start retval.
Proof.
  intros Hd out b [= <- <-]. cbn [existsb]. rewrite Hd.
  destruct retval, start; reflexivity.
Qed.

Lemma explained_foldM {A : Type} (f : bool -> A -> M bool) l :
  (forall r x, explained (f r x) r true) ->
  forall r, explained (foldM f r l) r true.
Proof.
  intros Hf. induction l as [| x l IH]; intros r; cbn [foldM].
  - apply explained_ret.
  - apply explained_bind; [apply Hf | exact IH].
Qed.

Ltac explain :=
  repeat first
    [ apply explained_ret
    | apply explained_complain; reflexivity
    | apply explained_lift; intro
    | apply explained_bind; [| intro]
    | match goal with
      | |- explained (if ?c then _ else _) _ _ => destruct c
      | |- explained (match ?x with _ => _ end) _ _ => destruct x
      end ].

Lemma check_jsonplus_explained js : explained (check_jsonplus js) true true.
Proof. unfold check_jsonplus. cbv zeta. explain. Qed.

Lemma check_terse_field_explained jsondata r lat :
  explained (check_terse_field jsondata r lat) r true.
Proof. unfold check_terse_field. cbv zeta. explain. Qed.

Lemma check_sync_lat_explained jsondata plus :
  explained (check_sync_lat jsondata plus) true true.
Proof.
  unfold check_sync_lat.
  destruct (js_percentile (sync_lat_ns jsondata));
    [| apply explained_complain; reflexivity].
  apply explained_bind; [explain |]. intros r.
  assert (explained (ok <- check_jsonplus (sync_lat_ns jsondata) ;;
                     ret (if ok then r else false)) r true) as H.
  { apply explained_swap.
    apply explained_bind; [apply check_jsonplus_explained |].
    intros ok. apply explained_swap. destruct ok, r; apply explained_ret. }
  destruct (negb plus), (js_bins (sync_lat_ns jsondata));
    try exact H. apply explained_complain. reflexivity.
Qed.

Lemma check_percentile_explained lat latencies ptiles r percentile :
  explained (check_percentile lat latencies ptiles r percentile) r true.
Proof.
  unfold check_percentile. cbv zeta.
  repeat (apply explained_lift; intro).
  match goal with |- explained (if ?c then _ else _) _ _ => destruct c end;
    [| apply explained_ret].
  intros out b [= <- <-]. destruct r; reflexivity.
Qed.

Lemma check_latency_type_explained logs jsondata ddir slat clat tlat plus
  unified retval lat :
  explained (check_latency_type logs jsondata ddir slat clat tlat plus unified
               retval lat) retval true.
Proof.
  unfold check_latency_type. cbv zeta.
  destruct (negb (types slat clat tlat lat)).
  - destruct (js_percentile (stats_of jsondata lat));
      intros out b [= <- <-]; destruct retval; reflexivity.
  - apply explained_swap.
    (* the percentiles must be present *)
    apply explained_bind.
    { unfold presence_gate. explain. }
    intros r1.
    (* the bins *)
    apply explained_bind.
    { unfold bins_gate.
      destruct plus, (js_bins (stats_of jsondata lat));
        try (apply explained_complain; reflexivity);
        try apply explained_ret.
      apply explained_swap.
      apply explained_bind; [apply check_jsonplus_explained |].
      intros ok. apply explained_swap. destruct ok, r1; apply explained_ret. }
    intros r2.
    (* the number of samples *)
    apply explained_bind.
    { unfold count_check. cbv zeta. explain. }
    intros r3.
    (* the percentiles *)
    apply explained_bind.
    { unfold percentile_checks. cbv zeta. apply explained_lift.
      intros ptiles. apply explained_foldM. intros r pct.
      apply check_percentile_explained. }
    intros r4. destruct r4; intros out b [= <- <-]; destruct retval;
      reflexivity.
Qed.

(** X24. The verdict of [check_latencies] is explained by its output:
    when it returns, it returns [False] exactly when it printed a line
    other than "percentiles match", "percentiles skipped" and
    "unexpected percentiles found". No failure is silent, and no such
    line is printed on the way to [True]. *)
Theorem check_latencies_verdict_explained (logs : lat_type -> list log_line)
  (jsondata : ddir_stats) (ddir : Z) (slat clat tlat plus unified : bool)
  (out : list diag) (verdict : bool) :
  check_latencies logs jsondata ddir slat clat tlat plus unified
  = (out, Ok verdict) ->
  verdict = negb (existsb is_mismatch out).
Proof.
  intros H. unfold check_latencies in H.
  apply (explained_foldM _ [Slat; Clat; Lat]
           (fun r lat => check_latency_type_explained logs jsondata ddir slat
                           clat tlat plus unified r lat) true) in H.
  exact H.
Qed.

Lemma mismatches_bind {A B : Type} (m : M A) (f : A -> M B) :
  Forall (fun d => is_mismatch d = true) (fst m) ->
  (forall a, Forall (fun d => is_mismatch d = true) (fst (f a))) ->
  Forall (fun d => is_mismatch d = true) (fst (bind m f)).
Proof.
  intros Hm Hf. destruct m as [o [a | e]]; cbn [bind fst] in *;
    [| exact Hm].
  specialize (Hf a). destruct (f a) as [o' r]. cbn [fst] in *.
  apply Forall_app. split; assumption.
Qed.

Lemma mismatches_foldM {A : Type} (f : bool -> A -> M bool) l :
  (forall r x, Forall (fun d => is_mismatch d = true) (fst (f r x))) ->
  forall r, Forall (fun d => is_mismatch d = true) (fst (foldM f r l)).
Proof.
  intros Hf. induction l as [| x l IH]; intros r; cbn [foldM].
  - constructor.
  - apply mismatches_bind; [apply Hf | exact IH].
Qed.

Ltac mismatches :=
  repeat first
    [ apply mismatches_bind; [| intro]
    | match goal with
      | |- Forall _ (fst (if ?c then _ else _)) => destruct c
      | |- Forall _ (fst (match ?x with _ => _ end)) => destruct x
      end
    | solve [repeat constructor] ].

Lemma check_jsonplus_mismatches js :
  Forall (fun d => is_mismatch d = true) (fst (check_jsonplus js)).
Proof. unfold check_jsonplus. cbv zeta. mismatches. Qed.

Lemma check_sync_lat_mismatches jsondata plus :
  Forall (fun d => is_mismatch d = true) (fst (check_sync_lat jsondata plus)).
Proof.
  unfold check_sync_lat.
  destruct (js_percentile (sync_lat_ns jsondata)); [| repeat constructor].
  apply mismatches_bind; [mismatches |]. intros r.
  destruct (negb plus), (js_bins (sync_lat_ns jsondata));
    try (repeat constructor; fail);
    (apply mismatches_bind; [apply check_jsonplus_mismatches |
                             intros ok; constructor]).
Qed.

Lemma check_terse_mismatches terse ptiles :
  Forall (fun d => is_mismatch d = true) (fst (check_terse terse ptiles)).
Proof.
  unfold check_terse. apply mismatches_foldM. intros r x.
  unfold check_terse_field. cbv zeta. mismatches.
Qed.

(** X25. The three other checking functions, [check_jsonplus],
    [check_sync_lat] and [check_terse], return [True] in silence and
    [False] with at least one line of output: when one of them returns,
    it returns [True] exactly when it printed nothing. *)
Theorem checks_verdict_explained (m : M bool) (out : list diag)
  (verdict : bool) :
  (exists js, m = check_jsonplus js) \/
  (exists sync plus, m = check_sync_lat sync plus) \/
  (exists terse ptiles, m = check_terse terse ptiles) ->
  m = (out, Ok verdict) ->
  verdict = true <-> out = [].
Proof.
  intros Hm H.
  assert (explained m true true) as E.
  { destruct Hm as [(js & ->) | [(sync & plus & ->) | (terse & ptiles & ->)]].
    - apply check_jsonplus_explained.
    - apply check_sync_lat_explained.
    - unfold check_terse. apply explained_foldM. intros r x.
      apply check_terse_field_explained. }
  assert (Forall (fun d => is_mismatch d = true) (fst m)) as Hall.
  { destruct Hm as [(js & ->) | [(sync & plus & ->) | (terse & ptiles & ->)]].
    - apply check_jsonplus_mismatches.
    - apply check_sync_lat_mismatches.
    - apply check_terse_mismatches. }
  rewrite (E out verdict H). rewrite H in Hall. cbn [fst] in Hall.
  destruct out as [| d out]; cbn [andb existsb negb].
  - split; reflexivity.
  - inversion Hall as [| ? ? Hd _]; subst. rewrite Hd. cbn.
    split; discriminate.
Qed.

Lemma check_latencies_verdict_explained_witness :
  let out := [PercentilesSkipped Slat; PercentilesMatch Clat;
              PercentilesMatch Lat] in
  check_latencies example_logs (report 3 no_stats good_stats good_stats)
                  0 false true true false false = (out, Ok true) /\
  true = negb (existsb is_mismatch out).
Proof.
  intros out.
  assert (check_latencies example_logs
            (report 3 no_stats good_stats good_stats)
            0 false true true false false = (out, Ok true)) as H
    by (vm_compute; reflexivity).
  split; [exact H |].
  exact (check_latencies_verdict_explained _ _ _ _ _ _ _ _ _ _ H).
Defined.

Lemma checks_verdict_explained_witness :
  check_jsonplus (scenario_B 7) = ([SizeMismatch 7 10], Ok false) /\
  (false = true <-> [SizeMismatch 7 10] = []).
Proof.
  assert (check_jsonplus (scenario_B 7) = ([SizeMismatch 7 10], Ok false))
    as H by (vm_compute; reflexivity).
  split; [exact H |].
  apply (checks_verdict_explained (check_jsonplus (scenario_B 7))).
  - left. exists (scenario_B 7). reflexivity.
  - exact H.
Defined.

Lemma two_part_tests_pass_witness :
  let json_loads := loads_job read_job in
  (snd (check_t007 json_loads "{}" example_logs) = Ok (PyBool true) <->
   section_empty read_job DirTrim /\
   section_passes example_logs read_job DirRead 0 true false false true /\
   section_passes example_logs read_job DirWrite 1 true false false true) /\
  (snd (check_t009 json_loads "{}" example_logs) = Ok (PyBool true) <->
   section_empty read_job DirRead /\ section_empty read_job DirTrim /\
   sync_passes read_job /\
   section_passes example_logs read_job DirWrite 1 false true true true).
Proof.
  intros json_loads.
  apply (two_part_tests_pass json_loads "{}" example_logs
           {| jobs := Some [read_job] |} read_job); reflexivity.
Defined.

Lemma unified_test_passes_witness :
  let json_loads := loads_job read_job in
  snd (check_t008 json_loads "{}" example_logs) = Ok (PyBool true) <->
  job_read read_job = None /\ job_write read_job = None /\
  job_trim read_job = None /\
  exists m, job_mixed read_job = Some m /\
            forall lat ddir, type_passes example_logs m ddir true true lat.
Proof.
  intros json_loads.
  apply (unified_test_passes json_loads "{}" example_logs
           {| jobs := Some [read_job] |} read_job); reflexivity.
Defined.

Lemma terse_tests_pass_witness :
  let json_loads := loads_job read_job in
  (snd (check_t010 json_loads "{}" example_logs) = Ok (PyBool true) <->
   exists terse,
     get_terse "{}" = Ok (true, inl terse) /\
     section_empty read_job DirTrim /\
     section_passes example_logs read_job DirRead 0 true true true true /\
     section_passes example_logs read_job DirWrite 1 true true true true /\
     terse_passes terse 17 34 read_job DirRead Clat /\
     terse_passes terse 58 75 read_job DirWrite Clat) /\
  (snd (check_t011 json_loads "{}" example_logs) = Ok (PyBool true) <->
   exists terse,
     get_terse "{}" = Ok (true, inl terse) /\
     section_empty read_job DirTrim /\
     section_passes example_logs read_job DirRead 0 false false true true /\
     section_passes example_logs read_job DirWrite 1 false false true true /\
     terse_passes terse 17 34 read_job DirRead Lat /\
     terse_passes terse 58 75 read_job DirWrite Lat).
Proof.
  intros json_loads.
  apply (terse_tests_pass json_loads "{}" example_logs
           {| jobs := Some [read_job] |} read_job); reflexivity.
Defined.

(** ** Exceptions of the test functions *)

Section TestExceptions.

Variable json_loads : string -> result (option document).

(** X26. A decoded report without a first job makes every test function
    raise, before anything is printed: [KeyError] when the document has
    no ['jobs'] member, [IndexError] when the list of jobs is empty. *)
Theorem missing_job_raises (t : test) (output : string)
  (logs : lat_type -> list log_line) (d : document) :
  In t (tests json_loads) ->
  get_json document json_loads output = Ok (true, inl d) ->
  match jobs d with Some (_ :: _) => False | _ => True end ->
  check t output logs =
  ([], Raise (match jobs d with None => KeyError | Some _ => IndexError end)).
Proof.
  intros Hin Hd Hj.
  assert (forall body,
            with_job json_loads output body =
            ([], Raise (match jobs d with
                        | None => KeyError
                        | Some _ => IndexError
                        end))) as Hw.
  { intros body. unfold with_job, first_job. rewrite Hd, tbind_tlift_ok.
    destruct (jobs d) as [[| j l] |]; [reflexivity | contradiction |
                                       reflexivity]. }
  unfold tests in Hin. cbn [In] in Hin.
  repeat (destruct Hin as [<- | Hin]; [apply Hw |]). contradiction.
Qed.

End TestExceptions.

Lemma missing_job_raises_witness :
  check_t004 (fun _ => Ok (Some {| jobs := None |})) "{}" example_logs =
  ([], Raise KeyError).
Proof.
  apply (missing_job_raises (fun _ => Ok (Some {| jobs := None |}))
           {| test_id := 4;
              check := check_t004 (fun _ => Ok (Some {| jobs := None |})) |}
           "{}" example_logs {| jobs := None |}).
  - unfold tests. cbn [In]. tauto.
  - reflexivity.
  - exact I.
Defined.

Lemma foldM_raises {A S : Type} (f : S -> A -> M S) pre x post e :
  (forall s, snd (f s x) = Raise e) ->
  Forall (fun y => forall s, exists s', snd (f s y) = Ok s') pre ->
  forall s, snd (foldM f s (pre ++ x :: post)) = Raise e.
Proof.
  intros Hx Hpre. induction Hpre as [| y pre Hy _ IH]; intros s;
    cbn [app foldM]; rewrite snd_bind.
  - rewrite Hx. reflexivity.
  - destruct (Hy s) as (s' & ->). apply IH.
Qed.

(** X27. A terse field without a ['%'] ends [check_terse] with an
    [IndexError]: [lat.split('%')] has a single element and [split[1]]
    is out of range. The fields after it are not looked at. *)
Theorem check_terse_field_without_percent (pre post : list string)
  (field : string) (jsondata : dict) :
  split "%"%char field = [field] ->
  Forall (fun f => forall r,
            exists r', snd (check_terse_field jsondata r f) = Ok r') pre ->
  snd (check_terse (pre ++ field :: post) jsondata) = Raise IndexError.
Proof.
  intros Hf Hpre. unfold check_terse. apply foldM_raises; [| exact Hpre].
  intros s. unfold check_terse_field. cbv zeta. rewrite Hf. reflexivity.
Qed.

Lemma check_terse_field_without_percent_witness :
  snd (check_terse (["50.000000%=1"%string] ++
                    "20"%string :: ["99.000000%=2"%string])
                   [("50.000000"%string, 1000)]) = Raise IndexError.
Proof.
  apply check_terse_field_without_percent.
  - reflexivity.
  - constructor; [| constructor]. intros r. eexists. vm_compute. reflexivity.
Defined.
